(** * tmpacc: a shallow embedding of [tmpacc/TemporalAccumulator.py]

    The development follows the Python module class by class:
    [Interval], [DataSeries], [Calendar] and [TemporalAccumulator] become
    modules of the same name whose definitions are the methods of the class.
    The part of Python's [datetime] and [re] libraries that the module calls
    is modelled first (after CPython's [Lib/datetime.py]).

    Python integers are unbounded, so they are [Z]; [//] and [%] with a
    positive divisor are [Z.div] and [Z.modulo] (both round towards minus
    infinity).  Where a built-in method converts an integer argument to a
    C integer ([datetime.replace], [list.pop], [list.insert]) the
    conversion and its [OverflowError] are written out.  An exception is
    a value of [exn] carried by [Raise]. *)

From Stdlib Require Import ZArith List String Ascii Bool Lia.
Import ListNotations.

Open Scope Z_scope.

(* ================================================================== *)
(** * Outcomes of a Python call *)

Inductive exn : Type :=
| ValueError
| OverflowError
| IndexError
| KeyError
| TypeError.

(** [OutOfFuel] is produced only by a loop model that was given too little
    fuel; it does not correspond to any Python behaviour. *)
Inductive outcome (A : Type) : Type :=
| Ok (a : A)
| Raise (e : exn)
| OutOfFuel.

Arguments Ok {A} a.
Arguments Raise {A} e.
Arguments OutOfFuel {A}.

Definition bind {A B : Type} (c : outcome A) (k : A -> outcome B) : outcome B :=
  match c with
  | Ok a => k a
  | Raise e => Raise e
  | OutOfFuel => OutOfFuel
  end.

Notation "x <- c ;; k" := (bind c (fun x => k))
  (at level 61, c at next level, right associativity).

(** [try: c except ValueError: h] *)
Definition try_except_ValueError {A : Type} (c h : outcome A) : outcome A :=
  match c with
  | Raise ValueError => h
  | other => other
  end.

Definition b2z (b : bool) : Z := if b then 1 else 0.

(** ** Arguments converted to C integers

    The built-in methods implemented in C convert an integer argument
    before they look at it: [datetime.replace] to an [int], [list.pop]
    and [list.insert] to a [Py_ssize_t] (64 bits on the usual builds).
    A Python integer that does not fit raises [OverflowError]. *)

Definition INT_MIN : Z := -2147483648.
Definition INT_MAX : Z := 2147483647.
Definition PY_SSIZE_T_MIN : Z := -9223372036854775808.
Definition PY_SSIZE_T_MAX : Z := 9223372036854775807.

Definition fits_int (z : Z) : bool := (INT_MIN <=? z) && (z <=? INT_MAX).

Definition fits_ssize_t (z : Z) : bool :=
  (PY_SSIZE_T_MIN <=? z) && (z <=? PY_SSIZE_T_MAX).

(* ================================================================== *)
(** * The [datetime] library (naive datetimes) *)

Definition MINYEAR : Z := 1.
Definition MAXYEAR : Z := 9999.
Definition MAXORDINAL : Z := 3652059.

Definition DAYS_IN_MONTH : list Z :=
  [-1; 31; 28; 31; 30; 31; 30; 31; 31; 30; 31; 30; 31].

Definition DAYS_BEFORE_MONTH : list Z :=
  [-1; 0; 31; 59; 90; 120; 151; 181; 212; 243; 273; 304; 334].

(** [lst[i]] for an index known to be in range; out of range gives [0],
    which no caller below reaches. *)
Definition index (lst : list Z) (i : Z) : Z := nth (Z.to_nat i) lst 0.

Definition is_leap (year : Z) : bool :=
  (year mod 4 =? 0) && (negb (year mod 100 =? 0) || (year mod 400 =? 0)).

Definition days_before_year (year : Z) : Z :=
  let y := year - 1 in
  y * 365 + y / 4 - y / 100 + y / 400.

Definition days_in_month (year month : Z) : Z :=
  if (month =? 2) && is_leap year then 29 else index DAYS_IN_MONTH month.

Definition days_before_month (year month : Z) : Z :=
  index DAYS_BEFORE_MONTH month + b2z ((2 <? month) && is_leap year).

Definition ymd2ord (year month day : Z) : Z :=
  days_before_year year + days_before_month year month + day.

Definition DI400Y : Z := 146097.
Definition DI100Y : Z := 36524.
Definition DI4Y : Z := 1461.

(** The second half of [_ord2ymd]: month and day of the [n]-th day
    (counted from 0) of a year, from an estimate of the month that is
    exact or one too large. *)
Definition month_day (leapyear : bool) (n : Z) : Z * Z :=
  let month := Z.shiftr (n + 50) 5 in
  let preceding :=
    index DAYS_BEFORE_MONTH month + b2z ((2 <? month) && leapyear) in
  let '(month, preceding) :=
    if n <? preceding
    then (month - 1,
          preceding
          - (index DAYS_IN_MONTH (month - 1)
             + b2z ((month - 1 =? 2) && leapyear)))
    else (month, preceding) in
  (month, n - preceding + 1).

Definition ord2ymd (n : Z) : Z * Z * Z :=
  let n := n - 1 in
  let n400 := n / DI400Y in
  let n := n mod DI400Y in
  let year := n400 * 400 + 1 in
  let n100 := n / DI100Y in
  let n := n mod DI100Y in
  let n4 := n / DI4Y in
  let n := n mod DI4Y in
  let n1 := n / 365 in
  let n := n mod 365 in
  let year := year + (n100 * 100 + n4 * 4 + n1) in
  if (n1 =? 4) || (n100 =? 4) then (year - 1, 12, 31)
  else
    let leapyear := (n1 =? 3) && (negb (n4 =? 24) || (n100 =? 3)) in
    let '(month, day) := month_day leapyear n in
    (year, month, day).

Record datetime : Type := mkdatetime {
  year : Z;
  month : Z;
  day : Z;
  hour : Z;
  minute : Z;
  second : Z;
  microsecond : Z
}.

Definition check_date_fields (y m d : Z) : bool :=
  (MINYEAR <=? y) && (y <=? MAXYEAR)
  && (1 <=? m) && (m <=? 12)
  && (1 <=? d) && (d <=? days_in_month y m).

Definition check_time_fields (h mi s us : Z) : bool :=
  (0 <=? h) && (h <=? 23)
  && (0 <=? mi) && (mi <=? 59)
  && (0 <=? s) && (s <=? 59)
  && (0 <=? us) && (us <=? 999999).

(** The class invariant of [datetime]: every object passed the checks of
    its constructor. *)
Definition valid (d : datetime) : bool :=
  check_date_fields (year d) (month d) (day d)
  && check_time_fields (hour d) (minute d) (second d) (microsecond d).

(** [datetime(year, month, day, hour, minute, second, microsecond)] *)
Definition datetime_new (y m d h mi s us : Z) : outcome datetime :=
  if check_date_fields y m d then
    if check_time_fields h mi s us then Ok (mkdatetime y m d h mi s us)
    else Raise ValueError
  else Raise ValueError.

(** [self.replace(year=y, month=m, day=d)]: the three arguments are
    converted to C [int]s, which raises [OverflowError] for one that does
    not fit; the fields are checked afterwards, as in the constructor. *)
Definition replace (self : datetime) (y m d : Z) : outcome datetime :=
  if fits_int y && fits_int m && fits_int d
  then datetime_new y m d
                    (hour self) (minute self) (second self) (microsecond self)
  else Raise OverflowError.

Definition toordinal (d : datetime) : Z := ymd2ord (year d) (month d) (day d).

(** Comparison of naive datetimes: lexicographic on the seven fields. *)
Fixpoint lex_compare (a b : list Z) : comparison :=
  match a, b with
  | x :: a', y :: b' =>
      match x ?= y with
      | Eq => lex_compare a' b'
      | c => c
      end
  | [], [] => Eq
  | [], _ :: _ => Lt
  | _ :: _, [] => Gt
  end.

Definition fields (d : datetime) : list Z :=
  [year d; month d; day d; hour d; minute d; second d; microsecond d].

Definition datetime_compare (a b : datetime) : comparison :=
  lex_compare (fields a) (fields b).

Definition datetime_lt (a b : datetime) : bool :=
  match datetime_compare a b with Lt => true | _ => false end.

Definition datetime_le (a b : datetime) : bool :=
  match datetime_compare a b with Gt => false | _ => true end.

(** ** [timedelta]

    A timedelta is kept as its total number of microseconds; the
    normalised fields of the Python object are recovered by [td_days],
    [td_seconds] and [td_microseconds]. *)

Definition US_PER_SECOND : Z := 1000000.
Definition US_PER_DAY : Z := 86400 * US_PER_SECOND.

Record timedelta : Type := mktimedelta { total_us : Z }.

Definition td_days (t : timedelta) : Z := total_us t / US_PER_DAY.
Definition td_seconds (t : timedelta) : Z :=
  (total_us t mod US_PER_DAY) / US_PER_SECOND.
Definition td_microseconds (t : timedelta) : Z :=
  total_us t mod US_PER_SECOND.

(** The constructor refuses more than 999999999 days in either direction. *)
Definition timedelta_of_us (us : Z) : outcome timedelta :=
  if Z.abs (us / US_PER_DAY) <=? 999999999 then Ok (mktimedelta us)
  else Raise OverflowError.

Definition timedelta_new
  (days seconds microseconds milliseconds minutes hours weeks : Z)
  : outcome timedelta :=
  timedelta_of_us
    (((((weeks * 7 + days) * 24 + hours) * 60 + minutes) * 60 + seconds)
       * US_PER_SECOND
     + milliseconds * 1000 + microseconds).

(** [datetime.__add__(self, other)] for a timedelta [other]. *)
Definition datetime_add (self : datetime) (other : timedelta)
  : outcome datetime :=
  delta0 <- timedelta_new (toordinal self) (second self) (microsecond self)
                          0 (minute self) (hour self) 0 ;;
  delta <- timedelta_of_us (total_us delta0 + total_us other) ;;
  let hour := td_seconds delta / 3600 in
  let rem := td_seconds delta mod 3600 in
  let minute := rem / 60 in
  let second := rem mod 60 in
  if (0 <? td_days delta) && (td_days delta <=? MAXORDINAL) then
    let '(y, m, d) := ord2ymd (td_days delta) in
    Ok (mkdatetime y m d hour minute second (td_microseconds delta))
  else Raise OverflowError.

(* ================================================================== *)
(** * class Interval *)

(** The eight unit aliases of the module; [OtherUnit] stands for any other
    object stored in the [unit] field, which [next] rejects. *)
Inductive TemporalBaseUnits : Type :=
| Milliseconds
| Seconds
| Minutes
| Hours
| Days
| Weeks
| Months
| Years
| OtherUnit (name : string).

Module Interval.

Record t : Type := mk { unit : TemporalBaseUnits; scalar : Z }.

(** The table of month lengths written inside [next]; its February entry
    is [29 if year % 4 == 0 and not year % 100 == 0 or year % 400 == 0
    else 28]. *)
Definition month_lengths (year : Z) : list Z :=
  [31;
   if ((year mod 4 =? 0) && negb (year mod 100 =? 0)) || (year mod 400 =? 0)
   then 29 else 28;
   31; 30; 31; 30;
   31; 31; 30; 31;
   30; 31].

Definition next (self : t) (from_date : datetime) : outcome datetime :=
  match unit self with
  | Milliseconds =>
      td <- timedelta_new 0 0 0 (scalar self) 0 0 0 ;;
      datetime_add from_date td
  | Seconds =>
      td <- timedelta_new 0 (scalar self) 0 0 0 0 0 ;;
      datetime_add from_date td
  | Minutes =>
      td <- timedelta_new 0 0 0 0 (scalar self) 0 0 ;;
      datetime_add from_date td
  | Hours =>
      td <- timedelta_new 0 0 0 0 0 (scalar self) 0 ;;
      datetime_add from_date td
  | Days =>
      td <- timedelta_new (scalar self) 0 0 0 0 0 0 ;;
      datetime_add from_date td
  | Weeks =>
      td <- timedelta_new 0 0 0 0 0 0 (scalar self) ;;
      datetime_add from_date td
  | Months =>
      let month := month from_date - 1 + scalar self in
      let year := year from_date + month / 12 in
      let month := month mod 12 + 1 in
      let day := Z.min (day from_date)
                       (index (month_lengths year) (month - 1)) in
      replace from_date year month day
  | Years =>
      try_except_ValueError
        (replace from_date (year from_date + scalar self)
                 (month from_date) (day from_date))
        (replace from_date (year from_date + scalar self) 2 28)
  | OtherUnit _ => Raise ValueError
  end.

End Interval.

(* ================================================================== *)
(** * Python values held in a series *)

(** The element type of a series is [Any]; the values modelled are
    integers, strings (characters 0..255) and naive datetimes. *)
Inductive pyval : Type :=
| VInt (z : Z)
| VStr (s : string)
| VDate (d : datetime).

Definition datetime_eqb (a b : datetime) : bool :=
  (year a =? year b) && (month a =? month b) && (day a =? day b)
  && (hour a =? hour b) && (minute a =? minute b) && (second a =? second b)
  && (microsecond a =? microsecond b).

(** [==] on values: values of different kinds are never equal. *)
Definition pyval_eqb (a b : pyval) : bool :=
  match a, b with
  | VInt x, VInt y => x =? y
  | VStr x, VStr y => String.eqb x y
  | VDate x, VDate y => datetime_eqb x y
  | _, _ => false
  end.

(** [lst[i]] with Python's negative indices. *)
Definition py_index {A : Type} (lst : list A) (i : Z) : outcome A :=
  let n := Z.of_nat (List.length lst) in
  let j := if i <? 0 then i + n else i in
  if (0 <=? j) && (j <? n) then
    match nth_error lst (Z.to_nat j) with
    | Some x => Ok x
    | None => Raise IndexError
    end
  else Raise IndexError.

(** The position an index designates in a list of length [n]. *)
Definition position (n i : Z) : Z := if i <? 0 then i + n else i.

(** [lst[i] = v] *)
Definition list_setitem {A : Type} (lst : list A) (i : Z) (v : A)
  : outcome (list A) :=
  let n := Z.of_nat (List.length lst) in
  let j := position n i in
  if (0 <=? j) && (j <? n)
  then Ok (firstn (Z.to_nat j) lst ++ v :: skipn (S (Z.to_nat j)) lst)
  else Raise IndexError.

(** [del lst[i]] *)
Definition list_delitem {A : Type} (lst : list A) (i : Z)
  : outcome (list A) :=
  let n := Z.of_nat (List.length lst) in
  let j := position n i in
  if (0 <=? j) && (j <? n)
  then Ok (firstn (Z.to_nat j) lst ++ skipn (S (Z.to_nat j)) lst)
  else Raise IndexError.

(** [lst.insert(i, v)]: the index is converted to a [Py_ssize_t]
    ([OverflowError] when it does not fit, and nothing is inserted); an
    index beyond either end is then moved to that end. *)
Definition list_insert {A : Type} (lst : list A) (i : Z) (v : A)
  : outcome (list A) :=
  if fits_ssize_t i then
    let n := Z.of_nat (List.length lst) in
    let j := if i <? 0 then Z.max 0 (i + n) else Z.min i n in
    Ok (firstn (Z.to_nat j) lst ++ v :: skipn (Z.to_nat j) lst)
  else Raise OverflowError.

(** [lst.pop(i)]: the element removed and the list left.  The index is
    converted to a [Py_ssize_t] first ([OverflowError] when it does not
    fit); out of range it raises [IndexError]. *)
Definition list_pop {A : Type} (lst : list A) (i : Z)
  : outcome (A * list A) :=
  if fits_ssize_t i then
    let n := Z.of_nat (List.length lst) in
    let j := position n i in
    if (0 <=? j) && (j <? n) then
      match nth_error lst (Z.to_nat j) with
      | Some x =>
          Ok (x, firstn (Z.to_nat j) lst ++ skipn (S (Z.to_nat j)) lst)
      | None => Raise IndexError
      end
    else Raise IndexError
  else Raise OverflowError.

Inductive Affinity : Type := Categorical | Numerical | Temporal.

Inductive Aggregation : Type :=
| CumulativeSum
| MovingAverage
| LastValue
| MaxValue
| MinValue
| Identity.

(* ================================================================== *)
(** * class DataSeries *)

Module DataSeries.

(** The attributes assigned by [__init__]: [series] and [affinity]. *)
Record t : Type := mk { series : list pyval; affinity : Affinity }.

(** [__init__(self, series, affinity, aggregation=Identity)] *)
Definition init (series : list pyval) (affinity : Affinity)
                (aggregation : Aggregation) : t :=
  mk series affinity.

Definition len (self : t) : nat := List.length (series self).

Definition iter (self : t) : list pyval := series self.

(** [__getitem__] with an integer index. *)
Definition getitem (self : t) (index : Z) : outcome pyval :=
  py_index (series self) index.

(** [__getitem__] with a slice [start:stop] of non-negative bounds. *)
Definition getslice (self : t) (start stop : nat) : t :=
  init (firstn (stop - start) (skipn start (series self)))
       (affinity self) Identity.

(** Truth value of the object: it defines [__len__] and no [__bool__]. *)
Definition truthy (self : t) : bool := negb (Nat.eqb (len self) 0).

(** The methods that change the series.  The object is changed in
    place; the model returns the object after the call. *)

(** [__setitem__] with an integer index. *)
Definition setitem (self : t) (index : Z) (value : pyval) : outcome t :=
  l <- list_setitem (series self) index value ;;
  Ok (mk l (affinity self)).

(** [__delitem__] with an integer index. *)
Definition delitem (self : t) (index : Z) : outcome t :=
  l <- list_delitem (series self) index ;;
  Ok (mk l (affinity self)).

Definition append (self : t) (value : pyval) : t :=
  mk (series self ++ [value]) (affinity self).

Definition extend (self : t) (values : list pyval) : t :=
  mk (series self ++ values) (affinity self).

Definition insert (self : t) (index : Z) (value : pyval) : outcome t :=
  l <- list_insert (series self) index value ;;
  Ok (mk l (affinity self)).

(** [pop(index=-1)]: the value returned and the object left. *)
Definition pop (self : t) (index : Z) : outcome (pyval * t) :=
  r <- list_pop (series self) index ;;
  Ok (fst r, mk (snd r) (affinity self)).

Definition clear (self : t) : t := mk [] (affinity self).

(** [__contains__]: [item in self.series]. *)
Definition contains (self : t) (item : pyval) : bool :=
  existsb (pyval_eqb item) (series self).

(** One call of a method that changes the series. *)
Inductive call : Type :=
| SetItem (index : Z) (value : pyval)
| DelItem (index : Z)
| Append (value : pyval)
| Extend (values : list pyval)
| Insert (index : Z) (value : pyval)
| Pop (index : Z)
| Clear.

Definition perform (c : call) (self : t) : outcome t :=
  match c with
  | SetItem index value => setitem self index value
  | DelItem index => delitem self index
  | Append value => Ok (append self value)
  | Extend values => Ok (extend self values)
  | Insert index value => insert self index value
  | Pop index => r <- pop self index ;; Ok (snd r)
  | Clear => Ok (clear self)
  end.

(** A sequence of calls; it stops at the first one that raises. *)
Fixpoint perform_all (calls : list call) (self : t) : outcome t :=
  match calls with
  | [] => Ok self
  | c :: calls' => self <- perform c self ;; perform_all calls' self
  end.

End DataSeries.

Record StaticMap : Type := mkStaticMap { values : list (pyval * pyval) }.

(* ================================================================== *)
(** * The two regular expressions of [Calendar.fromstr] *)

Inductive atom : Type :=
| Digit              (* \d *)
| Lit (c : ascii).

Definition is_digit (c : ascii) : bool :=
  (48 <=? Z.of_N (N_of_ascii c)) && (Z.of_N (N_of_ascii c) <=? 57).

Definition digit_val (c : ascii) : Z := Z.of_N (N_of_ascii c) - 48.

Definition atom_matches (a : atom) (c : ascii) : bool :=
  match a with
  | Digit => is_digit c
  | Lit l => Ascii.eqb l c
  end.

(** Consume the atoms of a pattern from the front of the string. *)
Fixpoint match_prefix (p : list atom) (s : string) : option string :=
  match p with
  | [] => Some s
  | a :: p' =>
      match s with
      | EmptyString => None
      | String c s' => if atom_matches a c then match_prefix p' s' else None
      end
  end.

Definition newline : ascii := ascii_of_nat 10.

(** [$] without the MULTILINE flag: at the end of the string, or just
    before a newline that ends the string. *)
Definition at_dollar (rest : string) : bool :=
  match rest with
  | EmptyString => true
  | String c EmptyString => Ascii.eqb c newline
  | _ => false
  end.

(** [re.match('^' p '$', s)] is not [None]. *)
Definition re_match (p : list atom) (s : string) : bool :=
  match match_prefix p s with
  | Some rest => at_dollar rest
  | None => false
  end.

Definition dash : ascii := "-"%char.
Definition colon : ascii := ":"%char.

(** [^\d{4}-\d{2}-\d{2}$] *)
Definition DATE_RE : list atom :=
  repeat Digit 4 ++ [Lit dash] ++ repeat Digit 2 ++ [Lit dash]
  ++ repeat Digit 2.

(** [^\d{4}-\d{2}-\d{2}T\d{2}:\d{2}:\d{2}$] *)
Definition DATETIME_RE : list atom :=
  DATE_RE ++ [Lit "T"%char] ++ repeat Digit 2 ++ [Lit colon]
  ++ repeat Digit 2 ++ [Lit colon] ++ repeat Digit 2.

(* ================================================================== *)
(** * [datetime.fromisoformat], extended format without offset *)

Fixpoint parse_digits (s : string) (acc : Z) : option Z :=
  match s with
  | EmptyString => Some acc
  | String c s' =>
      if is_digit c then parse_digits s' (10 * acc + digit_val c) else None
  end.

(** [int(s)] for a string free of blanks, signs and underscores: the
    digits' value, or [ValueError]. *)
Definition int_of_str (s : string) : outcome Z :=
  match s with
  | EmptyString => Raise ValueError
  | _ =>
      match parse_digits s 0 with
      | Some z => Ok z
      | None => Raise ValueError
      end
  end.

Definition char_at (s : string) (i : nat) : string := substring i 1 s.

Fixpoint contains_any (cs : list ascii) (s : string) : bool :=
  match s with
  | EmptyString => false
  | String c s' => existsb (Ascii.eqb c) cs || contains_any cs s'
  end.

(** The strings on which [fromisoformat] is modelled: a dash at index 4,
    no week marker, and after the separator neither a UTC offset nor a
    fraction.  [Calendar.fromstr] passes no other string
    (see [fromstr_calls_in_domain]). *)
Definition iso_extended (s : string) : bool :=
  (10 <=? String.length s)%nat
  && String.eqb (char_at s 4) "-"
  && negb (String.eqb (char_at s 5) "W")
  && negb (contains_any ["-"; "+"; "Z"; "."; ","]%char
             (substring 11 (String.length s - 11) s)).

Definition set_nth (i : nat) (v : Z) (l : list Z) : list Z :=
  firstn i l ++ v :: skipn (S i) l.

(** The loop [for comp in range(0, 3)] of [_parse_hh_mm_ss_ff]; it returns
    the components and the position reached. *)
Fixpoint hh_mm_ss_loop (remaining comp : nat) (tstr : string) (pos : nat)
                       (has_sep : bool) (time_comps : list Z)
  : outcome (list Z * nat) :=
  match remaining with
  | O => Ok (time_comps, pos)
  | S remaining' =>
      if (String.length tstr - pos <? 2)%nat then Raise ValueError
      else
        v <- int_of_str (substring pos 2 tstr) ;;
        let time_comps := set_nth comp v time_comps in
        let pos := (pos + 2)%nat in
        let next_char := char_at tstr pos in
        let has_sep :=
          if Nat.eqb comp 0 then String.eqb next_char ":" else has_sep in
        if String.eqb next_char "" || (2 <=? comp)%nat
        then Ok (time_comps, pos)
        else if has_sep && negb (String.eqb next_char ":")
        then Raise ValueError
        else hh_mm_ss_loop remaining' (S comp) tstr
                           (pos + (if has_sep then 1 else 0))%nat
                           has_sep time_comps
  end.

Definition parse_hh_mm_ss_ff (tstr : string) : outcome (list Z) :=
  r <- hh_mm_ss_loop 3 0 tstr 0 false [0; 0; 0; 0] ;;
  let '(time_comps, pos) := r in
  if (pos <? String.length tstr)%nat
  then Raise ValueError          (* not a fraction: excluded by the domain *)
  else Ok time_comps.

Definition parse_isoformat_time (tstr : string) : outcome (list Z) :=
  if (String.length tstr <? 2)%nat then Raise ValueError
  else parse_hh_mm_ss_ff tstr.

Definition parse_isoformat_date (dtstr : string) : outcome (Z * Z * Z) :=
  year <- int_of_str (substring 0 4 dtstr) ;;
  month <- int_of_str (substring 5 2 dtstr) ;;
  if negb (String.eqb (char_at dtstr 7) "-") then Raise ValueError
  else
    day <- int_of_str (substring 8 2 dtstr) ;;
    Ok (year, month, day).

Definition fromisoformat (date_string : string) : outcome datetime :=
  if negb (iso_extended date_string) then Raise ValueError
  else
    let dstr := substring 0 10 date_string in
    let tstr := substring 11 (String.length date_string - 11) date_string in
    date_components <- parse_isoformat_date dstr ;;
    time_components <-
      (if String.eqb tstr "" then Ok [0; 0; 0; 0]
       else parse_isoformat_time tstr) ;;
    let '(y, m, d) := date_components in
    datetime_new y m d
                 (nth 0 time_components 0) (nth 1 time_components 0)
                 (nth 2 time_components 0) (nth 3 time_components 0).

(* ================================================================== *)
(** * class Calendar *)

Module Calendar.

Record t : Type := mk {
  start : datetime;
  end_ : datetime;
  series : list datetime;
  affinity : Affinity
}.

Definition fromstr (date_str : string) : outcome datetime :=
  if re_match DATE_RE date_str
  then fromisoformat (date_str ++ "T00:00:00")
  else if re_match DATETIME_RE date_str
  then fromisoformat date_str
  else Raise ValueError.

(** The [while] loop of [generate_dates], one iteration per unit of
    fuel. *)
Fixpoint generate_loop (fuel : nat) (current end_ : datetime)
                       (dates : list datetime)
  : outcome (list datetime) :=
  match fuel with
  | O => OutOfFuel
  | S fuel' =>
      if datetime_le current end_ then
        let dates := dates ++ [current] in
        one_day <- timedelta_new 1 0 0 0 0 0 0 ;;
        current <- datetime_add current one_day ;;
        generate_loop fuel' current end_ dates
      else Ok dates
  end.

(** Each iteration moves [current] to a later day, so the loop is
    entered at most once per day of the range and once more for the
    final test (see [generate_dates_terminates]). *)
Definition fuel_for (start end_ : datetime) : nat :=
  S (Z.to_nat (toordinal end_ - toordinal start + 1)).

Definition generate_dates (start end_ : datetime)
  : outcome (list datetime) :=
  generate_loop (fuel_for start end_) start end_ [].

(** [x if isinstance(x, datetime) else self.fromstr(x)]; [re.match]
    raises [TypeError] on a value that is not a string. *)
Definition instant (x : pyval) : outcome datetime :=
  match x with
  | VDate d => Ok d
  | VStr s => fromstr s
  | VInt _ => Raise TypeError
  end.

Definition init (start end_ : pyval) : outcome t :=
  start <- instant start ;;
  end_ <- instant end_ ;;
  series <- generate_dates start end_ ;;
  Ok (mk start end_ series Temporal).

(** Truth value: [__len__] inherited from [DataSeries]. *)
Definition truthy (self : t) : bool :=
  negb (Nat.eqb (List.length (series self)) 0).

End Calendar.

(* ================================================================== *)
(** * Dictionaries

    A [dict] keeps its keys in insertion order, so it is an association
    list without duplicate keys.  A value of the grouping built by
    [categorize] is either a nested dict or, under the key ["__all__"],
    the list object of the temporal dimension. *)

#[warnings="-register-all"]
Inductive node : Type :=
| Dict (items : list (pyval * node))
| Series (elements : list pyval).

Definition items_t : Type := list (pyval * node).

(** [k in d] *)
Fixpoint dict_contains (k : pyval) (d : items_t) : bool :=
  match d with
  | [] => false
  | (k', _) :: d' => pyval_eqb k' k || dict_contains k d'
  end.

(** [d[k]] when the key is present *)
Fixpoint dict_get (k : pyval) (d : items_t) : option node :=
  match d with
  | [] => None
  | (k', v) :: d' => if pyval_eqb k' k then Some v else dict_get k d'
  end.

(** [d[k] = v]: a present key keeps its position, a new key goes last. *)
Fixpoint dict_set (k : pyval) (v : node) (d : items_t) : items_t :=
  match d with
  | [] => [(k, v)]
  | (k', v') :: d' =>
      if pyval_eqb k' k then (k', v) :: d' else (k', v') :: dict_set k v d'
  end.

Definition dict_keys (d : items_t) : list pyval := map fst d.

(** The dict object reached from the root by the keys of [path]: Python
    variables such as [prev] hold a reference into the root dict, which is
    represented by the path that leads to the referenced object. *)
Fixpoint deref (path : list pyval) (root : items_t) : option items_t :=
  match path with
  | [] => Some root
  | k :: path' =>
      match dict_get k root with
      | Some (Dict sub) => deref path' sub
      | _ => None
      end
  end.

(** In-place update of the value stored under a present key. *)
Fixpoint update_child (k : pyval) (h : node -> node) (d : items_t)
  : items_t :=
  match d with
  | [] => []
  | (k', v) :: d' =>
      if pyval_eqb k' k then (k', h v) :: d'
      else (k', v) :: update_child k h d'
  end.

(** In-place update of the dict object referenced by [path]. *)
Fixpoint update_at (path : list pyval) (f : items_t -> items_t)
                   (root : items_t) : items_t :=
  match path with
  | [] => f root
  | k :: path' =>
      update_child k
        (fun child =>
           match child with
           | Dict sub => Dict (update_at path' f sub)
           | Series l => Series l
           end)
        root
  end.

(** [k in prev] for the reference [prev]. *)
Definition contains_at (prev : list pyval) (k : pyval) (root : items_t)
  : bool :=
  match deref prev root with
  | Some d => dict_contains k d
  | None => false
  end.

(* ================================================================== *)
(** * class TemporalAccumulator *)

Module TemporalAccumulator.

(** An argument [List[DataSeries] | DataSeries = None]. *)
Inductive series_arg : Type :=
| ArgNone
| ArgOne (d : DataSeries.t)
| ArgList (l : list DataSeries.t).

(** [x if isinstance(x, list) else [x] if x else []] *)
Definition as_list (x : series_arg) : list DataSeries.t :=
  match x with
  | ArgList l => l
  | ArgOne d => if DataSeries.truthy d then [d] else []
  | ArgNone => []
  end.

Record t : Type := mk {
  temporal_dimension : DataSeries.t;
  catagories : list DataSeries.t;
  quantities : list DataSeries.t;
  static_maps : list StaticMap;
  calendar : Calendar.t;
  interval : Interval.t;
  (** [None] is Python's [None], the value of a call that ends
      without a [return]. *)
  processed_data : option (list DataSeries.t)
}.

(** [static_maps if static_maps else []] *)
Definition static_maps_or_empty (static_maps : option (list StaticMap))
  : list StaticMap :=
  match static_maps with
  | Some (m :: ms) => m :: ms
  | _ => []
  end.

(** [Calendar(temporal_dimension.series[0],
    temporal_dimension.series[-1])] *)
Definition default_calendar (temporal_dimension : DataSeries.t)
  : outcome Calendar.t :=
  first <- py_index (DataSeries.series temporal_dimension) 0 ;;
  last <- py_index (DataSeries.series temporal_dimension) (-1) ;;
  Calendar.init first last.

(** [calendar if calendar else Calendar(...)]: a calendar without dates
    is false, like [None]. *)
Definition calendar_or_default (temporal_dimension : DataSeries.t)
                               (calendar : option Calendar.t)
  : outcome Calendar.t :=
  match calendar with
  | Some c =>
      if Calendar.truthy c then Ok c
      else default_calendar temporal_dimension
  | None => default_calendar temporal_dimension
  end.

(** ** categorize *)

(** The loop [for j in range(1, len(self.catagories))] for row [i];
    [prev] is the reference held by the variable of that name. *)
Fixpoint descend (sub_categories : list DataSeries.t) (i : nat)
                 (prev : list pyval) (root : items_t) : outcome items_t :=
  match sub_categories with
  | [] => Ok root
  | sub_category :: rest =>
      sub_category_value <- DataSeries.getitem sub_category (Z.of_nat i) ;;
      let root :=
        if contains_at prev sub_category_value root then root
        else update_at prev (dict_set sub_category_value (Dict [])) root in
      descend rest i (prev ++ [sub_category_value]) root
  end.

(** The loop [for i, category_value in enumerate(self.catagories[0])]. *)
Fixpoint rows_loop (catagories : list DataSeries.t)
                   (remaining : list pyval) (i : nat)
                   (categorization_map : items_t) : outcome items_t :=
  match remaining with
  | [] => Ok categorization_map
  | category_value :: remaining' =>
      let categorization_map :=
        if dict_contains category_value categorization_map
        then categorization_map
        else dict_set category_value (Dict []) categorization_map in
      categorization_map <-
        (if (1 <? List.length catagories)%nat
         then descend (tl catagories) i [category_value] categorization_map
         else Ok categorization_map) ;;
      rows_loop catagories remaining' (S i) categorization_map
  end.

Definition categorize (temporal_dimension : DataSeries.t)
                      (catagories : list DataSeries.t) : outcome items_t :=
  match catagories with
  | [] =>
      Ok (dict_set (VStr "__all__")
                   (Series (DataSeries.series temporal_dimension)) [])
  | first :: _ =>
      rows_loop catagories (DataSeries.iter first) 0 []
  end.

(** ** accumulate

    The source of [accumulate] stops in the middle of a statement: the
    last line of its inner loop, [accumulation_map[cat_value] = ], has no
    right-hand side.  The model takes the meaning of that statement as
    the parameter [unfinished_assignment], together with the type [V] of
    the objects stored in [accumulation_map] and the way they are
    iterated and compared; everything proved about [accumulate] holds
    for every choice of them. *)
Section Accumulate.

Variable V : Type.
Variable iterate : V -> list pyval.
Variable same_key : DataSeries.t + pyval -> DataSeries.t + pyval -> bool.
Variable unfinished_assignment :
  list ((DataSeries.t + pyval) * V) -> pyval ->
  outcome (list ((DataSeries.t + pyval) * V)).

Definition acc_map : Type := list ((DataSeries.t + pyval) * V).

(** [accumulation_map[k]]: [KeyError] when the key is absent. *)
Fixpoint acc_getitem (m : acc_map) (k : DataSeries.t + pyval)
  : outcome V :=
  match m with
  | [] => Raise KeyError
  | (k', v) :: m' => if same_key k' k then Ok v else acc_getitem m' k
  end.

Fixpoint cat_value_loop (cat_values : list pyval) (m : acc_map)
  : outcome acc_map :=
  match cat_values with
  | [] => Ok m
  | cat_value :: rest =>
      m <- unfinished_assignment m cat_value ;;
      cat_value_loop rest m
  end.

Fixpoint category_loop (catagories : list DataSeries.t) (m : acc_map)
  : outcome acc_map :=
  match catagories with
  | [] => Ok m
  | category :: rest =>
      category_series <- acc_getitem m (inl category) ;;
      m <- cat_value_loop (iterate category_series) m ;;
      category_loop rest m
  end.

(** The function has no [return] statement. *)
Definition accumulate (catagories : list DataSeries.t)
  : outcome (option (list DataSeries.t)) :=
  _ <- category_loop catagories [] ;;
  Ok None.

(** ** __init__ *)
Definition init (temporal_dimension : DataSeries.t)
                (catagories quantities : series_arg)
                (static_maps : option (list StaticMap))
                (calendar : option Calendar.t)
                (interval : Interval.t) : outcome t :=
  let catagories := as_list catagories in
  let quantities := as_list quantities in
  let static_maps := static_maps_or_empty static_maps in
  calendar <- calendar_or_default temporal_dimension calendar ;;
  processed_data <- accumulate catagories ;;
  Ok (mk temporal_dimension catagories quantities static_maps calendar
         interval processed_data).

End Accumulate.

(** The default value of the [interval] argument. *)
Definition default_interval : Interval.t := Interval.mk Days 1.

End TemporalAccumulator.

(* ================================================================== *)
(** * Definitions used to state the properties *)

(** The position of a datetime on the time line, in microseconds. *)
Definition to_us (d : datetime) : Z :=
  toordinal d * US_PER_DAY
  + ((hour d * 60 + minute d) * 60 + second d) * US_PER_SECOND
  + microsecond d.

(** The datetime at a position of the time line. *)
Definition of_us (u : Z) : datetime :=
  let '(y, m, d) := ord2ymd (u / US_PER_DAY) in
  let s := (u mod US_PER_DAY) / US_PER_SECOND in
  mkdatetime y m d (s / 3600) (s mod 3600 / 60) (s mod 3600 mod 60)
             (u mod US_PER_SECOND).

(** The positions that fall in the years 1 to 9999. *)
Definition representable (u : Z) : bool :=
  (0 <? u / US_PER_DAY) && (u / US_PER_DAY <=? MAXORDINAL).

(** The length in microseconds of one step of a unit of fixed duration. *)
Definition unit_us (u : TemporalBaseUnits) : option Z :=
  match u with
  | Milliseconds => Some 1000
  | Seconds => Some US_PER_SECOND
  | Minutes => Some (60 * US_PER_SECOND)
  | Hours => Some (3600 * US_PER_SECOND)
  | Days => Some US_PER_DAY
  | Weeks => Some (7 * US_PER_DAY)
  | Months | Years | OtherUnit _ => None
  end.

Definition fixed_duration (u : TemporalBaseUnits) : bool :=
  match unit_us u with Some _ => true | None => false end.

(** [Interval.next] is strictly increasing on the datetimes that satisfy
    [P], wherever it returns. *)
Definition strictly_monotonic_on (P : datetime -> Prop) (iv : Interval.t)
  : Prop :=
  forall d1 d2 r1 r2 : datetime,
    valid d1 = true -> valid d2 = true -> P d1 -> P d2 ->
    datetime_lt d1 d2 = true ->
    Interval.next iv d1 = Ok r1 -> Interval.next iv d2 = Ok r2 ->
    datetime_lt r1 r2 = true.

Definition strictly_monotonic (iv : Interval.t) : Prop :=
  strictly_monotonic_on (fun _ => True) iv.

(** The leap-year rule in the words of the specification: divisible by 4
    and not by 100, unless also divisible by 400. *)
Definition spec_leap_year (y : Z) : bool :=
  if y mod 400 =? 0 then true
  else (y mod 4 =? 0) && negb (y mod 100 =? 0).

(** The last valid day of a month, by that rule. *)
Definition spec_last_day (y m : Z) : Z :=
  if m =? 2 then (if spec_leap_year y then 29 else 28)
  else if (m =? 4) || (m =? 6) || (m =? 9) || (m =? 11) then 30
  else 31.

(** [d] moved by [i] whole days. *)
Definition plus_days (d : datetime) (i : nat) : datetime :=
  of_us (to_us d + Z.of_nat i * US_PER_DAY).

(** The number of instants [a], [a] + 1 day, ... that are not after [b]. *)
Definition days_in_range (a b : datetime) : nat :=
  if datetime_le a b
  then S (Z.to_nat ((to_us b - to_us a) / US_PER_DAY))
  else O.

(** The inclusive daily range from [a] to [b]: every instant [a] + i days
    that is not after [b], in increasing order. *)
Definition daily_range (a b : datetime) : list datetime :=
  map (plus_days a) (seq 0 (days_in_range a b)).

(** A string is in the form of a pattern when the pattern consumes it
    entirely. *)
Definition in_form (p : list atom) (s : string) : bool :=
  match match_prefix p s with
  | Some EmptyString => true
  | _ => false
  end.

(** The number written by the [len] digits at position [pos]. *)
Definition field (s : string) (pos len : nat) : Z :=
  match parse_digits (substring pos len s) 0 with
  | Some z => z
  | None => 0
  end.

(** What a date string denotes: the fields of a string in one of the two
    forms, provided they name an existing day and time of day. *)
Definition denotation (s : string) : option datetime :=
  if in_form DATE_RE s then
    if check_date_fields (field s 0 4) (field s 5 2) (field s 8 2)
    then Some (mkdatetime (field s 0 4) (field s 5 2) (field s 8 2) 0 0 0 0)
    else None
  else if in_form DATETIME_RE s then
    if check_date_fields (field s 0 4) (field s 5 2) (field s 8 2)
       && check_time_fields (field s 11 2) (field s 14 2) (field s 17 2) 0
    then Some (mkdatetime (field s 0 4) (field s 5 2) (field s 8 2)
                          (field s 11 2) (field s 14 2) (field s 17 2) 0)
    else None
  else None.

(** The invariant of the objects held in a series: a datetime object
    passed the checks of its constructor. *)
Definition well_formed (v : pyval) : Prop :=
  match v with
  | VDate d => valid d = true
  | _ => True
  end.

Definition earlier (a b : datetime) : datetime :=
  if datetime_le a b then a else b.

Definition later (a b : datetime) : datetime :=
  if datetime_le a b then b else a.

(** The minimum and the maximum of a non-empty list of datetimes. *)
Definition minimum (d : datetime) (l : list datetime) : datetime :=
  fold_left earlier l d.

Definition maximum (d : datetime) (l : list datetime) : datetime :=
  fold_left later l d.

(** One way to complete the unfinished statement of [accumulate]: it
    leaves the map as it is.  Used to run [__init__] on examples. *)
Definition init_example :=
  TemporalAccumulator.init Datatypes.unit (fun _ => [])
    (fun _ _ => false) (fun m _ => Ok m).

(** For every day [n] of a year, [month_day] returns a month, a day of
    that month, and the two add up to [n]. *)
Definition month_day_ok (leapyear : bool) (n : Z) : bool :=
  let '(m, d) := month_day leapyear n in
  (1 <=? m) && (m <=? 12) && (1 <=? d)
  && (d <=? (if (m =? 2) && leapyear then 29 else index DAYS_IN_MONTH m))
  && (index DAYS_BEFORE_MONTH m + b2z ((2 <? m) && leapyear) + d =? n + 1).

(** Midnight of a day of January 2025, for the examples. *)
Definition january (d : Z) : datetime := mkdatetime 2025 1 d 0 0 0 0.

(** ** The grouping that [categorize] is meant to build *)

(** The values of a list in the order of their first occurrence. *)
Fixpoint first_seen (l : list pyval) : list pyval :=
  match l with
  | [] => []
  | x :: l' => x :: filter (fun y => negb (pyval_eqb x y)) (first_seen l')
  end.

(** The first keys of a list of key paths. *)
Definition heads (rows : list (list pyval)) : list pyval :=
  flat_map (fun r => match r with x :: _ => [x] | [] => [] end) rows.

(** The remainders of the key paths that start with [k]. *)
Definition tails_under (k : pyval) (rows : list (list pyval))
  : list (list pyval) :=
  flat_map (fun r =>
              match r with
              | x :: t => if pyval_eqb x k then [t] else []
              | [] => []
              end) rows.

(** The nested grouping of key paths of length [depth]: one key per
    distinct first value, in first-seen order, each holding the grouping
    of the remainders of its paths; below the last level, an empty
    dict. *)
Fixpoint group (depth : nat) (rows : list (list pyval)) : items_t :=
  match depth with
  | O => []
  | S depth' =>
      map (fun k => (k, Dict (group depth' (tails_under k rows))))
          (first_seen (heads rows))
  end.


(** The key path of row [i]: the values of the dimensions at that row. *)
Definition row (catagories : list DataSeries.t) (i : nat) : list pyval :=
  map (fun c => nth i (DataSeries.series c) (VInt 0)) catagories.

(** The key paths of all rows, in row order. *)
Definition rows (catagories : list DataSeries.t) : list (list pyval) :=
  match catagories with
  | [] => []
  | first :: _ => map (row catagories) (seq 0 (DataSeries.len first))
  end.

(** All dimensions have the length of the first one. *)
Definition equal_lengths (catagories : list DataSeries.t) : Prop :=
  match catagories with
  | [] => True
  | first :: others =>
      Forall (fun c => DataSeries.len c = DataSeries.len first) others
  end.

Fixpoint path_eqb (p q : list pyval) : bool :=
  match p, q with
  | [], [] => true
  | x :: p', y :: q' => pyval_eqb x y && path_eqb p' q'
  | _, _ => false
  end.

(** [if k not in d: d[k] = {}] *)
Definition ensure_key (k : pyval) (d : items_t) : items_t :=
  if dict_contains k d then d else dict_set k (Dict []) d.

(** Add the key path [path] to a grouping: create the keys that are
    missing along it. *)
Fixpoint insert_path (path : list pyval) (d : items_t) : items_t :=
  match path with
  | [] => d
  | k :: rest => update_at [k] (insert_path rest) (ensure_key k d)
  end.

(** The grouping obtained by adding the key paths one after the other. *)
Definition insert_all (paths : list (list pyval)) (d : items_t) : items_t :=
  fold_left (fun r p => insert_path p r) paths d.



(** The two dimensions of the example: [a, a, b] and [x, y, x]. *)
Definition example_dimensions : list DataSeries.t :=
  [DataSeries.mk [VStr "a"; VStr "a"; VStr "b"] Categorical;
   DataSeries.mk [VStr "x"; VStr "y"; VStr "x"] Categorical].

(** The units that [Interval.next] accepts. *)
Definition supported (u : TemporalBaseUnits) : bool :=
  match u with
  | OtherUnit _ => false
  | _ => true
  end.

(** The time of day of a datetime, in microseconds after midnight. *)
Definition time_of_day (d : datetime) : Z :=
  ((hour d * 60 + minute d) * 60 + second d) * US_PER_SECOND + microsecond d.

(** The character of a decimal digit. *)
Definition digit_char (k : Z) : ascii := ascii_of_nat (48 + Z.to_nat (k mod 10)).

Definition two_digits (n : Z) : string :=
  String (digit_char (n / 10)) (String (digit_char n) EmptyString).

Definition four_digits (n : Z) : string :=
  String (digit_char (n / 1000))
    (String (digit_char (n / 100)) (two_digits n)).

(** The text YYYY-MM-DD of a date, as [date.isoformat()] writes it. *)
Definition isoformat_date (d : datetime) : string :=
  (four_digits (year d) ++ "-" ++ two_digits (month d) ++ "-"
   ++ two_digits (day d))%string.

(** The time of day HH:MM:SS. *)
Definition isoformat_time (d : datetime) : string :=
  (two_digits (hour d) ++ ":" ++ two_digits (minute d) ++ ":"
   ++ two_digits (second d))%string.

(** The text of a datetime without microseconds, with the separator
    [sep] between date and time: [datetime.isoformat()] uses ["T"],
    [str()] a blank. *)
Definition isoformat (sep : string) (d : datetime) : string :=
  (isoformat_date d ++ sep ++ isoformat_time d)%string.

(** Every dimension after the first is at least as long as the first. *)
Definition long_enough (first : DataSeries.t) (others : list DataSeries.t)
  : bool :=
  forallb (fun c => (DataSeries.len first <=? DataSeries.len c)%nat) others.

(** The exception that [replace] raises for a year outside 1..9999:
    [ValueError] from the check of the fields, unless the year does not
    even fit a C [int]. *)
Definition year_error (y : Z) : exn :=
  if fits_int y then ValueError else OverflowError.

(** The day of month of [d] exists in the month that one step of [iv]
    reaches, so that the step keeps it.  A step of fixed duration never
    changes a day of month by clamping. *)
Definition unclamped (iv : Interval.t) (d : datetime) : bool :=
  match Interval.unit iv with
  | Months =>
      let t := month d - 1 + Interval.scalar iv in
      day d <=? days_in_month (year d + t / 12) (t mod 12 + 1)
  | Years => day d <=? days_in_month (year d + Interval.scalar iv) (month d)
  | _ => true
  end.

(** The length of a list that CPython holds is a [Py_ssize_t]. *)
Definition storable (self : DataSeries.t) : Prop :=
  Z.of_nat (DataSeries.len self) <= PY_SSIZE_T_MAX.

(* ================================================================== *)
(** * Proofs: the Gregorian calendar of the [datetime] library *)

Ltac bool_to_prop :=
  repeat match goal with
  | H : _ && _ = true |- _ => apply andb_true_iff in H; destruct H
  | H : _ || _ = false |- _ => apply orb_false_iff in H; destruct H
  | H : negb _ = true |- _ => apply negb_true_iff in H
  | H : negb _ = false |- _ => apply negb_false_iff in H
  | H : (_ <=? _) = true |- _ => apply Z.leb_le in H
  | H : (_ <=? _) = false |- _ => apply Z.leb_gt in H
  | H : (_ <? _) = true |- _ => apply Z.ltb_lt in H
  | H : (_ <? _) = false |- _ => apply Z.ltb_ge in H
  | H : (_ =? _) = true |- _ => apply Z.eqb_eq in H
  | H : (_ =? _) = false |- _ => apply Z.eqb_neq in H
  end.

(** Linear arithmetic with division and remainder by constants. *)
Ltac zdm := Z.div_mod_to_equations; lia.

Lemma is_leap_true (y : Z) :
  is_leap y = true <-> y mod 4 = 0 /\ (y mod 100 <> 0 \/ y mod 400 = 0).
Proof.
  unfold is_leap.
  rewrite andb_true_iff, orb_true_iff, negb_true_iff.
  rewrite !Z.eqb_eq, Z.eqb_neq. tauto.
Qed.

Lemma is_leap_false (y : Z) :
  is_leap y = false <-> y mod 4 <> 0 \/ (y mod 100 = 0 /\ y mod 400 <> 0).
Proof.
  unfold is_leap.
  rewrite andb_false_iff, orb_false_iff, negb_false_iff.
  rewrite !Z.eqb_neq, Z.eqb_eq. tauto.
Qed.

(** The leap-year expression written in [Interval.next] is the
    library's [_is_leap]. *)
Lemma source_leap_rule (y : Z) :
  ((y mod 4 =? 0) && negb (y mod 100 =? 0)) || (y mod 400 =? 0) = is_leap y.
Proof.
  unfold is_leap.
  destruct (y mod 4 =? 0) eqn:E4, (y mod 100 =? 0) eqn:E100,
           (y mod 400 =? 0) eqn:E400; try reflexivity;
    bool_to_prop; exfalso; zdm.
Qed.

Lemma days_before_year_succ (y : Z) :
  days_before_year (y + 1) = days_before_year y + 365 + b2z (is_leap y).
Proof.
  unfold days_before_year, b2z.
  replace (y + 1 - 1) with y by lia.
  destruct (is_leap y) eqn:L.
  - apply is_leap_true in L. zdm.
  - apply is_leap_false in L. zdm.
Qed.

Lemma days_before_year_bounds (y1 k : Z) :
  0 <= k ->
  days_before_year y1 + 365 * k <= days_before_year (y1 + k)
  /\ days_before_year (y1 + k) <= days_before_year y1 + 366 * k.
Proof.
  intros Hk. revert k Hk.
  apply (natlike_ind (fun k =>
    days_before_year y1 + 365 * k <= days_before_year (y1 + k)
    /\ days_before_year (y1 + k) <= days_before_year y1 + 366 * k)).
  - replace (y1 + 0) with y1 by lia. lia.
  - intros k Hk [IH1 IH2].
    replace (y1 + Z.succ k) with (y1 + k + 1) by lia.
    rewrite days_before_year_succ.
    unfold b2z. destruct (is_leap (y1 + k)); lia.
Qed.

Lemma days_before_year_mono (y1 y2 : Z) :
  y1 < y2 -> days_before_year (y1 + 1) <= days_before_year y2.
Proof.
  intros H.
  destruct (days_before_year_bounds (y1 + 1) (y2 - (y1 + 1))) as [B _];
    [lia|].
  replace (y1 + 1 + (y2 - (y1 + 1))) with y2 in B by lia. lia.
Qed.

(** Evaluate table lookups and tests on literal months. *)
Ltac tables :=
  repeat match goal with
  | |- context [index ?T (Zpos ?p)] =>
      let v := eval vm_compute in (index T (Zpos p)) in
      change (index T (Zpos p)) with v
  | |- context [Zpos ?p =? Zpos ?q] =>
      let v := eval vm_compute in (Zpos p =? Zpos q) in
      change (Zpos p =? Zpos q) with v
  | |- context [Zpos ?p <? Zpos ?q] =>
      let v := eval vm_compute in (Zpos p <? Zpos q) in
      change (Zpos p <? Zpos q) with v
  end;
  cbn [andb orb negb b2z].

Ltac split_month m :=
  let Hm := fresh "Hm" in
  assert (m = 1 \/ m = 2 \/ m = 3 \/ m = 4 \/ m = 5 \/ m = 6 \/ m = 7
          \/ m = 8 \/ m = 9 \/ m = 10 \/ m = 11 \/ m = 12) as Hm by lia;
  repeat (destruct Hm as [Hm | Hm]; [subst m | ]); [.. | subst m].

Lemma days_in_month_range (y m : Z) :
  1 <= m <= 12 -> 28 <= days_in_month y m <= 31.
Proof.
  intros H. unfold days_in_month.
  split_month m; destruct (is_leap y); tables; lia.
Qed.

Lemma days_before_month_succ (y m : Z) :
  1 <= m < 12 ->
  days_before_month y (m + 1) = days_before_month y m + days_in_month y m.
Proof.
  intros H. unfold days_before_month, days_in_month.
  split_month m; try lia; destruct (is_leap y); reflexivity.
Qed.

Lemma days_before_month_mono (y m1 m2 : Z) :
  1 <= m1 -> m1 < m2 -> m2 <= 12 ->
  days_before_month y m1 + days_in_month y m1 <= days_before_month y m2.
Proof.
  intros H1 H12 H2.
  unfold days_before_month, days_in_month.
  split_month m1; split_month m2; try lia; destruct (is_leap y); tables; lia.
Qed.

Lemma days_before_month_range (y m : Z) :
  1 <= m <= 12 ->
  0 <= days_before_month y m
  /\ days_before_month y m + days_in_month y m <= 365 + b2z (is_leap y).
Proof.
  intros H. unfold days_before_month, days_in_month.
  split_month m; destruct (is_leap y); tables; lia.
Qed.

(** Bounded universal statements over [Z] decided by enumeration. *)
Lemma forall_below (P : Z -> bool) (n : nat) :
  forallb P (map Z.of_nat (seq 0 n)) = true ->
  forall z, 0 <= z < Z.of_nat n -> P z = true.
Proof.
  intros H z Hz.
  rewrite forallb_forall in H. apply H.
  apply in_map_iff. exists (Z.to_nat z). split; [lia|].
  apply in_seq. lia.
Qed.

Lemma month_day_spec (y n : Z) :
  0 <= n < 365 + b2z (is_leap y) ->
  let '(m, d) := month_day (is_leap y) n in
  1 <= m <= 12 /\ 1 <= d <= days_in_month y m
  /\ days_before_month y m + d = n + 1.
Proof.
  intros Hn.
  assert (K : month_day_ok (is_leap y) n = true).
  { destruct (is_leap y); cbn [b2z] in Hn.
    - apply (forall_below (month_day_ok true) 366); [vm_compute; reflexivity|].
      lia.
    - apply (forall_below (month_day_ok false) 365); [vm_compute; reflexivity|].
      lia. }
  unfold month_day_ok in K.
  destruct (month_day (is_leap y) n) as [m d].
  unfold days_in_month, days_before_month.
  bool_to_prop. lia.
Qed.

(** Years counted in cycles of 400, 100, 4 and 1: the invariant behind
    the divisions of [ord2ymd]. *)
Lemma year_decomposition (q n100 n4 n1 : Z) :
  0 <= n100 <= 3 -> 0 <= n4 <= 24 -> 0 <= n1 <= 3 ->
  let y := q * 400 + 1 + (n100 * 100 + n4 * 4 + n1) in
  days_before_year y = DI400Y * q + DI100Y * n100 + DI4Y * n4 + 365 * n1
  /\ is_leap y = (n1 =? 3) && (negb (n4 =? 24) || (n100 =? 3)).
Proof.
  intros H100 H4 H1 y. subst y. split.
  - unfold days_before_year, DI400Y, DI100Y, DI4Y. zdm.
  - destruct ((n1 =? 3) && (negb (n4 =? 24) || (n100 =? 3))) eqn:E.
    + apply is_leap_true.
      apply andb_true_iff in E. destruct E as [E1 E2].
      apply orb_true_iff in E2. rewrite negb_true_iff in E2.
      bool_to_prop. destruct E2; bool_to_prop; zdm.
    + apply is_leap_false.
      apply andb_false_iff in E.
      rewrite orb_false_iff, negb_false_iff in E.
      destruct E as [E | [E1 E2]]; bool_to_prop; zdm.
Qed.

Lemma ord2ymd_spec (n : Z) :
  let '(y, m, d) := ord2ymd n in
  1 <= m <= 12 /\ 1 <= d <= days_in_month y m /\ ymd2ord y m d = n.
Proof.
  unfold ord2ymd.
  set (q := (n - 1) / DI400Y).
  set (r := (n - 1) mod DI400Y).
  set (n100 := r / DI100Y).
  set (r2 := r mod DI100Y).
  set (n4 := r2 / DI4Y).
  set (r3 := r2 mod DI4Y).
  set (n1 := r3 / 365).
  set (r4 := r3 mod 365).
  assert (Hn : n - 1 = DI400Y * q + DI100Y * n100 + DI4Y * n4 + 365 * n1 + r4
               /\ 0 <= n100 <= 4 /\ 0 <= n4 <= 24 /\ 0 <= n1 <= 4
               /\ 0 <= r4 < 365
               /\ (n100 = 4 -> n4 = 0 /\ n1 = 0 /\ r4 = 0)
               /\ (n1 = 4 -> n4 <> 24 /\ r4 = 0)).
  { subst q r n100 r2 n4 r3 n1 r4. unfold DI400Y, DI100Y, DI4Y. zdm. }
  destruct Hn as (Hn & H100 & H4 & H1 & Hr4 & S100 & S1).
  clearbody q r n100 r2 n4 r3 n1 r4.
  destruct ((n1 =? 4) || (n100 =? 4)) eqn:Special.
  - (* 31 December that ends a cycle of 4 or of 400 years *)
    apply orb_true_iff in Special.
    assert (Y : exists a b, q * 400 + 1 + (n100 * 100 + n4 * 4 + n1) - 1
                            = q * 400 + 1 + (a * 100 + b * 4 + 3)
                            /\ 0 <= a <= 3 /\ 0 <= b <= 24
                            /\ (b <> 24 \/ a = 3)
                            /\ DI100Y * n100 + DI4Y * n4 + 365 * n1
                               = DI100Y * a + DI4Y * b + 365 * 4).
    { destruct (Z.eq_dec n100 4) as [E | E].
      - exists 3, 24. destruct (S100 E) as (-> & -> & _). subst n100.
        unfold DI100Y, DI4Y. lia.
      - exists n100, n4. destruct Special as [E1 | E1]; bool_to_prop; [|lia].
        destruct (S1 E1) as [N4 _]. lia. }
    destruct Y as (a & b & -> & Ha & Hb & Hleap & Hsum).
    destruct (year_decomposition q a b 3) as [D L]; try lia.
    cbv zeta in D, L.
    assert (L' : is_leap (q * 400 + 1 + (a * 100 + b * 4 + 3)) = true).
    { rewrite L. apply andb_true_iff. split; [reflexivity|].
      apply orb_true_iff. rewrite negb_true_iff, Z.eqb_neq, Z.eqb_eq. lia. }
    unfold ymd2ord, days_in_month, days_before_month.
    rewrite D, L'. tables.
    assert (r4 = 0) by (destruct Special; bool_to_prop; intuition lia).
    lia.
  - apply orb_false_iff in Special. destruct Special as [N1 N100].
    bool_to_prop.
    destruct (year_decomposition q n100 n4 n1) as [D L]; try lia.
    cbv zeta in D, L. rewrite <- L.
    set (y := q * 400 + 1 + (n100 * 100 + n4 * 4 + n1)) in *.
    pose proof (month_day_spec y r4) as M.
    destruct (month_day (is_leap y) r4) as [m d].
    destruct M as (Hm & Hd & Hsum).
    { unfold b2z. destruct (is_leap y); lia. }
    unfold ymd2ord. rewrite D. repeat split; lia.
Qed.

Lemma check_date_fields_iff (y m d : Z) :
  check_date_fields y m d = true <->
  1 <= y <= 9999 /\ 1 <= m <= 12 /\ 1 <= d <= days_in_month y m.
Proof.
  unfold check_date_fields, MINYEAR, MAXYEAR.
  rewrite !andb_true_iff, !Z.leb_le. tauto.
Qed.

Lemma check_time_fields_iff (h mi s us : Z) :
  check_time_fields h mi s us = true <->
  0 <= h <= 23 /\ 0 <= mi <= 59 /\ 0 <= s <= 59 /\ 0 <= us <= 999999.
Proof.
  unfold check_time_fields.
  rewrite !andb_true_iff, !Z.leb_le. tauto.
Qed.

Lemma valid_iff (d : datetime) :
  valid d = true <->
  (1 <= year d <= 9999 /\ 1 <= month d <= 12
   /\ 1 <= day d <= days_in_month (year d) (month d))
  /\ (0 <= hour d <= 23 /\ 0 <= minute d <= 59 /\ 0 <= second d <= 59
      /\ 0 <= microsecond d <= 999999).
Proof.
  unfold valid.
  rewrite andb_true_iff, check_date_fields_iff, check_time_fields_iff.
  tauto.
Qed.

(** Within a year, the day number of a date lies between 1 and the length
    of the year. *)
Lemma day_of_year_range (y m d : Z) :
  1 <= m <= 12 -> 1 <= d <= days_in_month y m ->
  1 <= days_before_month y m + d <= 365 + b2z (is_leap y).
Proof.
  intros Hm Hd. pose proof (days_before_month_range y m Hm). lia.
Qed.

(** [ymd2ord] is strictly increasing for the lexicographic order of
    dates. *)
Lemma ymd2ord_lex (y1 m1 d1 y2 m2 d2 : Z) :
  1 <= m1 <= 12 -> 1 <= d1 <= days_in_month y1 m1 ->
  1 <= m2 <= 12 -> 1 <= d2 <= days_in_month y2 m2 ->
  y1 < y2 \/ (y1 = y2 /\ (m1 < m2 \/ (m1 = m2 /\ d1 < d2))) ->
  ymd2ord y1 m1 d1 < ymd2ord y2 m2 d2.
Proof.
  intros Hm1 Hd1 Hm2 Hd2 H. unfold ymd2ord.
  pose proof (day_of_year_range y1 m1 d1 Hm1 Hd1) as R1.
  pose proof (day_of_year_range y2 m2 d2 Hm2 Hd2) as R2.
  destruct H as [Hy | [-> [Hm | [-> Hd]]]].
  - pose proof (days_before_year_mono y1 y2 Hy) as M.
    rewrite days_before_year_succ in M. lia.
  - pose proof (days_before_month_mono y2 m1 m2). lia.
  - lia.
Qed.

Lemma ymd2ord_range (y m d : Z) :
  check_date_fields y m d = true -> 1 <= ymd2ord y m d <= MAXORDINAL.
Proof.
  rewrite check_date_fields_iff. intros (Hy & Hm & Hd).
  pose proof (day_of_year_range y m d Hm Hd) as R.
  destruct (days_before_year_bounds 1 (y - 1)) as [L _]; [lia|].
  replace (1 + (y - 1)) with y in L by lia.
  destruct (days_before_year_bounds (y + 1) (10000 - (y + 1))) as [U _];
    [lia|].
  replace (y + 1 + (10000 - (y + 1))) with 10000 in U by lia.
  rewrite days_before_year_succ in U.
  change (days_before_year 1) with 0 in L.
  change (days_before_year 10000) with 3652059 in U.
  unfold ymd2ord, MAXORDINAL. lia.
Qed.

(** A date outside the years 1..9999 has an ordinal outside
    1..[MAXORDINAL]. *)
Lemma ymd2ord_year_range (y m d : Z) :
  1 <= m <= 12 -> 1 <= d <= days_in_month y m ->
  1 <= ymd2ord y m d <= MAXORDINAL -> 1 <= y <= 9999.
Proof.
  intros Hm Hd Ho.
  pose proof (day_of_year_range y m d Hm Hd) as R.
  unfold ymd2ord, MAXORDINAL in Ho.
  split.
  - destruct (Z_lt_le_dec y 1) as [Lt | ]; [|assumption].
    pose proof (days_before_year_mono y 1 Lt) as M.
    rewrite days_before_year_succ in M.
    change (days_before_year 1) with 0 in M. lia.
  - destruct (Z_lt_le_dec 9999 y) as [Lt | ]; [|assumption].
    pose proof (days_before_year_mono 9999 y Lt) as M.
    change (days_before_year (9999 + 1)) with 3652059 in M. lia.
Qed.

Lemma toordinal_range (d : datetime) :
  valid d = true -> 1 <= toordinal d <= MAXORDINAL.
Proof.
  unfold valid. intros H. apply andb_true_iff in H. destruct H as [H _].
  apply ymd2ord_range. assumption.
Qed.

(** The time of day of a valid datetime is less than a day. *)
Lemma to_us_decompose (d : datetime) :
  valid d = true ->
  exists tod, to_us d = toordinal d * US_PER_DAY + tod
              /\ 0 <= tod < US_PER_DAY.
Proof.
  rewrite valid_iff. intros [_ (Hh & Hm & Hs & Hu)].
  exists (((hour d * 60 + minute d) * 60 + second d) * US_PER_SECOND
          + microsecond d).
  unfold to_us, US_PER_DAY, US_PER_SECOND. lia.
Qed.

Lemma to_us_div (d : datetime) :
  valid d = true -> to_us d / US_PER_DAY = toordinal d.
Proof.
  intros H. destruct (to_us_decompose d H) as (tod & -> & Htod).
  unfold US_PER_DAY, US_PER_SECOND in *. zdm.
Qed.

(** ** Comparison of datetimes is comparison of positions *)

Lemma datetime_compare_to_us (a b : datetime) :
  valid a = true -> valid b = true ->
  datetime_compare a b = (to_us a ?= to_us b).
Proof.
  intros Va Vb.
  pose proof Va as Va'. pose proof Vb as Vb'.
  apply valid_iff in Va'. apply valid_iff in Vb'.
  destruct Va' as [(Hya & Hma & Hda) (Hha & Hmia & Hsa & Husa)].
  destruct Vb' as [(Hyb & Hmb & Hdb) (Hhb & Hmib & Hsb & Husb)].
  assert (Dlt : forall x y : datetime,
             1 <= month x <= 12 -> 1 <= day x <= days_in_month (year x) (month x) ->
             1 <= month y <= 12 -> 1 <= day y <= days_in_month (year y) (month y) ->
             year x < year y
             \/ (year x = year y
                 /\ (month x < month y \/ (month x = month y /\ day x < day y))) ->
             toordinal x + 1 <= toordinal y).
  { intros x y ? ? ? ? ?.
    pose proof (ymd2ord_lex (year x) (month x) (day x)
                            (year y) (month y) (day y)).
    unfold toordinal. lia. }
  pose proof (Dlt a b Hma Hda Hmb Hdb) as Lab.
  pose proof (Dlt b a Hmb Hdb Hma Hda) as Lba.
  assert (Deq : year a = year b -> month a = month b -> day a = day b ->
                toordinal a = toordinal b).
  { unfold toordinal. intros -> -> ->. reflexivity. }
  unfold to_us, US_PER_DAY, US_PER_SECOND.
  set (oa := toordinal a) in *. set (ob := toordinal b) in *.
  clearbody oa ob.
  unfold datetime_compare, fields, lex_compare.
  symmetry.
  repeat match goal with
  | |- context [?x ?= ?y] =>
      lazymatch x with
      | context [ oa ] => fail
      | _ => destruct (Z.compare_spec x y)
      end
  end;
  first [ apply Z.compare_eq_iff | apply Z.compare_lt_iff
        | apply Z.compare_gt_iff ]; lia.
Qed.

Lemma datetime_lt_to_us (a b : datetime) :
  valid a = true -> valid b = true ->
  (datetime_lt a b = true <-> to_us a < to_us b).
Proof.
  intros Va Vb. unfold datetime_lt.
  rewrite (datetime_compare_to_us a b Va Vb).
  destruct (Z.compare_spec (to_us a) (to_us b)); split;
    intros; try discriminate; try reflexivity; lia.
Qed.

Lemma datetime_le_to_us (a b : datetime) :
  valid a = true -> valid b = true ->
  (datetime_le a b = true <-> to_us a <= to_us b).
Proof.
  intros Va Vb. unfold datetime_le.
  rewrite (datetime_compare_to_us a b Va Vb).
  destruct (Z.compare_spec (to_us a) (to_us b)); split;
    intros; try discriminate; try reflexivity; lia.
Qed.

(** ** Addition of a timedelta moves the position by its length *)

Lemma of_us_spec (u : Z) :
  representable u = true -> valid (of_us u) = true /\ to_us (of_us u) = u.
Proof.
  unfold representable. intros R. bool_to_prop.
  unfold of_us.
  pose proof (ord2ymd_spec (u / US_PER_DAY)) as S.
  destruct (ord2ymd (u / US_PER_DAY)) as [[y m] d].
  destruct S as (Hm & Hd & Ho).
  pose proof (ymd2ord_year_range y m d Hm Hd) as Hy.
  rewrite Ho in Hy.
  assert (Hy' : 1 <= y <= 9999) by (apply Hy; lia). clear Hy.
  split.
  - apply valid_iff. cbn [year month day hour minute second microsecond].
    unfold US_PER_DAY, US_PER_SECOND. repeat split; try lia; zdm.
  - unfold to_us, toordinal.
    cbn [year month day hour minute second microsecond].
    rewrite Ho. unfold US_PER_DAY, US_PER_SECOND. zdm.
Qed.

Lemma datetime_add_spec (d : datetime) (td : timedelta) :
  valid d = true ->
  datetime_add d td =
    if representable (to_us d + total_us td)
    then Ok (of_us (to_us d + total_us td))
    else Raise OverflowError.
Proof.
  intros V.
  pose proof (toordinal_range d V) as Ho.
  pose proof (to_us_div d V) as Hdiv.
  unfold datetime_add, timedelta_new, timedelta_of_us.
  replace (((((0 * 7 + toordinal d) * 24 + hour d) * 60 + minute d) * 60
            + second d) * US_PER_SECOND + 0 * 1000 + microsecond d)
    with (to_us d)
    by (unfold to_us, US_PER_DAY, US_PER_SECOND; lia).
  rewrite Hdiv.
  destruct (Z.abs (toordinal d) <=? 999999999) eqn:C0;
    [|unfold MAXORDINAL in Ho; bool_to_prop; lia].
  cbn [bind total_us].
  unfold representable, of_us, td_days, td_seconds, td_microseconds.
  set (u := to_us d + total_us td).
  destruct (Z.abs (u / US_PER_DAY) <=? 999999999) eqn:C1; cbn [bind total_us].
  - destruct ((0 <? u / US_PER_DAY) && (u / US_PER_DAY <=? MAXORDINAL));
      [|reflexivity].
    destruct (ord2ymd (u / US_PER_DAY)) as [[y m] dd]. reflexivity.
  - destruct ((0 <? u / US_PER_DAY) && (u / US_PER_DAY <=? MAXORDINAL)) eqn:C2;
      [|reflexivity].
    unfold MAXORDINAL in C2. bool_to_prop. lia.
Qed.

(* ================================================================== *)
(** * Proofs: Interval.next *)

Lemma spec_leap_year_is_leap (y : Z) : spec_leap_year y = is_leap y.
Proof.
  unfold spec_leap_year, is_leap.
  destruct (y mod 4 =? 0) eqn:E4, (y mod 100 =? 0) eqn:E100,
           (y mod 400 =? 0) eqn:E400; try reflexivity;
    bool_to_prop; exfalso; zdm.
Qed.

Lemma spec_last_day_days_in_month (y m : Z) :
  1 <= m <= 12 -> spec_last_day y m = days_in_month y m.
Proof.
  intros H. unfold spec_last_day, days_in_month.
  rewrite spec_leap_year_is_leap.
  split_month m; destruct (is_leap y); reflexivity.
Qed.

(** The table written in [next] holds the month lengths of the
    library. *)
Lemma month_lengths_days_in_month (y m : Z) :
  1 <= m <= 12 ->
  index (Interval.month_lengths y) (m - 1) = days_in_month y m.
Proof.
  intros H. unfold Interval.month_lengths, days_in_month.
  rewrite source_leap_rule.
  split_month m; destruct (is_leap y); reflexivity.
Qed.

(** The steps of fixed duration: the datetime moves by [scalar] times
    the length of the unit, or the addition overflows. *)
Lemma next_fixed_duration (u : TemporalBaseUnits) (k s : Z) (d : datetime) :
  unit_us u = Some k -> valid d = true ->
  Interval.next (Interval.mk u s) d =
    if (Z.abs (s * k / US_PER_DAY) <=? 999999999)
       && representable (to_us d + s * k)
    then Ok (of_us (to_us d + s * k))
    else Raise OverflowError.
Proof.
  intros Hu V.
  assert (E : forall a b c e f g h : Z,
             (((((h * 7 + a) * 24 + g) * 60 + f) * 60 + b) * US_PER_SECOND
              + e * 1000 + c = s * k) ->
             (td <- timedelta_new a b c e f g h ;; datetime_add d td) =
             if (Z.abs (s * k / US_PER_DAY) <=? 999999999)
                && representable (to_us d + s * k)
             then Ok (of_us (to_us d + s * k))
             else Raise OverflowError).
  { intros a b c e f g h Heq.
    unfold timedelta_new, timedelta_of_us. rewrite Heq.
    destruct (Z.abs (s * k / US_PER_DAY) <=? 999999999); cbn [bind andb].
    - rewrite (datetime_add_spec d _ V). reflexivity.
    - reflexivity. }
  unfold Interval.next. cbn [Interval.unit Interval.scalar].
  destruct u; cbn in Hu; inversion Hu; subst k; apply E;
    unfold US_PER_DAY, US_PER_SECOND; lia.
Qed.

Lemma days_in_february (y : Z) :
  days_in_month y 2 = if is_leap y then 29 else 28.
Proof.
  unfold days_in_month. destruct (is_leap y); reflexivity.
Qed.

Lemma fits_int_small (z : Z) :
  -2147483648 <= z <= 2147483647 -> fits_int z = true.
Proof.
  intros H. unfold fits_int, INT_MIN, INT_MAX.
  apply andb_true_iff. rewrite !Z.leb_le. exact H.
Qed.

Lemma fits_int_iff (z : Z) :
  fits_int z = true <-> -2147483648 <= z <= 2147483647.
Proof.
  unfold fits_int, INT_MIN, INT_MAX.
  rewrite andb_true_iff, !Z.leb_le. tauto.
Qed.

Lemma outside_int_outside_years (y : Z) :
  fits_int y = false -> (1 <=? y) && (y <=? 9999) = false.
Proof.
  intros F. destruct ((1 <=? y) && (y <=? 9999)) eqn:C; [|reflexivity].
  bool_to_prop. rewrite fits_int_small in F by lia. discriminate.
Qed.

(** The month step: target year and month by carrying, day clamped to
    the length of the target month. *)
Lemma next_months (s : Z) (d : datetime) :
  valid d = true ->
  let t := month d - 1 + s in
  let y' := year d + t / 12 in
  let m' := t mod 12 + 1 in
  Interval.next (Interval.mk Months s) d =
    if (1 <=? y') && (y' <=? 9999)
    then Ok (mkdatetime y' m' (Z.min (day d) (days_in_month y' m'))
                        (hour d) (minute d) (second d) (microsecond d))
    else Raise (year_error y').
Proof.
  intros V t y' m'.
  apply valid_iff in V. destruct V as [(Hy & Hm & Hd) Ht].
  assert (Hm' : 1 <= m' <= 12) by (subst m'; zdm).
  unfold Interval.next. cbn [Interval.unit Interval.scalar].
  fold t. fold y'. fold m'.
  rewrite (month_lengths_days_in_month y' m' Hm').
  pose proof (days_in_month_range y' m' Hm') as R.
  unfold replace, year_error.
  rewrite (fits_int_small m') by lia.
  rewrite (fits_int_small (Z.min (day d) (days_in_month y' m'))) by lia.
  rewrite !andb_true_r.
  destruct (fits_int y') eqn:Fy;
    [|rewrite (outside_int_outside_years y' Fy); reflexivity].
  unfold datetime_new.
  destruct (check_date_fields y' m' (Z.min (day d) (days_in_month y' m')))
    eqn:C.
  - apply check_date_fields_iff in C.
    replace ((1 <=? y') && (y' <=? 9999)) with true
      by (symmetry; apply andb_true_iff; rewrite !Z.leb_le; lia).
    replace (check_time_fields (hour d) (minute d) (second d) (microsecond d))
      with true by (symmetry; apply check_time_fields_iff; exact Ht).
    reflexivity.
  - destruct ((1 <=? y') && (y' <=? 9999)) eqn:Y; [|reflexivity].
    bool_to_prop.
    assert (C' : check_date_fields y' m' (Z.min (day d) (days_in_month y' m'))
                 = true) by (apply check_date_fields_iff; lia).
    congruence.
Qed.

(** The year step: the same month and day in the target year, except
    that 29 February becomes 28 February in a target year that is not a
    leap year. *)
Lemma next_years (s : Z) (d : datetime) :
  valid d = true ->
  let y' := year d + s in
  Interval.next (Interval.mk Years s) d =
    if (1 <=? y') && (y' <=? 9999)
    then
      if (month d =? 2) && (day d =? 29) && negb (is_leap y')
      then Ok (mkdatetime y' 2 28
                          (hour d) (minute d) (second d) (microsecond d))
      else Ok (mkdatetime y' (month d) (day d)
                          (hour d) (minute d) (second d) (microsecond d))
    else Raise (year_error y').
Proof.
  intros V y'.
  apply valid_iff in V. destruct V as [(Hy & Hm & Hd) Ht].
  unfold Interval.next. cbn [Interval.unit Interval.scalar]. fold y'.
  pose proof (days_in_month_range (year d) (month d) Hm) as R.
  unfold replace, year_error.
  rewrite (fits_int_small (month d)) by lia.
  rewrite (fits_int_small (day d)) by lia.
  rewrite (fits_int_small 2) by lia.
  rewrite (fits_int_small 28) by lia.
  rewrite !andb_true_r.
  destruct (fits_int y') eqn:Fy;
    [|rewrite (outside_int_outside_years y' Fy); reflexivity].
  unfold datetime_new.
  replace (check_time_fields (hour d) (minute d) (second d) (microsecond d))
    with true by (symmetry; apply check_time_fields_iff; exact Ht).
  assert (F : forall m dd, check_date_fields y' m dd =
                ((1 <=? y') && (y' <=? 9999))
                && ((1 <=? m) && (m <=? 12) && (1 <=? dd)
                    && (dd <=? days_in_month y' m))).
  { intros. unfold check_date_fields, MINYEAR, MAXYEAR.
    rewrite !andb_assoc. reflexivity. }
  rewrite !F.
  destruct ((1 <=? y') && (y' <=? 9999)); cbn [andb try_except_ValueError];
    [|reflexivity].
  assert (D28 : (1 <=? 2) && (2 <=? 12) && (1 <=? 28)
                && (28 <=? days_in_month y' 2) = true).
  { unfold days_in_month. destruct (is_leap y'); reflexivity. }
  rewrite D28.
  destruct ((month d =? 2) && (day d =? 29) && negb (is_leap y')) eqn:Clamp.
  - bool_to_prop.
    replace ((1 <=? month d) && (month d <=? 12) && (1 <=? day d)
             && (day d <=? days_in_month y' (month d))) with false;
      [reflexivity|].
    symmetry. rewrite H, H1. unfold days_in_month. rewrite H0. reflexivity.
  - replace ((1 <=? month d) && (month d <=? 12) && (1 <=? day d)
             && (day d <=? days_in_month y' (month d))) with true;
      [reflexivity|].
    symmetry. rewrite !andb_true_iff, !Z.leb_le.
    repeat split; try lia.
    unfold days_in_month in *.
    destruct (month d =? 2) eqn:M2; cbn [andb] in *.
    + destruct (is_leap y') eqn:L'; destruct (is_leap (year d)) eqn:L;
        cbn [negb andb] in *; bool_to_prop; rewrite ?M2 in *;
        tables; revert Hd; tables; lia.
    + exact (proj2 Hd).
Qed.

Lemma lex_compare_merge (a b a' b' : Z) (l l' : list Z) :
  1 <= b <= 12 -> 1 <= b' <= 12 ->
  lex_compare (a :: b :: l) (a' :: b' :: l')
  = lex_compare (12 * a + b :: l) (12 * a' + b' :: l').
Proof.
  intros Hb Hb'. cbn [lex_compare].
  destruct (Z.compare_spec a a'), (Z.compare_spec b b'),
           (Z.compare_spec (12 * a + b) (12 * a' + b'));
    try reflexivity; exfalso; lia.
Qed.

Lemma lex_compare_shift (s a a' : Z) (l l' : list Z) :
  lex_compare (a + s :: l) (a' + s :: l') = lex_compare (a :: l) (a' :: l').
Proof.
  cbn [lex_compare].
  rewrite (Z.add_comm a s), (Z.add_comm a' s), Z.add_compare_mono_l.
  reflexivity.
Qed.

Lemma next_fixed_monotonic (u : TemporalBaseUnits) (s : Z) :
  fixed_duration u = true -> strictly_monotonic (Interval.mk u s).
Proof.
  unfold fixed_duration. destruct (unit_us u) as [k|] eqn:Hu; [|discriminate].
  intros _ d1 d2 r1 r2 V1 V2 _ _ Hlt N1 N2.
  rewrite (next_fixed_duration u k s d1 Hu V1) in N1.
  rewrite (next_fixed_duration u k s d2 Hu V2) in N2.
  destruct (Z.abs (s * k / US_PER_DAY) <=? 999999999); [|discriminate].
  cbn [andb] in N1, N2.
  destruct (representable (to_us d1 + s * k)) eqn:R1; [|discriminate].
  destruct (representable (to_us d2 + s * k)) eqn:R2; [|discriminate].
  inversion N1; inversion N2; subst r1 r2.
  destruct (of_us_spec _ R1) as [W1 E1].
  destruct (of_us_spec _ R2) as [W2 E2].
  apply (datetime_lt_to_us _ _ W1 W2). rewrite E1, E2.
  apply (datetime_lt_to_us _ _ V1 V2) in Hlt. lia.
Qed.

(** The month step, for a pair of dates of which the later one keeps
    its day of month. *)
Lemma next_months_monotonic (s : Z) (d1 d2 r1 r2 : datetime) :
  valid d1 = true -> valid d2 = true ->
  unclamped (Interval.mk Months s) d2 = true ->
  datetime_lt d1 d2 = true ->
  Interval.next (Interval.mk Months s) d1 = Ok r1 ->
  Interval.next (Interval.mk Months s) d2 = Ok r2 ->
  datetime_lt r1 r2 = true.
Proof.
  intros V1 V2 U2 Hlt N1 N2.
  rewrite (next_months s d1 V1) in N1. rewrite (next_months s d2 V2) in N2.
  unfold unclamped in U2. cbn [Interval.unit Interval.scalar] in U2.
  cbv zeta in N1, N2, U2.
  set (t1 := month d1 - 1 + s) in *. set (t2 := month d2 - 1 + s) in *.
  destruct ((1 <=? year d1 + t1 / 12) && (year d1 + t1 / 12 <=? 9999));
    [|discriminate].
  destruct ((1 <=? year d2 + t2 / 12) && (year d2 + t2 / 12 <=? 9999));
    [|discriminate].
  inversion N1; inversion N2; subst r1 r2. clear N1 N2.
  apply Z.leb_le in U2.
  apply valid_iff in V1. apply valid_iff in V2.
  destruct V1 as [(Hy1 & Hm1 & Hd1) _]. destruct V2 as [(Hy2 & Hm2 & Hd2) _].
  assert (M1 : 1 <= t1 mod 12 + 1 <= 12) by zdm.
  assert (M2 : 1 <= t2 mod 12 + 1 <= 12) by zdm.
  unfold datetime_lt, datetime_compare, fields in *.
  cbn [year month day hour minute second microsecond].
  rewrite (lex_compare_merge _ _ _ _ _ _ M1 M2).
  rewrite (lex_compare_merge _ _ _ _ _ _ Hm1 Hm2) in Hlt.
  replace (12 * (year d1 + t1 / 12) + (t1 mod 12 + 1))
    with (12 * year d1 + month d1 + s) by (subst t1; zdm).
  replace (12 * (year d2 + t2 / 12) + (t2 mod 12 + 1))
    with (12 * year d2 + month d2 + s) by (subst t2; zdm).
  rewrite lex_compare_shift.
  rewrite (Z.min_l (day d2)) by lia.
  cbn [lex_compare] in Hlt |- *.
  destruct (Z.compare_spec (12 * year d1 + month d1)
                           (12 * year d2 + month d2)) as [E | L | G];
    [|reflexivity|discriminate].
  (* the same month: the earlier date keeps its day of month too *)
  assert (Ey : year d1 = year d2) by lia.
  assert (Em : month d1 = month d2) by lia.
  assert (Et : t1 = t2) by (subst t1 t2; lia).
  rewrite Ey, Et.
  destruct (Z.compare_spec (day d1) (day d2)) as [Ed | Ld | Gd];
    [| |discriminate].
  - rewrite Z.min_l by lia. rewrite Ed, Z.compare_refl. exact Hlt.
  - rewrite Z.min_l by lia.
    rewrite (proj2 (Z.compare_lt_iff _ _) Ld). reflexivity.
Qed.

(** The year step, for a pair of dates of which the later one keeps its
    day of month. *)
Lemma next_years_monotonic (s : Z) (d1 d2 r1 r2 : datetime) :
  valid d1 = true -> valid d2 = true ->
  unclamped (Interval.mk Years s) d2 = true ->
  datetime_lt d1 d2 = true ->
  Interval.next (Interval.mk Years s) d1 = Ok r1 ->
  Interval.next (Interval.mk Years s) d2 = Ok r2 ->
  datetime_lt r1 r2 = true.
Proof.
  intros V1 V2 U2 Hlt N1 N2.
  rewrite (next_years s d1 V1) in N1. rewrite (next_years s d2 V2) in N2.
  unfold unclamped in U2. cbn [Interval.unit Interval.scalar] in U2.
  cbv zeta in N1, N2.
  destruct ((1 <=? year d1 + s) && (year d1 + s <=? 9999)); [|discriminate].
  destruct ((1 <=? year d2 + s) && (year d2 + s <=? 9999)); [|discriminate].
  apply Z.leb_le in U2.
  (* the later date is not clamped *)
  destruct ((month d2 =? 2) && (day d2 =? 29) && negb (is_leap (year d2 + s)))
    eqn:C2.
  { exfalso.
    apply andb_true_iff in C2. destruct C2 as [C2 L2].
    apply andb_true_iff in C2. destruct C2 as [Cm Cd].
    apply negb_true_iff in L2. bool_to_prop.
    rewrite Cm, days_in_february, L2 in U2. lia. }
  inversion N2. subst r2. clear N2.
  destruct ((month d1 =? 2) && (day d1 =? 29) && negb (is_leap (year d1 + s)))
    eqn:C1.
  - (* the earlier date is 29 February, moved to 28 February *)
    apply andb_true_iff in C1. destruct C1 as [C1 L1].
    apply andb_true_iff in C1. destruct C1 as [Cm Cd].
    apply negb_true_iff in L1. bool_to_prop.
    inversion N1. subst r1. clear N1.
    unfold datetime_lt, datetime_compare, fields in *.
    cbn [year month day hour minute second microsecond].
    cbn [lex_compare] in Hlt |- *.
    rewrite (Z.add_comm (year d1) s), (Z.add_comm (year d2) s),
            Z.add_compare_mono_l.
    destruct (Z.compare_spec (year d1) (year d2)) as [Ey | Ly | Gy];
      [|reflexivity|discriminate].
    rewrite Cm in Hlt.
    destruct (Z.compare_spec 2 (month d2)) as [Em | Lm | Gm];
      [|reflexivity|discriminate].
    exfalso.
    rewrite Cd in Hlt.
    assert (29 <= day d2).
    { destruct (Z.compare_spec 29 (day d2)); [lia | lia | discriminate]. }
    rewrite <- Em, <- Ey, days_in_february, L1 in U2. lia.
  - inversion N1. subst r1. clear N1.
    unfold datetime_lt, datetime_compare, fields in *.
    cbn [year month day hour minute second microsecond].
    rewrite lex_compare_shift. exact Hlt.
Qed.

(** C4 (amended): for the units of fixed duration (milliseconds to weeks)
    and every scalar, [Interval.next] is strictly increasing in its date
    argument wherever it returns.  For every unit, months and years
    included, [next d1 < next d2] holds for all naive datetimes
    [d1 < d2] of which the later one, [d2], keeps its day of month under
    the step (its day exists in the month reached); so the step is
    strictly increasing on the dates that it does not clamp. *)
Theorem next_strictly_monotonic_unclamped (u : TemporalBaseUnits) (s : Z) :
  (fixed_duration u = true -> strictly_monotonic (Interval.mk u s))
  /\ (forall d1 d2 r1 r2 : datetime,
        valid d1 = true -> valid d2 = true ->
        unclamped (Interval.mk u s) d2 = true ->
        datetime_lt d1 d2 = true ->
        Interval.next (Interval.mk u s) d1 = Ok r1 ->
        Interval.next (Interval.mk u s) d2 = Ok r2 ->
        datetime_lt r1 r2 = true)
  /\ strictly_monotonic_on
       (fun d => unclamped (Interval.mk u s) d = true) (Interval.mk u s).
Proof.
  assert (A : forall d1 d2 r1 r2 : datetime,
        valid d1 = true -> valid d2 = true ->
        unclamped (Interval.mk u s) d2 = true ->
        datetime_lt d1 d2 = true ->
        Interval.next (Interval.mk u s) d1 = Ok r1 ->
        Interval.next (Interval.mk u s) d2 = Ok r2 ->
        datetime_lt r1 r2 = true).
  { intros d1 d2 r1 r2 V1 V2 U2 Hlt N1 N2.
    destruct (fixed_duration u) eqn:F.
    - exact (next_fixed_monotonic u s F d1 d2 r1 r2 V1 V2 I I Hlt N1 N2).
    - destruct u; try discriminate.
      + exact (next_months_monotonic s d1 d2 r1 r2 V1 V2 U2 Hlt N1 N2).
      + exact (next_years_monotonic s d1 d2 r1 r2 V1 V2 U2 Hlt N1 N2). }
  split; [apply next_fixed_monotonic|]. split; [exact A|].
  intros d1 d2 r1 r2 V1 V2 _ U2. exact (A d1 d2 r1 r2 V1 V2 U2).
Qed.

(** A month step from 30 January and from 31 January of 2025 gives
    28 February twice: the step is not strictly increasing; and so does a
    year step from 28 and from 29 February 2024. *)
Lemma next_not_strictly_monotonic :
  ~ strictly_monotonic (Interval.mk Months 1)
  /\ ~ strictly_monotonic (Interval.mk Years 1).
Proof.
  split; intros M.
  - specialize (M (mkdatetime 2025 1 30 0 0 0 0) (mkdatetime 2025 1 31 0 0 0 0)
                  (mkdatetime 2025 2 28 0 0 0 0) (mkdatetime 2025 2 28 0 0 0 0)
                  eq_refl eq_refl I I eq_refl eq_refl eq_refl).
    discriminate M.
  - specialize (M (mkdatetime 2024 2 28 0 0 0 0) (mkdatetime 2024 2 29 0 0 0 0)
                  (mkdatetime 2025 2 28 0 0 0 0) (mkdatetime 2025 2 28 0 0 0 0)
                  eq_refl eq_refl I I eq_refl eq_refl eq_refl).
    discriminate M.
Qed.

(** With times of day the month step is not even weakly increasing:
    30 January 23:00 precedes 31 January 01:00, and their images are
    28 February 23:00 and 28 February 01:00. *)
Lemma next_months_reverses_order :
  datetime_lt (mkdatetime 2025 1 30 23 0 0 0) (mkdatetime 2025 1 31 1 0 0 0)
  = true
  /\ Interval.next (Interval.mk Months 1) (mkdatetime 2025 1 30 23 0 0 0)
     = Ok (mkdatetime 2025 2 28 23 0 0 0)
  /\ Interval.next (Interval.mk Months 1) (mkdatetime 2025 1 31 1 0 0 0)
     = Ok (mkdatetime 2025 2 28 1 0 0 0)
  /\ datetime_lt (mkdatetime 2025 2 28 1 0 0 0) (mkdatetime 2025 2 28 23 0 0 0)
     = true.
Proof. repeat split; reflexivity. Qed.

(** When the later date is clamped, some earlier date collides with it:
    the date of the same month whose day is the one the later date is
    clamped to, at the same time of day, has the same image.  So the
    condition on the later date cannot be dropped for any date. *)
Lemma next_clamped_date_collides (u : TemporalBaseUnits) (s : Z)
      (d2 r2 : datetime) :
  valid d2 = true ->
  unclamped (Interval.mk u s) d2 = false ->
  Interval.next (Interval.mk u s) d2 = Ok r2 ->
  exists d1 : datetime,
    valid d1 = true /\ datetime_lt d1 d2 = true
    /\ Interval.next (Interval.mk u s) d1 = Ok r2.
Proof.
  intros V2 U2 N2.
  pose proof V2 as V2'. apply valid_iff in V2'.
  destruct V2' as [(Hy & Hm & Hd) Ht].
  exists (mkdatetime (year d2) (month d2) (day r2)
                     (hour d2) (minute d2) (second d2) (microsecond d2)).
  unfold unclamped in U2. cbn [Interval.unit Interval.scalar] in U2.
  destruct u; try discriminate.
  - (* Months *)
    cbv zeta in U2. apply Z.leb_gt in U2.
    pose proof N2 as N2'.
    rewrite (next_months s d2 V2) in N2'. cbv zeta in N2'.
    set (t := month d2 - 1 + s) in *.
    assert (M : 1 <= t mod 12 + 1 <= 12) by zdm.
    pose proof (days_in_month_range (year d2 + t / 12) _ M) as R.
    destruct ((1 <=? year d2 + t / 12) && (year d2 + t / 12 <=? 9999)) eqn:Y;
      [|discriminate].
    inversion N2'. clear N2'.
    cbn [year month day hour minute second microsecond].
    rewrite Z.min_r by lia.
    set (L := days_in_month (year d2 + t / 12) (t mod 12 + 1)) in *.
    assert (V1 : valid (mkdatetime (year d2) (month d2) L (hour d2)
                          (minute d2) (second d2) (microsecond d2)) = true).
    { apply valid_iff. cbn [year month day hour minute second microsecond].
      repeat split; try tauto; lia. }
    split; [exact V1|]. split.
    + unfold datetime_lt, datetime_compare, fields.
      cbn [year month day hour minute second microsecond lex_compare].
      rewrite !Z.compare_refl.
      rewrite (proj2 (Z.compare_lt_iff L (day d2))) by lia. reflexivity.
    + rewrite (next_months s _ V1). cbv zeta.
      cbn [year month day hour minute second microsecond].
      fold t. rewrite Y. fold L. rewrite Z.min_id. reflexivity.
  - (* Years *)
    apply Z.leb_gt in U2.
    pose proof N2 as N2'.
    rewrite (next_years s d2 V2) in N2'. cbv zeta in N2'.
    destruct ((1 <=? year d2 + s) && (year d2 + s <=? 9999)) eqn:Y;
      [|discriminate].
    assert (C : (month d2 =? 2) && (day d2 =? 29)
                && negb (is_leap (year d2 + s)) = true).
    { unfold days_in_month in U2, Hd.
      destruct (month d2 =? 2) eqn:M2; cbn [andb] in *.
      - destruct (is_leap (year d2 + s)), (is_leap (year d2));
          cbn [negb andb] in *; bool_to_prop; rewrite ?M2 in *;
          revert U2 Hd; tables; intros; lia.
      - exfalso. lia. }
    rewrite C in N2'. inversion N2'. clear N2'.
    cbn [year month day hour minute second microsecond].
    apply andb_true_iff in C. destruct C as [C L2].
    apply andb_true_iff in C. destruct C as [Cm Cd].
    apply Z.eqb_eq in Cm. apply Z.eqb_eq in Cd.
    pose proof (days_in_month_range (year d2) (month d2) Hm) as R.
    assert (V1 : valid (mkdatetime (year d2) (month d2) 28 (hour d2)
                          (minute d2) (second d2) (microsecond d2)) = true).
    { apply valid_iff. cbn [year month day hour minute second microsecond].
      repeat split; try tauto; lia. }
    split; [exact V1|]. split.
    + unfold datetime_lt, datetime_compare, fields.
      cbn [year month day hour minute second microsecond lex_compare].
      rewrite !Z.compare_refl. rewrite Cd. reflexivity.
    + rewrite (next_years s _ V1). cbv zeta.
      cbn [year month day hour minute second microsecond].
      rewrite Y, Cm. reflexivity.
Qed.

Lemma next_strictly_monotonic_unclamped_witness :
  datetime_lt (mkdatetime 2025 3 30 0 0 0 0) (mkdatetime 2025 3 31 0 0 0 0)
  = true.
Proof.
  apply (proj1 (proj2 (next_strictly_monotonic_unclamped Months 2))
           (mkdatetime 2025 1 30 0 0 0 0) (mkdatetime 2025 1 31 0 0 0 0));
    reflexivity.
Defined.

(** C5: the month step clamps the day of month to the last valid day of
    the target month under the Gregorian leap-year rule, so that
    31 January plus one month is 28 February in a common year and
    29 February in a leap year; and the year step takes 29 February to
    28 February of a target year that is not a leap year. *)
Theorem next_clamps_day_of_month :
  (forall (d : datetime) (s : Z),
     valid d = true ->
     let t := month d - 1 + s in
     1 <= year d + t / 12 <= 9999 ->
     Interval.next (Interval.mk Months s) d =
       Ok (mkdatetime (year d + t / 12) (t mod 12 + 1)
             (Z.min (day d) (spec_last_day (year d + t / 12) (t mod 12 + 1)))
             (hour d) (minute d) (second d) (microsecond d)))
  /\ (forall y h mi sec us : Z,
        valid (mkdatetime y 1 31 h mi sec us) = true ->
        Interval.next (Interval.mk Months 1) (mkdatetime y 1 31 h mi sec us) =
          Ok (mkdatetime y 2 (if spec_leap_year y then 29 else 28)
                         h mi sec us))
  /\ (forall y s h mi sec us : Z,
        valid (mkdatetime y 2 29 h mi sec us) = true ->
        1 <= y + s <= 9999 ->
        spec_leap_year (y + s) = false ->
        Interval.next (Interval.mk Years s) (mkdatetime y 2 29 h mi sec us) =
          Ok (mkdatetime (y + s) 2 28 h mi sec us)).
Proof.
  assert (A : forall (d : datetime) (s : Z),
     valid d = true ->
     let t := month d - 1 + s in
     1 <= year d + t / 12 <= 9999 ->
     Interval.next (Interval.mk Months s) d =
       Ok (mkdatetime (year d + t / 12) (t mod 12 + 1)
             (Z.min (day d) (spec_last_day (year d + t / 12) (t mod 12 + 1)))
             (hour d) (minute d) (second d) (microsecond d))).
  { intros d s V t R.
    rewrite (next_months s d V). cbv zeta. fold t.
    replace ((1 <=? year d + t / 12) && (year d + t / 12 <=? 9999)) with true
      by (symmetry; apply andb_true_iff; rewrite !Z.leb_le; lia).
    rewrite spec_last_day_days_in_month by zdm. reflexivity. }
  split; [exact A|]. split.
  - intros y h mi sec us V.
    pose proof V as V'. apply valid_iff in V'. cbn in V'.
    rewrite (A _ 1 V); cbn [year month day hour minute second microsecond].
    + change ((1 - 1 + 1) / 12) with 0. change ((1 - 1 + 1) mod 12 + 1) with 2.
      rewrite Z.add_0_r. unfold spec_last_day. cbn [Z.eqb Pos.eqb].
      destruct (spec_leap_year y); reflexivity.
    + change ((1 - 1 + 1) / 12) with 0. lia.
  - intros y s h mi sec us V R L.
    rewrite (next_years s _ V).
    cbv zeta. cbn [year month day hour minute second microsecond].
    replace ((1 <=? y + s) && (y + s <=? 9999)) with true
      by (symmetry; apply andb_true_iff; rewrite !Z.leb_le; lia).
    rewrite <- spec_leap_year_is_leap, L. reflexivity.
Qed.

Lemma next_clamps_day_of_month_witness :
  Interval.next (Interval.mk Months 1) (mkdatetime 2025 1 31 0 0 0 0)
    = Ok (mkdatetime 2025 2 28 0 0 0 0)
  /\ Interval.next (Interval.mk Months 1) (mkdatetime 2024 1 31 0 0 0 0)
    = Ok (mkdatetime 2024 2 29 0 0 0 0)
  /\ Interval.next (Interval.mk Years 1) (mkdatetime 2024 2 29 0 0 0 0)
    = Ok (mkdatetime 2025 2 28 0 0 0 0).
Proof.
  destruct next_clamps_day_of_month as (_ & M & Y).
  split; [|split].
  - exact (M 2025 0 0 0 0 eq_refl).
  - exact (M 2024 0 0 0 0 eq_refl).
  - apply (Y 2024 1 0 0 0 0 eq_refl); [lia | reflexivity].
Defined.

(* ================================================================== *)
(** * Proofs: DataSeries *)

(** C10: the [aggregation] argument of the constructor is not stored: two
    constructions that differ only in it give the same object, so no
    observation of a series recovers the aggregation it was built with. *)
Theorem DataSeries_init_drops_aggregation :
  (forall (series : list pyval) (affinity : Affinity) (a1 a2 : Aggregation),
     DataSeries.init series affinity a1 = DataSeries.init series affinity a2)
  /\ ~ (exists observe : DataSeries.t -> Aggregation,
          forall series affinity a,
            observe (DataSeries.init series affinity a) = a).
Proof.
  split.
  - intros. reflexivity.
  - intros [observe H].
    pose proof (H [] Numerical CumulativeSum) as H1.
    pose proof (H [] Numerical Identity) as H2.
    unfold DataSeries.init in H1, H2. congruence.
Qed.

(* ================================================================== *)
(** * Proofs: Calendar.generate_dates *)

Lemma lex_compare_antisym (a b : list Z) :
  lex_compare b a = CompOpp (lex_compare a b).
Proof.
  revert b. induction a as [|x a IH]; intros [|y b]; try reflexivity.
  cbn [lex_compare]. rewrite (Z.compare_antisym x y).
  destruct (x ?= y); cbn [CompOpp]; auto.
Qed.

Lemma datetime_lt_not_le (a b : datetime) :
  datetime_lt b a = true -> datetime_le a b = false.
Proof.
  unfold datetime_lt, datetime_le, datetime_compare.
  rewrite (lex_compare_antisym (fields a) (fields b)).
  destruct (lex_compare (fields a) (fields b)); cbn; congruence.
Qed.

Lemma lex_compare_eq (a b : list Z) : lex_compare a b = Eq -> a = b.
Proof.
  revert b. induction a as [|x a IH]; intros [|y b] H;
    try reflexivity; try discriminate.
  cbn [lex_compare] in H.
  destruct (Z.compare_spec x y); try discriminate.
  subst. f_equal. auto.
Qed.

Lemma to_us_injective (a b : datetime) :
  valid a = true -> valid b = true -> to_us a = to_us b -> a = b.
Proof.
  intros Va Vb E.
  pose proof (datetime_compare_to_us a b Va Vb) as C.
  rewrite E, Z.compare_refl in C.
  apply lex_compare_eq in C.
  destruct a, b. unfold fields in C. cbn in C.
  inversion C. reflexivity.
Qed.

Lemma of_us_to_us (d : datetime) : valid d = true -> of_us (to_us d) = d.
Proof.
  intros V.
  assert (R : representable (to_us d) = true).
  { unfold representable. rewrite (to_us_div d V).
    pose proof (toordinal_range d V).
    apply andb_true_iff. rewrite Z.ltb_lt, Z.leb_le. lia. }
  destruct (of_us_spec _ R) as [V' E].
  apply to_us_injective; assumption.
Qed.

(** Beyond a position that is too late, every later position is too
    late. *)
Lemma representable_downward (u u' : Z) :
  US_PER_DAY <= u -> u <= u' ->
  representable u' = true -> representable u = true.
Proof.
  unfold representable, US_PER_DAY, US_PER_SECOND. intros H1 H2 R.
  bool_to_prop. apply andb_true_iff. rewrite Z.ltb_lt, Z.leb_le.
  split; zdm.
Qed.

Lemma valid_to_us_ge (d : datetime) : valid d = true -> US_PER_DAY <= to_us d.
Proof.
  intros V. destruct (to_us_decompose d V) as (tod & -> & H).
  pose proof (toordinal_range d V). unfold US_PER_DAY, US_PER_SECOND in *.
  lia.
Qed.

Lemma one_day : timedelta_new 1 0 0 0 0 0 0 = Ok (mktimedelta US_PER_DAY).
Proof. reflexivity. Qed.

(** The loop invariant: with [m] instants left in the range and more fuel
    than that, the loop appends them to [dates], unless the day after
    the last one is out of range. *)
Lemma generate_loop_spec (end_ : datetime) (m : nat) :
  valid end_ = true ->
  forall (fuel : nat) (current : datetime) (dates : list datetime),
    valid current = true ->
    days_in_range current end_ = m ->
    (m < fuel)%nat ->
    Calendar.generate_loop fuel current end_ dates =
      if representable (to_us current + Z.of_nat m * US_PER_DAY)
      then Ok (dates ++ map (plus_days current) (seq 0 m))
      else Raise OverflowError.
Proof.
  intros Ve. induction m as [|m IH]; intros fuel current dates Vc Hm Hfuel.
  - destruct fuel as [|fuel]; [lia|].
    unfold days_in_range in Hm.
    cbn [Calendar.generate_loop].
    destruct (datetime_le current end_); [discriminate|].
    replace (to_us current + Z.of_nat 0 * US_PER_DAY) with (to_us current)
      by lia.
    replace (representable (to_us current)) with true.
    + cbn [seq map]. rewrite app_nil_r. reflexivity.
    + symmetry. unfold representable. rewrite (to_us_div _ Vc).
      pose proof (toordinal_range _ Vc).
      apply andb_true_iff. rewrite Z.ltb_lt, Z.leb_le. lia.
  - destruct fuel as [|fuel]; [lia|].
    unfold days_in_range in Hm.
    cbn [Calendar.generate_loop].
    destruct (datetime_le current end_) eqn:Hle; [|discriminate].
    apply (datetime_le_to_us _ _ Vc Ve) in Hle.
    injection Hm as Hm.
    rewrite one_day. cbn [bind].
    rewrite (datetime_add_spec _ _ Vc). cbn [total_us].
    pose proof (valid_to_us_ge _ Vc) as Hge.
    destruct (representable (to_us current + US_PER_DAY)) eqn:R1;
      cbn [bind].
    + destruct (of_us_spec _ R1) as [Vn En].
      assert (Hm' : days_in_range (of_us (to_us current + US_PER_DAY)) end_
                    = m).
      { unfold days_in_range.
        destruct (datetime_le (of_us (to_us current + US_PER_DAY)) end_)
          eqn:Hle'.
        - apply (datetime_le_to_us _ _ Vn Ve) in Hle'. rewrite En in *.
          unfold US_PER_DAY, US_PER_SECOND in *.
          destruct m as [|m]; [exfalso; zdm|].
          f_equal. zdm.
        - assert (~ to_us (of_us (to_us current + US_PER_DAY)) <= to_us end_).
          { intros C. apply (datetime_le_to_us _ _ Vn Ve) in C. congruence. }
          rewrite En in *. unfold US_PER_DAY, US_PER_SECOND in *.
          destruct m as [|m]; [reflexivity|]. exfalso. zdm. }
      rewrite (IH fuel _ (dates ++ [current]) Vn Hm' ltac:(lia)).
      rewrite En.
      replace (to_us current + US_PER_DAY + Z.of_nat m * US_PER_DAY)
        with (to_us current + Z.of_nat (S m) * US_PER_DAY) by lia.
      destruct (representable (to_us current + Z.of_nat (S m) * US_PER_DAY));
        [|reflexivity].
      f_equal. rewrite <- app_assoc. f_equal.
      cbn [seq map app]. f_equal.
      * unfold plus_days.
        replace (to_us current + Z.of_nat 0 * US_PER_DAY) with (to_us current)
          by lia.
        symmetry. apply of_us_to_us. exact Vc.
      * rewrite <- seq_shift, map_map. apply map_ext. intros i.
        unfold plus_days. rewrite En. f_equal. lia.
    + destruct (representable (to_us current + Z.of_nat (S m) * US_PER_DAY))
        eqn:R2; [|reflexivity].
      rewrite (representable_downward (to_us current + US_PER_DAY)
                 (to_us current + Z.of_nat (S m) * US_PER_DAY)) in R1;
        try assumption; [discriminate | | ];
        unfold US_PER_DAY, US_PER_SECOND in *; lia.
Qed.

Lemma days_in_range_fuel (a b : datetime) :
  valid a = true -> valid b = true ->
  (days_in_range a b < Calendar.fuel_for a b)%nat.
Proof.
  intros Va Vb. unfold days_in_range, Calendar.fuel_for.
  destruct (datetime_le a b) eqn:Hle; [|lia].
  apply (datetime_le_to_us _ _ Va Vb) in Hle.
  destruct (to_us_decompose a Va) as (ta & Ea & Ha).
  destruct (to_us_decompose b Vb) as (tb & Eb & Hb).
  rewrite Ea, Eb in *. unfold US_PER_DAY, US_PER_SECOND in *.
  apply -> Nat.succ_lt_mono. zdm.
Qed.

(** [generate_dates] always terminates, and returns the inclusive daily
    range unless the day after its last instant is beyond year 9999. *)
Lemma generate_dates_spec (a b : datetime) :
  valid a = true -> valid b = true ->
  Calendar.generate_dates a b =
    if representable (to_us a + Z.of_nat (days_in_range a b) * US_PER_DAY)
    then Ok (daily_range a b)
    else Raise OverflowError.
Proof.
  intros Va Vb. unfold Calendar.generate_dates.
  rewrite (generate_loop_spec b (days_in_range a b) Vb _ a [] Va eq_refl
             (days_in_range_fuel a b Va Vb)).
  reflexivity.
Qed.

Lemma generate_dates_terminates (a b : datetime) :
  valid a = true -> valid b = true ->
  Calendar.generate_dates a b <> OutOfFuel.
Proof.
  intros Va Vb. rewrite (generate_dates_spec a b Va Vb).
  destruct (representable _); discriminate.
Qed.

(** C6: when the end precedes the start, the date generation of
    [Calendar] terminates with the empty sequence: it neither raises nor
    runs out of any positive amount of fuel. *)
Theorem generate_dates_empty_when_end_before_start (start end_ : datetime) :
  datetime_lt end_ start = true ->
  Calendar.generate_dates start end_ = Ok []
  /\ (forall fuel, Calendar.generate_loop (S fuel) start end_ [] = Ok [])
  /\ Calendar.init (VDate start) (VDate end_)
     = Ok (Calendar.mk start end_ [] Temporal).
Proof.
  intros H. apply datetime_lt_not_le in H.
  assert (L : forall fuel,
             Calendar.generate_loop (S fuel) start end_ [] = Ok []).
  { intros fuel. cbn [Calendar.generate_loop]. rewrite H. reflexivity. }
  assert (G : Calendar.generate_dates start end_ = Ok []).
  { unfold Calendar.generate_dates, Calendar.fuel_for. apply L. }
  split; [exact G|]. split; [exact L|].
  unfold Calendar.init. cbn [Calendar.instant bind]. rewrite G. reflexivity.
Qed.

Lemma generate_dates_empty_when_end_before_start_witness :
  Calendar.generate_dates (mkdatetime 2025 3 5 0 0 0 0)
                          (mkdatetime 2025 1 1 0 0 0 0) = Ok [].
Proof.
  apply (generate_dates_empty_when_end_before_start
           (mkdatetime 2025 3 5 0 0 0 0) (mkdatetime 2025 1 1 0 0 0 0)).
  reflexivity.
Defined.

(* ================================================================== *)
(** * Proofs: Calendar.fromstr *)

Lemma match_prefix_cons (a : atom) (p : list atom) (s r : string) :
  match_prefix (a :: p) s = Some r ->
  exists c s', s = String c s' /\ atom_matches a c = true
               /\ match_prefix p s' = Some r.
Proof.
  cbn [match_prefix]. destruct s as [|c s']; [discriminate|].
  destruct (atom_matches a c) eqn:E; [|discriminate].
  intros H. exists c, s'. auto.
Qed.

Lemma at_dollar_cases (r : string) :
  at_dollar r = true -> r = EmptyString \/ r = String newline EmptyString.
Proof.
  destruct r as [|c [|c' r']]; cbn; intros H; try discriminate; auto.
  apply Ascii.eqb_eq in H. subst. auto.
Qed.

Lemma digit_differs (c x : ascii) :
  is_digit c = true -> is_digit x = false -> Ascii.eqb c x = false.
Proof.
  intros Hc Hx. destruct (Ascii.eqb_spec c x); [congruence | reflexivity].
Qed.

Lemma in_form_re_match (p : list atom) (s : string) :
  in_form p s = true -> re_match p s = true.
Proof.
  unfold in_form, re_match.
  destruct (match_prefix p s) as [[|c r]|]; try discriminate. reflexivity.
Qed.

Ltac peel H :=
  let c := fresh "c" in
  let s' := fresh "s" in
  let E := fresh "E" in
  let M := fresh "M" in
  apply match_prefix_cons in H; destruct H as (c & s' & E & M & H); subst;
  cbn [atom_matches] in M.

Ltac digits :=
  repeat match goal with
  | M : is_digit ?c = true |- context [is_digit ?c] => rewrite M
  | M : is_digit ?c = true |- context [Ascii.eqb ?c ?x] =>
      rewrite (digit_differs c x M eq_refl)
  end.

Ltac consts :=
  repeat match goal with
  | |- context [Ascii.eqb ?a ?b] =>
      let v := eval vm_compute in (Ascii.eqb a b) in
      match v with
      | true => change (Ascii.eqb a b) with true
      | false => change (Ascii.eqb a b) with false
      end
  | |- context [is_digit ?a] =>
      let v := eval vm_compute in (is_digit a) in
      match v with
      | true => change (is_digit a) with true
      | false => change (is_digit a) with false
      end
  end.

Ltac run_step :=
  cbn -[Z.mul Z.add digit_val is_digit Ascii.eqb check_date_fields
        check_time_fields];
  unfold parse_isoformat_date, parse_isoformat_time, parse_hh_mm_ss_ff,
         field, int_of_str, char_at, dash, colon, newline;
  digits; consts.

Ltac run := repeat (progress run_step).

Ltac shape H :=
  cbn [repeat app DATE_RE DATETIME_RE] in H;
  repeat peel H; cbn [match_prefix] in H;
  injection H as H; subst;
  repeat match goal with
  | M : Ascii.eqb _ _ = true |- _ => apply Ascii.eqb_eq in M; subst
  end.

Ltac finish_fromstr :=
  repeat match goal with
  | |- context [10 * (10 * 0 + digit_val ?a) + digit_val ?b] =>
      let v := eval vm_compute in (10 * (10 * 0 + digit_val a) + digit_val b) in
      match v with
      | Z0 => change (10 * (10 * 0 + digit_val a) + digit_val b) with 0
      end
  end;
  unfold datetime_new;
  try change (check_time_fields 0 0 0 0) with true;
  repeat match goal with
  | |- context [check_date_fields ?y ?m ?d] =>
      destruct (check_date_fields y m d)
  | |- context [check_time_fields ?h ?mi ?s ?us] =>
      destruct (check_time_fields h mi s us)
  end;
  reflexivity.

Lemma fromstr_denotation (s : string) :
  Calendar.fromstr s =
    match denotation s with Some d => Ok d | None => Raise ValueError end.
Proof.
  unfold Calendar.fromstr, denotation.
  destruct (re_match DATE_RE s) eqn:R1.
  - unfold re_match in R1.
    destruct (match_prefix DATE_RE s) as [r|] eqn:P; [|discriminate].
    apply at_dollar_cases in R1.
    unfold DATE_RE in P. shape P.
    unfold in_form, fromisoformat, iso_extended.
    destruct R1 as [-> | ->]; run; finish_fromstr.
  - assert (F1 : in_form DATE_RE s = false).
    { destruct (in_form DATE_RE s) eqn:F; [|reflexivity].
      apply in_form_re_match in F. congruence. }
    rewrite F1.
    destruct (re_match DATETIME_RE s) eqn:R2.
    + unfold re_match in R2.
      destruct (match_prefix DATETIME_RE s) as [r|] eqn:P; [|discriminate].
      apply at_dollar_cases in R2.
      unfold DATETIME_RE, DATE_RE in P. shape P.
      unfold in_form, fromisoformat, iso_extended.
      destruct R2 as [-> | ->]; run; finish_fromstr.
    + destruct (in_form DATETIME_RE s) eqn:F; [|reflexivity].
      apply in_form_re_match in F. congruence.
Qed.

(** Every string that [fromstr] hands to [fromisoformat] is one on which
    the model of [fromisoformat] is defined. *)
Lemma fromstr_calls_in_domain (s : string) :
  (re_match DATE_RE s = true -> iso_extended (s ++ "T00:00:00") = true)
  /\ (re_match DATETIME_RE s = true -> iso_extended s = true).
Proof.
  split; intros R; unfold re_match in R.
  - destruct (match_prefix DATE_RE s) as [r|] eqn:P; [|discriminate].
    apply at_dollar_cases in R. unfold DATE_RE in P. shape P.
    unfold iso_extended. destruct R as [-> | ->]; run; reflexivity.
  - destruct (match_prefix DATETIME_RE s) as [r|] eqn:P; [|discriminate].
    apply at_dollar_cases in R. unfold DATETIME_RE, DATE_RE in P. shape P.
    unfold iso_extended. destruct R as [-> | ->]; run; reflexivity.
Qed.

Lemma denotation_valid (s : string) (d : datetime) :
  denotation s = Some d -> valid d = true.
Proof.
  unfold denotation, valid.
  destruct (in_form DATE_RE s).
  - destruct (check_date_fields _ _ _) eqn:C; [|discriminate].
    intros H. inversion H. cbn. rewrite C. reflexivity.
  - destruct (in_form DATETIME_RE s); [|discriminate].
    destruct (check_date_fields _ _ _ && check_time_fields _ _ _ _) eqn:C;
      [|discriminate].
    intros H. inversion H. cbn. exact C.
Qed.

Lemma fromstr_valid (s : string) (d : datetime) :
  Calendar.fromstr s = Ok d -> valid d = true.
Proof.
  rewrite fromstr_denotation.
  destruct (denotation s) as [d'|] eqn:D; [|discriminate].
  intros H. inversion H. subst. exact (denotation_valid s d D).
Qed.

(** C8 (amended): [Calendar.fromstr] succeeds for every string in
    YYYY-MM-DD or YYYY-MM-DDTHH:MM:SS form whose fields name an existing
    day (year 1 to 9999, month 1 to 12, day within the month) and time of
    day (hour up to 23, minute and second up to 59), returning that
    instant; for every other string, in particular for every string in
    neither form, it fails with [ValueError], the error of an invalid
    date format. *)
Theorem fromstr_succeeds_iff_denotes (s : string) :
  match denotation s with
  | Some d => Calendar.fromstr s = Ok d /\ valid d = true
  | None => Calendar.fromstr s = Raise ValueError
  end
  /\ (in_form DATE_RE s = false -> in_form DATETIME_RE s = false ->
      Calendar.fromstr s = Raise ValueError
      /\ forall end_, Calendar.init (VStr s) end_ = Raise ValueError).
Proof.
  split.
  - rewrite fromstr_denotation.
    destruct (denotation s) as [d|] eqn:D; [|reflexivity].
    split; [reflexivity | exact (denotation_valid s d D)].
  - intros F1 F2.
    assert (E : Calendar.fromstr s = Raise ValueError).
    { rewrite fromstr_denotation. unfold denotation. rewrite F1, F2.
      reflexivity. }
    split; [exact E|].
    intros end_. unfold Calendar.init. cbn [Calendar.instant]. rewrite E.
    reflexivity.
Qed.

Lemma fromstr_succeeds_iff_denotes_witness :
  Calendar.fromstr "2025-03-05 " = Raise ValueError.
Proof.
  apply (proj2 (fromstr_succeeds_iff_denotes "2025-03-05 ")); reflexivity.
Defined.

(** Strings in the two forms that name no existing day or time are
    refused. *)
Lemma fromstr_rejects_well_formed_string :
  in_form DATE_RE "2025-02-30" = true
  /\ Calendar.fromstr "2025-02-30" = Raise ValueError
  /\ in_form DATETIME_RE "2025-01-01T24:00:00" = true
  /\ Calendar.fromstr "2025-01-01T24:00:00" = Raise ValueError.
Proof. repeat split; reflexivity. Qed.

(* ================================================================== *)
(** * Proofs: TemporalAccumulator.accumulate and __init__ *)

Section AccumulateFacts.

Variable V : Type.
Variable iterate : V -> list pyval.
Variable same_key : DataSeries.t + pyval -> DataSeries.t + pyval -> bool.
Variable unfinished_assignment :
  list ((DataSeries.t + pyval) * V) -> pyval ->
  outcome (list ((DataSeries.t + pyval) * V)).

Let accumulate :=
  TemporalAccumulator.accumulate V iterate same_key unfinished_assignment.
Let init :=
  TemporalAccumulator.init V iterate same_key unfinished_assignment.

(** Whatever the unfinished statement is meant to be, it is never
    reached: the lookup before it is made in a dict that is still
    empty. *)
Lemma accumulate_outcome (catagories : list DataSeries.t) :
  accumulate catagories =
    match catagories with
    | [] => Ok None
    | _ :: _ => Raise KeyError
    end.
Proof.
  destruct catagories; reflexivity.
Qed.

Lemma init_outcome (td : DataSeries.t)
      (cats quants : TemporalAccumulator.series_arg)
      (sm : option (list StaticMap)) (cal : option Calendar.t)
      (iv : Interval.t) :
  init td cats quants sm cal iv =
    c <- TemporalAccumulator.calendar_or_default td cal ;;
    match TemporalAccumulator.as_list cats with
    | [] =>
        Ok (TemporalAccumulator.mk td []
              (TemporalAccumulator.as_list quants)
              (TemporalAccumulator.static_maps_or_empty sm) c iv None)
    | _ :: _ => Raise KeyError
    end.
Proof.
  unfold init, TemporalAccumulator.init.
  destruct (TemporalAccumulator.calendar_or_default td cal);
    cbn [bind]; try reflexivity.
  fold accumulate. rewrite accumulate_outcome.
  destruct (TemporalAccumulator.as_list cats); reflexivity.
Qed.

End AccumulateFacts.

Lemma py_index_first {A : Type} (l : list A) (x : A) :
  py_index l 0 = Ok x -> hd_error l = Some x.
Proof.
  unfold py_index. destruct l as [|a l]; cbn; [discriminate|].
  destruct (0 <? Z.pos (Pos.of_succ_nat (List.length l))); cbn; congruence.
Qed.

Lemma py_index_last {A : Type} (l : list A) (y : A) :
  py_index l (-1) = Ok y -> exists l', l = l' ++ [y].
Proof.
  unfold py_index. cbn [Z.ltb Z.compare].
  destruct ((0 <=? -1 + Z.of_nat (List.length l))
            && (-1 + Z.of_nat (List.length l) <? Z.of_nat (List.length l)))
    eqn:C; [|discriminate].
  bool_to_prop.
  destruct (nth_error l (Z.to_nat (-1 + Z.of_nat (List.length l)))) as [v|]
    eqn:N; [|discriminate].
  intros E. inversion E. subst v.
  destruct (exists_last (l := l)) as (l' & z & ->).
  { intros ->. cbn in H. lia. }
  exists l'. rewrite nth_error_app2 in N;
    rewrite length_app in *; cbn [List.length] in *; [|lia].
  replace (Z.to_nat (-1 + Z.of_nat (List.length l' + 1)) - List.length l')%nat
    with 0%nat in N by lia.
  cbn in N. congruence.
Qed.

Lemma instant_valid (x : pyval) (a : datetime) :
  well_formed x -> Calendar.instant x = Ok a -> valid a = true.
Proof.
  destruct x as [z | s | d]; cbn; intros W H.
  - discriminate.
  - exact (fromstr_valid s a H).
  - inversion H. subst. exact W.
Qed.

(** What [Calendar(start, end)] builds from two well-formed values. *)
Lemma calendar_init_spec (x y : pyval) (c : Calendar.t) :
  well_formed x -> well_formed y ->
  Calendar.init x y = Ok c ->
  exists a b, Calendar.instant x = Ok a /\ Calendar.instant y = Ok b
              /\ c = Calendar.mk a b (daily_range a b) Temporal.
Proof.
  intros Wx Wy. unfold Calendar.init.
  destruct (Calendar.instant x) as [a| |] eqn:Ia; cbn [bind];
    try discriminate.
  destruct (Calendar.instant y) as [b| |] eqn:Ib; cbn [bind];
    try discriminate.
  rewrite (generate_dates_spec a b (instant_valid x a Wx Ia)
             (instant_valid y b Wy Ib)).
  destruct (representable _); cbn [bind]; [|discriminate].
  intros E. inversion E. exists a, b. auto.
Qed.

(** C2 (amended): for an accumulator constructed without an explicit
    calendar, the calendar used is the inclusive daily range from the
    first element of the temporal dimension to its last element. *)
Theorem default_calendar_spans_first_to_last
    (V : Type) (iterate : V -> list pyval)
    (same_key : DataSeries.t + pyval -> DataSeries.t + pyval -> bool)
    (unfinished_assignment :
       list ((DataSeries.t + pyval) * V) -> pyval ->
       outcome (list ((DataSeries.t + pyval) * V)))
    (td : DataSeries.t) (cats quants : TemporalAccumulator.series_arg)
    (sm : option (list StaticMap)) (iv : Interval.t)
    (acc : TemporalAccumulator.t) :
  Forall well_formed (DataSeries.series td) ->
  TemporalAccumulator.init V iterate same_key unfinished_assignment
    td cats quants sm None iv = Ok acc ->
  exists (x y : pyval) (rest : list pyval) (a b : datetime),
    hd_error (DataSeries.series td) = Some x
    /\ DataSeries.series td = rest ++ [y]
    /\ Calendar.instant x = Ok a /\ Calendar.instant y = Ok b
    /\ TemporalAccumulator.calendar acc
       = Calendar.mk a b (daily_range a b) Temporal.
Proof.
  intros W H. rewrite init_outcome in H.
  cbn [TemporalAccumulator.calendar_or_default] in H.
  unfold TemporalAccumulator.default_calendar in H.
  destruct (py_index (DataSeries.series td) 0) as [x| |] eqn:I0;
    cbn [bind] in H; try discriminate.
  destruct (py_index (DataSeries.series td) (-1)) as [y| |] eqn:I1;
    cbn [bind] in H; try discriminate.
  destruct (Calendar.init x y) as [c| |] eqn:C; cbn [bind] in H;
    try discriminate.
  apply py_index_first in I0.
  apply py_index_last in I1. destruct I1 as [rest I1].
  assert (Wx : well_formed x).
  { rewrite Forall_forall in W. apply W.
    destruct (DataSeries.series td); inversion I0. left. reflexivity. }
  assert (Wy : well_formed y).
  { rewrite Forall_forall in W. apply W. rewrite I1.
    apply in_or_app. right. left. reflexivity. }
  destruct (calendar_init_spec x y c Wx Wy C) as (a & b & Ia & Ib & ->).
  exists x, y, rest, a, b.
  repeat split; try assumption.
  destruct (TemporalAccumulator.as_list cats); inversion H. reflexivity.
Qed.

Lemma default_calendar_spans_first_to_last_witness :
  exists (x y : pyval) (rest : list pyval) (a b : datetime),
    hd_error [VDate (january 1); VDate (january 3)] = Some x
    /\ [VDate (january 1); VDate (january 3)] = rest ++ [y]
    /\ Calendar.instant x = Ok a /\ Calendar.instant y = Ok b
    /\ Calendar.mk (january 1) (january 3)
                   [january 1; january 2; january 3] Temporal
       = Calendar.mk a b (daily_range a b) Temporal.
Proof.
  apply (default_calendar_spans_first_to_last
           Datatypes.unit (fun _ => []) (fun _ _ => false) (fun m _ => Ok m)
           (DataSeries.mk [VDate (january 1); VDate (january 3)] Temporal)
           TemporalAccumulator.ArgNone TemporalAccumulator.ArgNone None
           TemporalAccumulator.default_interval
           (TemporalAccumulator.mk
              (DataSeries.mk [VDate (january 1); VDate (january 3)] Temporal)
              [] [] []
              (Calendar.mk (january 1) (january 3)
                           [january 1; january 2; january 3] Temporal)
              TemporalAccumulator.default_interval None)).
  - repeat constructor.
  - vm_compute. reflexivity.
Defined.

(** A temporal dimension that is not sorted: its first element is its
    maximum and its last element its minimum.  The default calendar is
    empty, whereas the range from the minimum to the maximum has two
    days. *)
Lemma default_calendar_is_not_min_to_max :
  exists acc : TemporalAccumulator.t,
    init_example (DataSeries.mk [VDate (january 2); VDate (january 1)]
                                Temporal)
                 TemporalAccumulator.ArgNone TemporalAccumulator.ArgNone
                 None None TemporalAccumulator.default_interval
    = Ok acc
    /\ Calendar.series (TemporalAccumulator.calendar acc) = []
    /\ daily_range (minimum (january 2) [january 1])
                   (maximum (january 2) [january 1])
       = [january 1; january 2]
    /\ Calendar.series (TemporalAccumulator.calendar acc)
       <> daily_range (minimum (january 2) [january 1])
                      (maximum (january 2) [january 1]).
Proof.
  eexists. split; [cbv; reflexivity|].
  split; [reflexivity|]. split; [vm_compute; reflexivity|].
  discriminate.
Qed.

(** C1 (the code at the input of the claim): three rows on three
    consecutive days, no category dimension and the quantity [1, 2, 3]
    built with the CumulativeSum aggregation.  Construction runs
    [accumulate], which returns [None]: no output series, and so not
    the series [1, 3, 6], is produced. *)
Theorem accumulate_produces_no_series
    (V : Type) (iterate : V -> list pyval)
    (same_key : DataSeries.t + pyval -> DataSeries.t + pyval -> bool)
    (unfinished_assignment :
       list ((DataSeries.t + pyval) * V) -> pyval ->
       outcome (list ((DataSeries.t + pyval) * V))) :
  TemporalAccumulator.accumulate V iterate same_key unfinished_assignment []
  = Ok None
  /\ exists acc : TemporalAccumulator.t,
       TemporalAccumulator.init V iterate same_key unfinished_assignment
         (DataSeries.init [VDate (january 1); VDate (january 2);
                           VDate (january 3)] Temporal Identity)
         TemporalAccumulator.ArgNone
         (TemporalAccumulator.ArgList
            [DataSeries.init [VInt 1; VInt 2; VInt 3] Numerical CumulativeSum])
         None None TemporalAccumulator.default_interval
       = Ok acc
       /\ Calendar.series (TemporalAccumulator.calendar acc)
          = [january 1; january 2; january 3]
       /\ TemporalAccumulator.processed_data acc = None
       /\ TemporalAccumulator.processed_data acc
          <> Some [DataSeries.init [VInt 1; VInt 3; VInt 6] Numerical
                                   CumulativeSum].
Proof.
  split; [reflexivity|].
  eexists. split; [rewrite init_outcome; cbv; reflexivity|].
  split; [reflexivity|]. split; [reflexivity|]. discriminate.
Qed.




(* ================================================================== *)
(** * Proofs: TemporalAccumulator.categorize *)

Lemma datetime_eqb_spec (a b : datetime) : reflect (a = b) (datetime_eqb a b).
Proof.
  unfold datetime_eqb.
  destruct a as [y m d h mi s us], b as [y' m' d' h' mi' s' us']. cbn.
  destruct (Z.eqb_spec y y'), (Z.eqb_spec m m'), (Z.eqb_spec d d'),
           (Z.eqb_spec h h'), (Z.eqb_spec mi mi'), (Z.eqb_spec s s'),
           (Z.eqb_spec us us'); cbn; constructor; congruence.
Qed.

Lemma pyval_eqb_spec (a b : pyval) : reflect (a = b) (pyval_eqb a b).
Proof.
  destruct a as [x | x | x], b as [y | y | y]; cbn;
    try (constructor; discriminate).
  - destruct (Z.eqb_spec x y); constructor; congruence.
  - destruct (String.eqb_spec x y); constructor; congruence.
  - destruct (datetime_eqb_spec x y); constructor; congruence.
Qed.

Lemma pyval_eqb_refl (a : pyval) : pyval_eqb a a = true.
Proof. destruct (pyval_eqb_spec a a); congruence. Qed.

(** ** Updates through references *)

Lemma update_child_ext (k : pyval) (h h' : node -> node) (d : items_t) :
  (forall v, dict_get k d = Some v -> h v = h' v) ->
  update_child k h d = update_child k h' d.
Proof.
  induction d as [|[k' v] d IH]; intros H; [reflexivity|].
  cbn [update_child dict_get] in *.
  destruct (pyval_eqb k' k).
  - rewrite (H v eq_refl). reflexivity.
  - rewrite IH by exact H. reflexivity.
Qed.

Lemma update_child_id (k : pyval) (h : node -> node) (d : items_t) :
  (forall v, dict_get k d = Some v -> h v = v) -> update_child k h d = d.
Proof.
  induction d as [|[k' v] d IH]; intros H; [reflexivity|].
  cbn [update_child dict_get] in *.
  destruct (pyval_eqb k' k).
  - rewrite (H v eq_refl). reflexivity.
  - rewrite IH by exact H. reflexivity.
Qed.

Lemma update_child_compose (k : pyval) (h h' : node -> node) (d : items_t) :
  update_child k h (update_child k h' d)
  = update_child k (fun v => h (h' v)) d.
Proof.
  induction d as [|[k' v] d IH]; [reflexivity|].
  cbn [update_child].
  destruct (pyval_eqb k' k) eqn:E; cbn [update_child]; rewrite E.
  - reflexivity.
  - rewrite IH. reflexivity.
Qed.

Lemma dict_get_update_child (k : pyval) (h : node -> node) (d : items_t) :
  dict_get k (update_child k h d) = option_map h (dict_get k d).
Proof.
  induction d as [|[k' v] d IH]; [reflexivity|].
  cbn [update_child dict_get].
  destruct (pyval_eqb k' k) eqn:E; cbn [dict_get]; rewrite E; auto.
Qed.

(** An update through a reference only depends on what the function does
    to the referenced dict; through a dangling reference it does
    nothing. *)
Lemma update_at_ext (path : list pyval) (f f' : items_t -> items_t) :
  forall root,
    (forall d, deref path root = Some d -> f d = f' d) ->
    update_at path f root = update_at path f' root.
Proof.
  induction path as [|k path IH]; intros root H.
  - cbn. apply H. reflexivity.
  - cbn [update_at]. apply update_child_ext.
    intros v Hv. destruct v as [sub | l]; [|reflexivity].
    f_equal. apply IH. intros d Hd. apply H.
    cbn [deref]. rewrite Hv. exact Hd.
Qed.

Lemma update_at_id (path : list pyval) (f : items_t -> items_t) :
  forall root,
    (forall d, deref path root = Some d -> f d = d) ->
    update_at path f root = root.
Proof.
  induction path as [|k path IH]; intros root H.
  - cbn. apply H. reflexivity.
  - cbn [update_at]. apply update_child_id.
    intros v Hv. destruct v as [sub | l]; [|reflexivity].
    f_equal. apply IH. intros d Hd. apply H.
    cbn [deref]. rewrite Hv. exact Hd.
Qed.

Lemma update_at_compose (path : list pyval) (f f' : items_t -> items_t) :
  forall root,
    update_at path f (update_at path f' root)
    = update_at path (fun d => f (f' d)) root.
Proof.
  induction path as [|k path IH]; intros root; [reflexivity|].
  cbn [update_at]. rewrite update_child_compose.
  apply update_child_ext. intros v _.
  destruct v as [sub | l]; [|reflexivity].
  rewrite IH. reflexivity.
Qed.

Lemma update_at_app (p q : list pyval) (f : items_t -> items_t) :
  forall root,
    update_at (p ++ q) f root = update_at p (update_at q f) root.
Proof.
  induction p as [|k p IH]; intros root; [reflexivity|].
  cbn [app update_at]. apply update_child_ext. intros v _.
  destruct v as [sub | l]; [|reflexivity].
  rewrite IH. reflexivity.
Qed.

Lemma ensure_key_at (prev : list pyval) (k : pyval) (root : items_t) :
  (if contains_at prev k root then root
   else update_at prev (dict_set k (Dict [])) root)
  = update_at prev (ensure_key k) root.
Proof.
  unfold contains_at.
  destruct (deref prev root) as [d|] eqn:D.
  - destruct (dict_contains k d) eqn:C.
    + symmetry. apply update_at_id. intros d' Hd'.
      rewrite D in Hd'. inversion Hd'. subst d'.
      unfold ensure_key. rewrite C. reflexivity.
    + apply update_at_ext. intros d' Hd'.
      rewrite D in Hd'. inversion Hd'. subst d'.
      unfold ensure_key. rewrite C. reflexivity.
  - rewrite (update_at_id prev (ensure_key k) root).
    + apply update_at_id. intros d' Hd'. congruence.
    + intros d' Hd'. congruence.
Qed.

Lemma insert_path_cons (k : pyval) (rest : list pyval) (d : items_t) :
  insert_path (k :: rest) d
  = update_at [k] (insert_path rest) (ensure_key k d).
Proof. reflexivity. Qed.

(** ** The loops of [categorize] add one key path per row *)

Lemma py_index_nat {A : Type} (l : list A) (i : nat) (default : A) :
  (i < List.length l)%nat -> py_index l (Z.of_nat i) = Ok (nth i l default).
Proof.
  intros H. unfold py_index.
  replace (Z.of_nat i <? 0) with false by (symmetry; apply Z.ltb_ge; lia).
  replace ((0 <=? Z.of_nat i) && (Z.of_nat i <? Z.of_nat (List.length l)))
    with true
    by (symmetry; apply andb_true_iff; rewrite Z.leb_le, Z.ltb_lt; lia).
  rewrite Nat2Z.id.
  rewrite (nth_error_nth' l default H). reflexivity.
Qed.

Lemma descend_spec (subs : list DataSeries.t) (i : nat) :
  Forall (fun c => (i < DataSeries.len c)%nat) subs ->
  forall (prev : list pyval) (root : items_t),
    TemporalAccumulator.descend subs i prev root
    = Ok (update_at prev (insert_path (row subs i)) root).
Proof.
  induction 1 as [|sub subs Hsub Hsubs IH]; intros prev root.
  - cbn. f_equal. symmetry. apply update_at_id. reflexivity.
  - cbn [TemporalAccumulator.descend].
    unfold DataSeries.getitem.
    rewrite (py_index_nat _ i (VInt 0) Hsub). cbn [bind].
    rewrite ensure_key_at, IH. f_equal.
    rewrite update_at_app, update_at_compose.
    apply update_at_ext. intros d _. reflexivity.
Qed.

Lemma skipn_cons_nth {A : Type} (l : list A) (i : nat) (x : A) (rest : list A)
      (default : A) :
  skipn i l = x :: rest ->
  (i < List.length l)%nat /\ nth i l default = x /\ skipn (S i) l = rest.
Proof.
  revert l. induction i as [|i IH]; intros [|a l] H; cbn in *;
    try discriminate.
  - inversion H. subst. repeat split. lia.
  - destruct (IH l H) as (? & ? & ?). repeat split; try assumption. lia.
Qed.

Lemma rows_loop_spec (first : DataSeries.t) (others : list DataSeries.t) :
  Forall (fun c => DataSeries.len c = DataSeries.len first) others ->
  forall (remaining : list pyval) (i : nat) (root : items_t),
    skipn i (DataSeries.series first) = remaining ->
    TemporalAccumulator.rows_loop (first :: others) remaining i root
    = Ok (insert_all (map (row (first :: others))
                          (seq i (List.length remaining))) root).
Proof.
  intros Hlen. induction remaining as [|cv remaining IH]; intros i root Hskip.
  - reflexivity.
  - destruct (skipn_cons_nth _ _ _ _ (VInt 0) Hskip) as (Hi & Hnth & Hskip').
    cbn [TemporalAccumulator.rows_loop].
    fold (ensure_key cv root).
    assert (Step :
      (if (1 <? List.length (first :: others))%nat
       then TemporalAccumulator.descend (tl (first :: others)) i [cv]
                                        (ensure_key cv root)
       else Ok (ensure_key cv root))
      = Ok (insert_path (row (first :: others) i) root)).
    { unfold row at 1. cbn [map tl]. rewrite Hnth. fold (row others i).
      rewrite insert_path_cons.
      destruct others as [|o others].
      - replace (1 <? List.length [first])%nat with false by reflexivity.
        f_equal. symmetry. apply update_at_id. reflexivity.
      - replace (1 <? List.length (first :: o :: others))%nat with true
          by reflexivity.
        apply descend_spec.
        apply Forall_impl with (2 := Hlen).
        intros c Hc. unfold DataSeries.len in *. lia. }
    rewrite Step. cbn [bind].
    rewrite (IH (S i) _ Hskip'). reflexivity.
Qed.

(** [categorize] with at least one dimension adds the key path of every
    row, in row order, to an empty dict. *)
Lemma categorize_insert_all (td first : DataSeries.t)
      (others : list DataSeries.t) :
  equal_lengths (first :: others) ->
  TemporalAccumulator.categorize td (first :: others)
  = Ok (insert_all (rows (first :: others)) []).
Proof.
  intros Hlen. unfold TemporalAccumulator.categorize, DataSeries.iter.
  rewrite (rows_loop_spec first others Hlen (DataSeries.series first) 0 []
             eq_refl).
  reflexivity.
Qed.

(** ** Adding key paths builds the first-seen grouping *)

Lemma existsb_eqb_In (x : pyval) (l : list pyval) :
  existsb (pyval_eqb x) l = true <-> In x l.
Proof.
  rewrite existsb_exists. split.
  - intros (y & Hy & E). destruct (pyval_eqb_spec x y); congruence.
  - intros H. exists x. split; [exact H | apply pyval_eqb_refl].
Qed.

Lemma in_first_seen (x : pyval) (l : list pyval) :
  In x (first_seen l) <-> In x l.
Proof.
  induction l as [|a l IH]; [reflexivity|].
  cbn [first_seen]. cbn [In]. rewrite filter_In, IH.
  destruct (pyval_eqb_spec a x) as [-> | N]; cbn; intuition congruence.
Qed.

Lemma NoDup_first_seen (l : list pyval) : NoDup (first_seen l).
Proof.
  induction l as [|a l IH]; cbn [first_seen]; constructor.
  - rewrite filter_In. intros [_ H].
    rewrite pyval_eqb_refl in H. discriminate.
  - apply NoDup_filter. exact IH.
Qed.

Lemma first_seen_snoc (l : list pyval) (x : pyval) :
  first_seen (l ++ [x])
  = if existsb (pyval_eqb x) l then first_seen l else first_seen l ++ [x].
Proof.
  induction l as [|a l IH]; [reflexivity|].
  cbn [app first_seen existsb]. rewrite IH.
  destruct (pyval_eqb_spec x a) as [-> | N]; cbn [orb].
  - destruct (existsb (pyval_eqb a) l); [reflexivity|].
    rewrite filter_app. cbn [filter]. rewrite pyval_eqb_refl. cbn [negb].
    rewrite app_nil_r. reflexivity.
  - destruct (existsb (pyval_eqb x) l); [reflexivity|].
    rewrite filter_app. cbn [filter].
    destruct (pyval_eqb_spec a x); [congruence|]. reflexivity.
Qed.

Lemma heads_snoc (rs : list (list pyval)) (x : pyval) (t : list pyval) :
  heads (rs ++ [x :: t]) = heads rs ++ [x].
Proof.
  unfold heads. rewrite flat_map_app. reflexivity.
Qed.

Lemma tails_under_snoc (k : pyval) (rs : list (list pyval)) (x : pyval)
      (t : list pyval) :
  tails_under k (rs ++ [x :: t])
  = tails_under k rs ++ (if pyval_eqb x k then [t] else []).
Proof.
  unfold tails_under. rewrite flat_map_app. cbn [flat_map].
  rewrite app_nil_r. reflexivity.
Qed.

Lemma tails_under_absent (k : pyval) (rs : list (list pyval)) :
  ~ In k (heads rs) -> tails_under k rs = [].
Proof.
  induction rs as [|r rs IH]; [reflexivity|].
  unfold heads, tails_under in *. cbn [flat_map]. intros H.
  rewrite in_app_iff in H.
  rewrite IH by tauto.
  destruct r as [|x t]; [reflexivity|].
  destruct (pyval_eqb_spec x k) as [-> | N]; [|reflexivity].
  exfalso. apply H. left. left. reflexivity.
Qed.

Section KeyedMaps.

Variable F : pyval -> node.

Let entries (ks : list pyval) : items_t := map (fun k => (k, F k)) ks.

Lemma dict_contains_entries (x : pyval) (ks : list pyval) :
  dict_contains x (entries ks) = existsb (pyval_eqb x) ks.
Proof.
  induction ks as [|k ks IH]; [reflexivity|].
  cbn [entries map dict_contains existsb]. fold (entries ks). rewrite IH.
  f_equal.
  destruct (pyval_eqb_spec k x), (pyval_eqb_spec x k); congruence.
Qed.

Lemma dict_get_entries (x : pyval) (ks : list pyval) :
  dict_get x (entries ks)
  = if existsb (pyval_eqb x) ks then Some (F x) else None.
Proof.
  induction ks as [|k ks IH]; [reflexivity|].
  cbn [entries map dict_get existsb]. fold (entries ks). rewrite IH.
  destruct (pyval_eqb_spec k x) as [-> | N].
  - rewrite pyval_eqb_refl. reflexivity.
  - destruct (pyval_eqb_spec x k); [congruence|]. reflexivity.
Qed.

Lemma dict_set_entries_absent (x : pyval) (v : node) (ks : list pyval) :
  ~ In x ks -> dict_set x v (entries ks) = entries ks ++ [(x, v)].
Proof.
  induction ks as [|k ks IH]; intros H; [reflexivity|].
  cbn [entries map dict_set app]. fold (entries ks).
  destruct (pyval_eqb_spec k x) as [-> | N].
  - exfalso. apply H. left. reflexivity.
  - rewrite IH; [reflexivity|]. intros C. apply H. right. exact C.
Qed.

Lemma update_child_entries_absent (x : pyval) (h : node -> node) (v : node)
      (ks : list pyval) :
  ~ In x ks ->
  update_child x h (entries ks ++ [(x, v)]) = entries ks ++ [(x, h v)].
Proof.
  induction ks as [|k ks IH]; intros H.
  - cbn. rewrite pyval_eqb_refl. reflexivity.
  - cbn [entries map update_child app]. fold (entries ks).
    destruct (pyval_eqb_spec k x) as [-> | N].
    + exfalso. apply H. left. reflexivity.
    + rewrite IH; [reflexivity|]. intros C. apply H. right. exact C.
Qed.

Lemma update_child_entries_present (x : pyval) (h : node -> node)
      (ks : list pyval) :
  NoDup ks ->
  update_child x h (entries ks)
  = map (fun k => (k, if pyval_eqb k x then h (F k) else F k)) ks.
Proof.
  induction 1 as [|k ks Hk Hks IH]; [reflexivity|].
  cbn [entries map update_child]. fold (entries ks).
  destruct (pyval_eqb_spec k x) as [-> | N].
  - f_equal. apply map_ext_in. intros k Hin.
    destruct (pyval_eqb_spec k x); [congruence | reflexivity].
  - rewrite IH. reflexivity.
Qed.

End KeyedMaps.

Lemma group_nil (n : nat) : group n [] = [].
Proof. destruct n; reflexivity. Qed.

(** Adding one more key path to the grouping of [rs] gives the grouping
    of [rs] followed by that path. *)
Lemma insert_path_group (n : nat) :
  forall (rs : list (list pyval)) (t : list pyval),
    List.length t = n ->
    insert_path t (group n rs) = group n (rs ++ [t]).
Proof.
  induction n as [|n IH]; intros rs t Ht.
  - destruct t; [reflexivity | discriminate].
  - destruct t as [|x t]; [discriminate|]. injection Ht as Ht.
    rewrite insert_path_cons. cbn [group update_at].
    rewrite heads_snoc, first_seen_snoc.
    unfold ensure_key.
    rewrite (dict_contains_entries
               (fun k => Dict (group n (tails_under k rs)))).
    assert (E : existsb (pyval_eqb x) (first_seen (heads rs))
                = existsb (pyval_eqb x) (heads rs)).
    { apply eq_true_iff_eq. rewrite !existsb_eqb_In. apply in_first_seen. }
    rewrite E.
    destruct (existsb (pyval_eqb x) (heads rs)) eqn:Hin.
    + rewrite (update_child_entries_present
                 (fun k => Dict (group n (tails_under k rs))))
        by apply NoDup_first_seen.
      apply map_ext. intros k. f_equal.
      rewrite tails_under_snoc.
      destruct (pyval_eqb_spec k x) as [-> | N].
      * rewrite pyval_eqb_refl. f_equal. apply IH. exact Ht.
      * destruct (pyval_eqb_spec x k); [congruence|].
        rewrite app_nil_r. reflexivity.
    + assert (Nin : ~ In x (first_seen (heads rs))).
      { rewrite in_first_seen, <- existsb_eqb_In. congruence. }
      rewrite (dict_set_entries_absent
                 (fun k => Dict (group n (tails_under k rs)))) by exact Nin.
      rewrite (update_child_entries_absent
                 (fun k => Dict (group n (tails_under k rs)))) by exact Nin.
      rewrite map_app. cbn [map]. f_equal.
      * apply map_ext_in. intros k Hk. f_equal. f_equal.
        rewrite tails_under_snoc.
        destruct (pyval_eqb_spec x k) as [-> | N]; [contradiction|].
        rewrite app_nil_r. reflexivity.
      * f_equal. f_equal. f_equal.
        rewrite tails_under_snoc, pyval_eqb_refl.
        rewrite tails_under_absent
          by (rewrite <- in_first_seen; exact Nin).
        cbn [app]. rewrite <- (group_nil n). apply IH. exact Ht.
Qed.

Lemma insert_all_group (n : nat) (rs : list (list pyval)) :
  Forall (fun r => List.length r = n) rs ->
  insert_all rs [] = group n rs.
Proof.
  unfold insert_all.
  induction rs as [|r rs IH] using rev_ind; intros H.
  - cbn. symmetry. apply group_nil.
  - apply Forall_app in H. destruct H as [Hrs Hr].
    rewrite fold_left_app. cbn [fold_left]. rewrite IH by exact Hrs.
    apply insert_path_group. inversion Hr. assumption.
Qed.

(** ** Shape of the grouping *)

Lemma dict_keys_group (n : nat) (rs : list (list pyval)) :
  dict_keys (group (S n) rs) = first_seen (heads rs).
Proof.
  unfold dict_keys. cbn [group]. rewrite map_map. cbn [fst].
  apply map_id.
Qed.

Lemma dict_get_group (n : nat) (rs : list (list pyval)) (k : pyval) :
  dict_get k (group (S n) rs)
  = if existsb (pyval_eqb k) (heads rs)
    then Some (Dict (group n (tails_under k rs)))
    else None.
Proof.
  cbn [group].
  rewrite (dict_get_entries (fun k => Dict (group n (tails_under k rs)))).
  replace (existsb (pyval_eqb k) (first_seen (heads rs)))
    with (existsb (pyval_eqb k) (heads rs)); [reflexivity|].
  apply eq_true_iff_eq. rewrite !existsb_eqb_In. symmetry.
  apply in_first_seen.
Qed.

Lemma tails_under_lengths (n : nat) (k : pyval) (rs : list (list pyval)) :
  Forall (fun r => List.length r = S n) rs ->
  Forall (fun r => List.length r = n) (tails_under k rs).
Proof.
  induction 1 as [|r rs Hr Hrs IH]; [constructor|].
  unfold tails_under in *. cbn [flat_map].
  destruct r as [|x t]; [exact IH|].
  destruct (pyval_eqb x k); [|exact IH].
  constructor; [|exact IH]. cbn in Hr. lia.
Qed.

Lemma tails_under_present (k : pyval) (rs : list (list pyval)) :
  In k (heads rs) -> tails_under k rs <> [].
Proof.
  induction rs as [|r rs IH]; [intros []|].
  unfold heads, tails_under in *. cbn [flat_map].
  rewrite in_app_iff. intros [H | H].
  - destruct r as [|x t]; [destruct H|].
    destruct H as [-> | []]. rewrite pyval_eqb_refl. discriminate.
  - intros C. apply app_eq_nil in C. destruct C as [_ C]. exact (IH H C).
Qed.


Lemma pyval_eqb_sym (a b : pyval) : pyval_eqb a b = pyval_eqb b a.
Proof.
  destruct (pyval_eqb_spec a b), (pyval_eqb_spec b a); congruence.
Qed.

Lemma existsb_path_cons (x : pyval) (p : list pyval)
      (rs : list (list pyval)) :
  existsb (path_eqb (x :: p)) rs = existsb (path_eqb p) (tails_under x rs).
Proof.
  induction rs as [|r rs IH]; [reflexivity|].
  unfold tails_under in *. cbn [existsb flat_map].
  rewrite existsb_app, IH.
  destruct r as [|y t]; [reflexivity|].
  cbn [path_eqb]. rewrite (pyval_eqb_sym y x).
  destruct (pyval_eqb x y); cbn; rewrite ?orb_false_r; reflexivity.
Qed.

(** The nodes at full depth: present exactly under the key paths of the
    rows, and empty. *)
Lemma deref_group (n : nat) :
  forall (rs : list (list pyval)) (p : list pyval),
    Forall (fun r => List.length r = S n) rs ->
    List.length p = S n ->
    deref p (group (S n) rs)
    = if existsb (path_eqb p) rs then Some [] else None.
Proof.
  induction n as [|n IH]; intros rs p Hlen Hp;
    destruct p as [|x p]; try discriminate; injection Hp as Hp;
    cbn [deref]; rewrite dict_get_group, existsb_path_cons.
  - destruct p; [|discriminate].
    destruct (existsb (pyval_eqb x) (heads rs)) eqn:Hin.
    + apply existsb_eqb_In in Hin.
      pose proof (tails_under_present x rs Hin) as Hne.
      pose proof (tails_under_lengths 0 x rs Hlen) as Hl.
      destruct (tails_under x rs) as [|t ts]; [congruence|].
      inversion Hl as [|? ? Ht _]. subst.
      destruct t; [reflexivity | discriminate].
    + rewrite tails_under_absent; [reflexivity|].
      rewrite <- existsb_eqb_In. congruence.
  - destruct (existsb (pyval_eqb x) (heads rs)) eqn:Hin.
    + apply IH; [|exact Hp]. apply tails_under_lengths. exact Hlen.
    + rewrite tails_under_absent; [reflexivity|].
      rewrite <- existsb_eqb_In. congruence.
Qed.



Lemma rows_lengths (cats : list DataSeries.t) :
  Forall (fun r => List.length r = List.length cats) (rows cats).
Proof.
  destruct cats as [|first others]; [constructor|].
  unfold rows. apply Forall_forall. intros r Hr.
  apply in_map_iff in Hr. destruct Hr as (i & <- & _).
  unfold row. apply length_map.
Qed.

Lemma categorize_group (td first : DataSeries.t)
      (others : list DataSeries.t) :
  equal_lengths (first :: others) ->
  TemporalAccumulator.categorize td (first :: others)
  = Ok (group (List.length (first :: others)) (rows (first :: others))).
Proof.
  intros Hlen. rewrite (categorize_insert_all td first others Hlen).
  f_equal. apply insert_all_group. apply rows_lengths.
Qed.



Lemma py_index_beyond {A : Type} (l : list A) (i : nat) :
  (List.length l <= i)%nat -> py_index l (Z.of_nat i) = Raise IndexError.
Proof.
  intros H. unfold py_index, position.
  replace (Z.of_nat i <? 0) with false by (symmetry; apply Z.ltb_ge; lia).
  replace ((0 <=? Z.of_nat i) && (Z.of_nat i <? Z.of_nat (List.length l)))
    with false; [reflexivity|].
  symmetry. apply andb_false_iff. right. apply Z.ltb_ge. lia.
Qed.

(** The inner loop fails at a row that a later dimension does not
    have. *)
Lemma descend_short (subs : list DataSeries.t) (i : nat) :
  Exists (fun c => (DataSeries.len c <= i)%nat) subs ->
  forall (prev : list pyval) (root : items_t),
    TemporalAccumulator.descend subs i prev root = Raise IndexError.
Proof.
  induction subs as [|sub subs IH]; intros E prev root.
  - inversion E.
  - cbn [TemporalAccumulator.descend]. unfold DataSeries.getitem.
    destruct (le_lt_dec (DataSeries.len sub) i) as [Short | Long].
    + rewrite (py_index_beyond _ i Short). reflexivity.
    + rewrite (py_index_nat _ i (VInt 0) Long). cbn [bind].
      apply IH. inversion E as [? ? H | ? ? H]; subst; [|exact H].
      lia.
Qed.

Lemma rows_loop_long (first : DataSeries.t) (others : list DataSeries.t) :
  forall (remaining : list pyval) (i : nat) (root : items_t),
    skipn i (DataSeries.series first) = remaining ->
    Forall (fun c => (i + List.length remaining <= DataSeries.len c)%nat)
           others ->
    TemporalAccumulator.rows_loop (first :: others) remaining i root
    = Ok (insert_all (map (row (first :: others))
                          (seq i (List.length remaining))) root).
Proof.
  induction remaining as [|cv remaining IH]; intros i root Hskip Hlen.
  - reflexivity.
  - destruct (skipn_cons_nth _ _ _ _ (VInt 0) Hskip) as (Hi & Hnth & Hskip').
    cbn [TemporalAccumulator.rows_loop].
    fold (ensure_key cv root).
    assert (Step :
      (if (1 <? List.length (first :: others))%nat
       then TemporalAccumulator.descend (tl (first :: others)) i [cv]
                                        (ensure_key cv root)
       else Ok (ensure_key cv root))
      = Ok (insert_path (row (first :: others) i) root)).
    { unfold row at 1. cbn [map tl]. rewrite Hnth. fold (row others i).
      rewrite insert_path_cons.
      destruct others as [|o others].
      - replace (1 <? List.length [first])%nat with false by reflexivity.
        f_equal. symmetry. apply update_at_id. reflexivity.
      - replace (1 <? List.length (first :: o :: others))%nat with true
          by reflexivity.
        apply descend_spec.
        apply Forall_impl with (2 := Hlen).
        intros c Hc. cbn [List.length] in Hc. lia. }
    rewrite Step. cbn [bind].
    rewrite (IH (S i) _ Hskip'); [reflexivity|].
    apply Forall_impl with (2 := Hlen).
    intros c Hc. cbn [List.length] in Hc. lia.
Qed.

Lemma rows_loop_short (first : DataSeries.t) (others : list DataSeries.t) :
  forall (remaining : list pyval) (i : nat) (root : items_t),
    skipn i (DataSeries.series first) = remaining ->
    Forall (fun c => (i <= DataSeries.len c)%nat) others ->
    Exists (fun c => (DataSeries.len c < i + List.length remaining)%nat)
           others ->
    TemporalAccumulator.rows_loop (first :: others) remaining i root
    = Raise IndexError.
Proof.
  induction remaining as [|cv remaining IH]; intros i root Hskip Hge Hex.
  - exfalso. apply Exists_exists in Hex. destruct Hex as (c & Hc & Hlt).
    rewrite Forall_forall in Hge. specialize (Hge c Hc).
    cbn [List.length] in Hlt. lia.
  - destruct (skipn_cons_nth _ _ _ _ (VInt 0) Hskip) as (Hi & Hnth & Hskip').
    cbn [TemporalAccumulator.rows_loop].
    destruct others as [|o others]; [inversion Hex|].
    replace (1 <? List.length (first :: o :: others))%nat with true
      by reflexivity.
    cbn [tl].
    destruct (Exists_dec (fun c => (DataSeries.len c <= i)%nat) (o :: others))
      as [Short | Long].
    { intros c. apply le_dec. }
    + rewrite (descend_short _ i Short). reflexivity.
    + assert (Hgt : Forall (fun c => (S i <= DataSeries.len c)%nat)
                           (o :: others)).
      { apply Forall_forall. intros c Hc.
        destruct (le_lt_dec (DataSeries.len c) i) as [L | G]; [|exact G].
        exfalso. apply Long. apply Exists_exists. exists c. auto. }
      rewrite descend_spec by exact Hgt. cbn [bind].
      apply IH; [exact Hskip' | exact Hgt |].
      apply Exists_impl with (2 := Hex).
      intros c Hc. cbn [List.length] in Hc. lia.
Qed.

Lemma categorize_outcome (td first : DataSeries.t)
      (others : list DataSeries.t) :
  TemporalAccumulator.categorize td (first :: others) =
    if long_enough first others
    then Ok (group (List.length (first :: others)) (rows (first :: others)))
    else Raise IndexError.
Proof.
  unfold TemporalAccumulator.categorize, DataSeries.iter, long_enough.
  destruct (forallb _ others) eqn:L.
  - rewrite forallb_forall in L.
    rewrite (rows_loop_long first others (DataSeries.series first) 0 []
               eq_refl).
    + f_equal. apply insert_all_group. apply rows_lengths.
    + apply Forall_forall. intros c Hc. specialize (L c Hc).
      apply Nat.leb_le in L. unfold DataSeries.len in *. lia.
  - apply (rows_loop_short first others (DataSeries.series first) 0 []
             eq_refl).
    + apply Forall_forall. intros. lia.
    + assert (N : ~ forall c, In c others ->
                    (DataSeries.len first <=? DataSeries.len c)%nat = true).
      { intros C. rewrite <- forallb_forall in C. congruence. }
      apply Exists_exists.
      destruct (Exists_dec
                  (fun c => (DataSeries.len c < DataSeries.len first)%nat)
                  others) as [E | E].
      { intros c. apply lt_dec. }
      * apply Exists_exists in E. destruct E as (c & Hc & Hlt).
        exists c. split; [exact Hc|]. unfold DataSeries.len in *.
        cbn [Nat.add]. exact Hlt.
      * exfalso. apply N. intros c Hc. apply Nat.leb_le.
        destruct (le_lt_dec (DataSeries.len first) (DataSeries.len c));
          [assumption|].
        exfalso. apply E. apply Exists_exists. exists c. auto.
Qed.




(** C3 (amended): with zero category dimensions [categorize] returns a
    single entry under the key ["__all__"] that holds the values of the
    temporal dimension; with one or more dimensions of equal length it
    returns a grouping whose full key paths are exactly the key paths of
    the rows, each leaf being an empty dict. *)
Theorem categorize_leaves_are_row_paths :
  (forall td : DataSeries.t,
     TemporalAccumulator.categorize td []
     = Ok [(VStr "__all__", Series (DataSeries.series td))])
  /\ (forall (td first : DataSeries.t) (others : list DataSeries.t),
        equal_lengths (first :: others) ->
        exists root : items_t,
          TemporalAccumulator.categorize td (first :: others) = Ok root
          /\ forall p : list pyval,
               List.length p = List.length (first :: others) ->
               deref p root
               = if existsb (path_eqb p) (rows (first :: others))
                 then Some [] else None).
Proof.
  split; [reflexivity|].
  intros td first others Hlen.
  exists (group (List.length (first :: others)) (rows (first :: others))).
  split; [apply categorize_group; exact Hlen|].
  intros p Hp. cbn [List.length] in *.
  apply deref_group; [|exact Hp].
  apply (rows_lengths (first :: others)).
Qed.

Lemma categorize_leaves_are_row_paths_witness :
  exists root : items_t,
    TemporalAccumulator.categorize (DataSeries.mk [] Temporal)
                                   example_dimensions = Ok root
    /\ deref [VStr "a"; VStr "y"] root = Some []
    /\ deref [VStr "b"; VStr "y"] root = None.
Proof.
  destruct (proj2 categorize_leaves_are_row_paths
              (DataSeries.mk [] Temporal)
              (DataSeries.mk [VStr "a"; VStr "a"; VStr "b"] Categorical)
              [DataSeries.mk [VStr "x"; VStr "y"; VStr "x"] Categorical])
    as (root & Hroot & Hleaf).
  - repeat constructor.
  - exists root. split; [exact Hroot|]. split.
    + exact (Hleaf [VStr "a"; VStr "y"] eq_refl).
    + exact (Hleaf [VStr "b"; VStr "y"] eq_refl).
Defined.

(** The leaf of a one-dimension grouping is an empty dict, not the list
    of the positions of its rows; and the entry under ["__all__"] holds
    the temporal values, not the row positions. *)
Lemma categorize_holds_no_row_positions :
  TemporalAccumulator.categorize
    (DataSeries.mk [VDate (january 1)] Temporal)
    [DataSeries.mk [VStr "a"] Categorical]
  = Ok [(VStr "a", Dict [])]
  /\ dict_get (VStr "a") [(VStr "a", Dict [])] <> Some (Series [VInt 0])
  /\ TemporalAccumulator.categorize
       (DataSeries.mk [VDate (january 1)] Temporal) []
     = Ok [(VStr "__all__", Series [VDate (january 1)])]
  /\ TemporalAccumulator.categorize
       (DataSeries.mk [VDate (january 1)] Temporal) []
     <> Ok [(VStr "__all__", Series [VInt 0])].
Proof.
  repeat split; try reflexivity; cbn; discriminate.
Qed.

(* ================================================================== *)
(** * Further properties of Interval.next *)

Lemma unit_us_positive (u : TemporalBaseUnits) (k : Z) :
  unit_us u = Some k -> 0 < k.
Proof.
  destruct u; cbn; intros H; inversion H;
    unfold US_PER_DAY, US_PER_SECOND; lia.
Qed.

Lemma datetime_new_valid (y m d h mi s us : Z) (r : datetime) :
  datetime_new y m d h mi s us = Ok r -> valid r = true.
Proof.
  unfold datetime_new, valid.
  destruct (check_date_fields y m d) eqn:D; [|discriminate].
  destruct (check_time_fields h mi s us) eqn:T; [|discriminate].
  intros H. inversion H. cbn. rewrite D, T. reflexivity.
Qed.

Lemma replace_valid (self : datetime) (y m d : Z) (r : datetime) :
  replace self y m d = Ok r -> valid r = true.
Proof.
  unfold replace.
  destruct (fits_int y && fits_int m && fits_int d); [|discriminate].
  apply datetime_new_valid.
Qed.

(** What a successful step of fixed duration returns. *)
Lemma next_fixed_ok (u : TemporalBaseUnits) (k s : Z) (d r : datetime) :
  unit_us u = Some k -> valid d = true ->
  Interval.next (Interval.mk u s) d = Ok r ->
  valid r = true /\ to_us r = to_us d + s * k.
Proof.
  intros Hu V N. rewrite (next_fixed_duration u k s d Hu V) in N.
  destruct (Z.abs (s * k / US_PER_DAY) <=? 999999999); [|discriminate].
  cbn [andb] in N.
  destruct (representable (to_us d + s * k)) eqn:R; [|discriminate].
  inversion N. apply of_us_spec. exact R.
Qed.

(** A position reached from a valid datetime is reached by a timedelta
    that the constructor accepts. *)
Lemma span_accepted (a b : datetime) (delta : Z) :
  valid a = true -> valid b = true -> to_us b = to_us a + delta ->
  (Z.abs (delta / US_PER_DAY) <=? 999999999) = true.
Proof.
  intros Va Vb E.
  destruct (to_us_decompose a Va) as (ta & Ea & Ha).
  destruct (to_us_decompose b Vb) as (tb & Eb & Hb).
  pose proof (toordinal_range a Va). pose proof (toordinal_range b Vb).
  apply Z.leb_le.
  unfold MAXORDINAL, US_PER_DAY, US_PER_SECOND in *.
  assert (delta = (toordinal b - toordinal a) * 86400000000 + (tb - ta))
    by lia.
  apply Z.abs_le. zdm.
Qed.

Lemma valid_representable (d : datetime) :
  valid d = true -> representable (to_us d) = true.
Proof.
  intros V. unfold representable. rewrite (to_us_div d V).
  pose proof (toordinal_range d V).
  apply andb_true_iff. rewrite Z.ltb_lt, Z.leb_le. lia.
Qed.

(** X1: a step by a positive scalar of any supported unit returns a
    strictly later datetime, and a step by a negative scalar a strictly
    earlier one. *)
Theorem next_moves_in_the_direction_of_scalar
    (u : TemporalBaseUnits) (s : Z) (d r : datetime) :
  supported u = true -> valid d = true ->
  Interval.next (Interval.mk u s) d = Ok r ->
  (1 <= s -> datetime_lt d r = true)
  /\ (s <= -1 -> datetime_lt r d = true).
Proof.
  intros Hs V N.
  destruct (unit_us u) as [k|] eqn:Hu.
  - destruct (next_fixed_ok u k s d r Hu V N) as [Vr Er].
    pose proof (unit_us_positive u k Hu) as Hk.
    split; intros S.
    + apply (datetime_lt_to_us _ _ V Vr). nia.
    + apply (datetime_lt_to_us _ _ Vr V). nia.
  - destruct u; try discriminate.
    + (* Months *)
      rewrite (next_months s d V) in N. cbv zeta in N.
      set (t := month d - 1 + s) in *.
      destruct ((1 <=? year d + t / 12) && (year d + t / 12 <=? 9999));
        [|discriminate].
      inversion N. subst r. clear N.
      apply valid_iff in V. destruct V as [(Hy & Hm & Hd) _].
      assert (M : 1 <= t mod 12 + 1 <= 12) by zdm.
      assert (E : 12 * (year d + t / 12) + (t mod 12 + 1)
                  = 12 * year d + month d + s) by (subst t; zdm).
      unfold datetime_lt, datetime_compare, fields.
      cbn [year month day hour minute second microsecond].
      rewrite (lex_compare_merge _ _ _ _ _ _ Hm M).
      rewrite (lex_compare_merge _ _ _ _ _ _ M Hm).
      rewrite E. cbn [lex_compare].
      split; intros S.
      * replace (12 * year d + month d ?= 12 * year d + month d + s) with Lt;
          [reflexivity|].
        symmetry. apply Z.compare_lt_iff. lia.
      * replace (12 * year d + month d + s ?= 12 * year d + month d) with Lt;
          [reflexivity|].
        symmetry. apply Z.compare_lt_iff. lia.
    + (* Years *)
      rewrite (next_years s d V) in N. cbv zeta in N.
      destruct ((1 <=? year d + s) && (year d + s <=? 9999)); [|discriminate].
      assert (Y : year r = year d + s).
      { destruct ((month d =? 2) && (day d =? 29) && negb (is_leap (year d + s)));
          inversion N; reflexivity. }
      unfold datetime_lt, datetime_compare, fields. cbn [lex_compare].
      rewrite Y.
      split; intros S.
      * replace (year d ?= year d + s) with Lt; [reflexivity|].
        symmetry. apply Z.compare_lt_iff. lia.
      * replace (year d + s ?= year d) with Lt; [reflexivity|].
        symmetry. apply Z.compare_lt_iff. lia.
Qed.

Lemma next_moves_in_the_direction_of_scalar_witness :
  datetime_lt (january 31) (mkdatetime 2025 2 28 0 0 0 0) = true.
Proof.
  apply (proj1 (next_moves_in_the_direction_of_scalar
                  Months 1 (january 31) (mkdatetime 2025 2 28 0 0 0 0)
                  eq_refl eq_refl eq_refl)).
  lia.
Defined.

(** X2: a step by the scalar 0 of any supported unit returns the
    datetime it was given. *)
Theorem next_by_zero_is_identity (u : TemporalBaseUnits) (d : datetime) :
  supported u = true -> valid d = true ->
  Interval.next (Interval.mk u 0) d = Ok d.
Proof.
  intros Hs V.
  destruct (unit_us u) as [k|] eqn:Hu.
  - rewrite (next_fixed_duration u k 0 d Hu V).
    change (0 * k) with 0. rewrite Z.add_0_r.
    rewrite (valid_representable d V). cbn.
    rewrite (of_us_to_us d V). reflexivity.
  - pose proof V as V'. apply valid_iff in V'.
    destruct V' as [(Hy & Hm & Hd) _].
    destruct u; try discriminate.
    + rewrite (next_months 0 d V). cbv zeta.
      replace ((month d - 1 + 0) / 12) with 0 by zdm.
      replace ((month d - 1 + 0) mod 12 + 1) with (month d) by zdm.
      rewrite Z.add_0_r.
      replace ((1 <=? year d) && (year d <=? 9999)) with true
        by (symmetry; apply andb_true_iff; rewrite !Z.leb_le; lia).
      rewrite Z.min_l by lia. destruct d; reflexivity.
    + rewrite (next_years 0 d V). cbv zeta. rewrite Z.add_0_r.
      replace ((1 <=? year d) && (year d <=? 9999)) with true
        by (symmetry; apply andb_true_iff; rewrite !Z.leb_le; lia).
      destruct ((month d =? 2) && (day d =? 29) && negb (is_leap (year d)))
        eqn:C; [|destruct d; reflexivity].
      exfalso.
      apply andb_true_iff in C. destruct C as [C L].
      apply andb_true_iff in C. destruct C as [Cm Cd].
      apply negb_true_iff in L. bool_to_prop.
      replace (days_in_month (year d) (month d)) with 28 in Hd
        by (unfold days_in_month; rewrite Cm, L; reflexivity).
      lia.
Qed.

Lemma next_by_zero_is_identity_witness :
  Interval.next (Interval.mk Months 0) (january 31) = Ok (january 31).
Proof.
  apply (next_by_zero_is_identity Months (january 31)); reflexivity.
Defined.

(** Validity is preserved by every branch of [next]: the fixed units go
    through [timedelta] addition, months and years through [replace],
    which checks the fields. *)
Lemma next_valid (u : TemporalBaseUnits) (s : Z) (d r : datetime) :
  valid d = true ->
  Interval.next (Interval.mk u s) d = Ok r ->
  valid r = true.
Proof.
  intros V N.
  destruct (unit_us u) as [k|] eqn:Hu.
  - exact (proj1 (next_fixed_ok u k s d r Hu V N)).
  - destruct u; try discriminate.
    + unfold Interval.next in N. cbn [Interval.unit Interval.scalar] in N.
      exact (replace_valid _ _ _ _ r N).
    + unfold Interval.next in N. cbn [Interval.unit Interval.scalar] in N.
      unfold try_except_ValueError in N.
      destruct (replace d (year d + s) (month d) (day d))
        as [r1 | [] | ] eqn:N1; try discriminate.
      * inversion N. subst. exact (replace_valid _ _ _ _ r N1).
      * exact (replace_valid _ _ _ _ r N).
Qed.

(** X3: whatever the unit and the scalar, a step that returns gives a
    datetime that exists: month 1..12, day within the month, year
    1..9999, time of day in range. *)
Theorem next_returns_valid_datetime
    (u : TemporalBaseUnits) (s : Z) (d r : datetime) :
  valid d = true ->
  Interval.next (Interval.mk u s) d = Ok r ->
  valid r = true.
Proof.
  intros V N.
  eapply next_valid; [exact V | exact N].
Qed.

Lemma next_returns_valid_datetime_witness :
  valid (mkdatetime 2025 2 28 0 0 0 0) = true.
Proof.
  apply (next_returns_valid_datetime Months 1 (january 31)
           (mkdatetime 2025 2 28 0 0 0 0)); reflexivity.
Defined.

Lemma next_months_unclamped (s : Z) (d : datetime) :
  valid d = true -> day d <= 28 ->
  Interval.next (Interval.mk Months s) d =
    let t := month d - 1 + s in
    if (1 <=? year d + t / 12) && (year d + t / 12 <=? 9999)
    then Ok (mkdatetime (year d + t / 12) (t mod 12 + 1) (day d)
                        (hour d) (minute d) (second d) (microsecond d))
    else Raise (year_error (year d + t / 12)).
Proof.
  intros V D. rewrite (next_months s d V). cbv zeta.
  set (t := month d - 1 + s).
  assert (M : 1 <= t mod 12 + 1 <= 12) by zdm.
  pose proof (days_in_month_range (year d + t / 12) _ M).
  rewrite Z.min_l by lia. reflexivity.
Qed.

Lemma next_years_unclamped (s : Z) (d : datetime) :
  valid d = true -> day d <= 28 ->
  Interval.next (Interval.mk Years s) d =
    if (1 <=? year d + s) && (year d + s <=? 9999)
    then Ok (mkdatetime (year d + s) (month d) (day d)
                        (hour d) (minute d) (second d) (microsecond d))
    else Raise (year_error (year d + s)).
Proof.
  intros V D. rewrite (next_years s d V). cbv zeta.
  replace (day d =? 29) with false by (symmetry; apply Z.eqb_neq; lia).
  rewrite andb_false_r. reflexivity.
Qed.

(** X4: two steps of the same unit add up to one step by the sum of the
    scalars, for the units of fixed duration and, on a day of month up to
    28, for months and years. *)
Theorem next_steps_add
    (u : TemporalBaseUnits) (a b : Z) (d r r' : datetime) :
  supported u = true -> valid d = true ->
  fixed_duration u = true \/ day d <= 28 ->
  Interval.next (Interval.mk u a) d = Ok r ->
  Interval.next (Interval.mk u b) r = Ok r' ->
  Interval.next (Interval.mk u (a + b)) d = Ok r'.
Proof.
  intros Hs V Hc N1 N2.
  pose proof (next_valid u a d r V N1) as Vr.
  destruct (unit_us u) as [k|] eqn:Hu.
  - destruct (next_fixed_ok u k a d r Hu V N1) as [_ E1].
    destruct (next_fixed_ok u k b r r' Hu Vr N2) as [Vr' E2].
    rewrite (next_fixed_duration u k (a + b) d Hu V).
    assert (E : to_us r' = to_us d + (a + b) * k) by lia.
    rewrite (span_accepted d r' _ V Vr' E). cbn [andb].
    rewrite <- E, (valid_representable r' Vr'), (of_us_to_us r' Vr').
    reflexivity.
  - assert (D : day d <= 28).
    { destruct Hc as [F | D]; [|exact D].
      unfold fixed_duration in F. rewrite Hu in F. discriminate. }
    destruct u; try discriminate.
    + rewrite (next_months_unclamped a d V D) in N1. cbv zeta in N1.
      set (t := month d - 1 + a) in *.
      destruct ((1 <=? year d + t / 12) && (year d + t / 12 <=? 9999));
        [|discriminate].
      inversion N1. subst r. clear N1.
      rewrite (next_months_unclamped b _ Vr D) in N2. cbv zeta in N2.
      cbn [year month day hour minute second microsecond] in N2.
      rewrite (next_months_unclamped (a + b) d V D). cbv zeta.
      replace (year d + (month d - 1 + (a + b)) / 12)
        with (year d + t / 12 + (t mod 12 + 1 - 1 + b) / 12)
        by (subst t; zdm).
      replace ((month d - 1 + (a + b)) mod 12)
        with ((t mod 12 + 1 - 1 + b) mod 12)
        by (subst t; zdm).
      exact N2.
    + rewrite (next_years_unclamped a d V D) in N1.
      destruct ((1 <=? year d + a) && (year d + a <=? 9999)); [|discriminate].
      inversion N1. subst r. clear N1.
      rewrite (next_years_unclamped b _ Vr D) in N2.
      cbn [year month day hour minute second microsecond] in N2.
      rewrite (next_years_unclamped (a + b) d V D).
      rewrite Z.add_assoc. exact N2.
Qed.

Lemma next_steps_add_witness :
  Interval.next (Interval.mk Hours (20 + 10)) (january 1)
  = Ok (mkdatetime 2025 1 2 6 0 0 0).
Proof.
  apply (next_steps_add Hours 20 10 (january 1)
           (mkdatetime 2025 1 1 20 0 0 0) (mkdatetime 2025 1 2 6 0 0 0));
    try reflexivity.
  left. reflexivity.
Defined.

(** X5: a step can be undone: after a successful step by a scalar, the
    step by the opposite scalar returns the original datetime, for the
    units of fixed duration and, on a day of month up to 28, for months
    and years. *)
Theorem next_round_trip
    (u : TemporalBaseUnits) (s : Z) (d r : datetime) :
  supported u = true -> valid d = true ->
  fixed_duration u = true \/ day d <= 28 ->
  Interval.next (Interval.mk u s) d = Ok r ->
  Interval.next (Interval.mk u (- s)) r = Ok d.
Proof.
  intros Hs V Hc N.
  pose proof (next_valid u s d r V N) as Vr.
  pose proof V as V'. apply valid_iff in V'.
  destruct V' as [(Hy & Hm & Hd) _].
  destruct (unit_us u) as [k|] eqn:Hu.
  - destruct (next_fixed_ok u k s d r Hu V N) as [_ E].
    rewrite (next_fixed_duration u k (- s) r Hu Vr).
    assert (E' : to_us d = to_us r + - s * k) by lia.
    rewrite (span_accepted r d _ Vr V E'). cbn [andb].
    rewrite <- E', (valid_representable d V), (of_us_to_us d V).
    reflexivity.
  - assert (D : day d <= 28).
    { destruct Hc as [F | D]; [|exact D].
      unfold fixed_duration in F. rewrite Hu in F. discriminate. }
    destruct u; try discriminate.
    + rewrite (next_months_unclamped s d V D) in N. cbv zeta in N.
      set (t := month d - 1 + s) in *.
      destruct ((1 <=? year d + t / 12) && (year d + t / 12 <=? 9999));
        [|discriminate].
      inversion N. subst r. clear N.
      rewrite (next_months_unclamped (- s) _ Vr D). cbv zeta.
      cbn [year month day hour minute second microsecond].
      replace (year d + t / 12 + (t mod 12 + 1 - 1 + - s) / 12)
        with (year d) by (subst t; zdm).
      replace ((t mod 12 + 1 - 1 + - s) mod 12 + 1)
        with (month d) by (subst t; zdm).
      replace ((1 <=? year d) && (year d <=? 9999)) with true
        by (symmetry; apply andb_true_iff; rewrite !Z.leb_le; lia).
      destruct d; reflexivity.
    + rewrite (next_years_unclamped s d V D) in N.
      destruct ((1 <=? year d + s) && (year d + s <=? 9999)); [|discriminate].
      inversion N. subst r. clear N.
      rewrite (next_years_unclamped (- s) _ Vr D).
      cbn [year month day hour minute second microsecond].
      replace (year d + s + - s) with (year d) by lia.
      replace ((1 <=? year d) && (year d <=? 9999)) with true
        by (symmetry; apply andb_true_iff; rewrite !Z.leb_le; lia).
      destruct d; reflexivity.
Qed.

Lemma next_round_trip_witness :
  Interval.next (Interval.mk Weeks (- 2)) (january 15) = Ok (january 1).
Proof.
  apply (next_round_trip Weeks 2 (january 1) (january 15));
    try reflexivity.
  left. reflexivity.
Defined.

(** A clamped month step is not undone: 31 January, one month forward
    and one month back, is 28 January. *)
Lemma next_clamped_round_trip_fails :
  Interval.next (Interval.mk Months 1) (january 31)
  = Ok (mkdatetime 2025 2 28 0 0 0 0)
  /\ Interval.next (Interval.mk Months (- 1)) (mkdatetime 2025 2 28 0 0 0 0)
     = Ok (january 28).
Proof. split; reflexivity. Qed.

(** X6: a step of 12 k months is the step of k years: the two branches
    reach the same year and month and clamp 29 February alike, and they
    fail alike when the target year is outside 1..9999. *)
Theorem next_twelve_months_is_a_year (k : Z) (d : datetime) :
  valid d = true ->
  Interval.next (Interval.mk Months (12 * k)) d
  = Interval.next (Interval.mk Years k) d.
Proof.
  intros V. rewrite (next_months (12 * k) d V), (next_years k d V).
  cbv zeta.
  apply valid_iff in V. destruct V as [(Hy & Hm & Hd) _].
  replace ((month d - 1 + 12 * k) / 12) with k by zdm.
  replace ((month d - 1 + 12 * k) mod 12 + 1) with (month d) by zdm.
  destruct ((1 <=? year d + k) && (year d + k <=? 9999)); [|reflexivity].
  unfold days_in_month in *.
  destruct (month d =? 2) eqn:M2; cbn [andb] in *.
  - bool_to_prop. rewrite M2 in Hd |- *.
    destruct (is_leap (year d)), (is_leap (year d + k));
      cbn [negb andb]; tables; revert Hd; tables; intros Hd.
    + rewrite andb_false_r. rewrite Z.min_l by lia. reflexivity.
    + destruct (day d =? 29) eqn:D29; bool_to_prop.
      * rewrite D29. reflexivity.
      * rewrite Z.min_l by lia. reflexivity.
    + rewrite andb_false_r. rewrite Z.min_l by lia. reflexivity.
    + replace (day d =? 29) with false by (symmetry; apply Z.eqb_neq; lia).
      rewrite Z.min_l by lia. reflexivity.
  - rewrite Z.min_l by lia. reflexivity.
Qed.

Lemma next_twelve_months_is_a_year_witness :
  Interval.next (Interval.mk Months (12 * 1)) (mkdatetime 2024 2 29 0 0 0 0)
  = Interval.next (Interval.mk Years 1) (mkdatetime 2024 2 29 0 0 0 0).
Proof.
  apply (next_twelve_months_is_a_year 1 (mkdatetime 2024 2 29 0 0 0 0)).
  reflexivity.
Defined.

(** X7: the units of fixed duration are exact multiples of one another,
    whatever the calendar: a week is 7 days, a day 24 hours, an hour 60
    minutes, a minute 60 seconds and a second 1000 milliseconds, also in
    the way the step fails. *)
Theorem next_unit_conversions (s : Z) (d : datetime) :
  Interval.next (Interval.mk Weeks s) d
  = Interval.next (Interval.mk Days (7 * s)) d
  /\ Interval.next (Interval.mk Days s) d
     = Interval.next (Interval.mk Hours (24 * s)) d
  /\ Interval.next (Interval.mk Hours s) d
     = Interval.next (Interval.mk Minutes (60 * s)) d
  /\ Interval.next (Interval.mk Minutes s) d
     = Interval.next (Interval.mk Seconds (60 * s)) d
  /\ Interval.next (Interval.mk Seconds s) d
     = Interval.next (Interval.mk Milliseconds (1000 * s)) d.
Proof.
  unfold Interval.next. cbn [Interval.unit Interval.scalar].
  unfold timedelta_new, US_PER_SECOND.
  repeat split;
    match goal with
    | |- (_ <- timedelta_of_us ?x ;; _) = (_ <- timedelta_of_us ?y ;; _) =>
        replace x with y by lia; reflexivity
    end.
Qed.

(** X8: when a step fails.  A step of fixed duration succeeds exactly
    when the position it reaches lies in the years 1 to 9999 and raises
    [OverflowError] otherwise.  A month or year step succeeds exactly
    when its target year lies in 1 to 9999; outside, it raises
    [ValueError] when the target year fits a C [int] and
    [OverflowError], which the [except ValueError] of the year step does
    not catch, when it does not.  Any other unit raises [ValueError]. *)
Theorem next_failures (u : TemporalBaseUnits) (s : Z) (d : datetime) :
  valid d = true ->
  (forall k, unit_us u = Some k ->
     Interval.next (Interval.mk u s) d =
       if representable (to_us d + s * k)
       then Ok (of_us (to_us d + s * k))
       else Raise OverflowError)
  /\ (u = Months \/ u = Years ->
      let y' := match u with
                | Months => year d + (month d - 1 + s) / 12
                | _ => year d + s
                end in
      (1 <= y' <= 9999 -> exists r, Interval.next (Interval.mk u s) d = Ok r)
      /\ (~ 1 <= y' <= 9999 -> INT_MIN <= y' <= INT_MAX ->
          Interval.next (Interval.mk u s) d = Raise ValueError)
      /\ (~ INT_MIN <= y' <= INT_MAX ->
          Interval.next (Interval.mk u s) d = Raise OverflowError))
  /\ (supported u = false ->
      Interval.next (Interval.mk u s) d = Raise ValueError).
Proof.
  intros V. split; [|split].
  - intros k Hu. rewrite (next_fixed_duration u k s d Hu V).
    destruct (representable (to_us d + s * k)) eqn:R;
      [|rewrite andb_false_r; reflexivity].
    destruct (of_us_spec _ R) as [Vr Er].
    rewrite (span_accepted d _ (s * k) V Vr Er). reflexivity.
  - assert (E : forall y' : Z,
              (~ 1 <= y' <= 9999 -> (1 <=? y') && (y' <=? 9999) = false)
              /\ (~ 1 <= y' <= 9999 -> INT_MIN <= y' <= INT_MAX ->
                  year_error y' = ValueError)
              /\ (~ INT_MIN <= y' <= INT_MAX ->
                  (1 <=? y') && (y' <=? 9999) = false
                  /\ year_error y' = OverflowError)).
    { intros y'. unfold year_error, INT_MIN, INT_MAX.
      split; [|split].
      - intros H. destruct ((1 <=? y') && (y' <=? 9999)) eqn:C;
          [|reflexivity].
        bool_to_prop. lia.
      - intros _ H. rewrite fits_int_small by exact H. reflexivity.
      - intros H.
        destruct (fits_int y') eqn:F.
        + apply fits_int_iff in F. contradiction.
        + split; [apply outside_int_outside_years; exact F | reflexivity]. }
    intros [-> | ->]; intros y'; destruct (E y') as (E1 & E2 & E3).
    + rewrite (next_months s d V). cbv zeta. fold y'.
      split; [|split].
      * intros H.
        replace ((1 <=? y') && (y' <=? 9999)) with true
          by (symmetry; apply andb_true_iff; rewrite !Z.leb_le; lia).
        eexists. reflexivity.
      * intros H F. rewrite (E1 H), (E2 H F). reflexivity.
      * intros H. destruct (E3 H) as [-> ->]. reflexivity.
    + rewrite (next_years s d V). cbv zeta. fold y'.
      split; [|split].
      * intros H.
        replace ((1 <=? y') && (y' <=? 9999)) with true
          by (symmetry; apply andb_true_iff; rewrite !Z.leb_le; lia).
        destruct ((month d =? 2) && (day d =? 29) && negb (is_leap y'));
          eexists; reflexivity.
      * intros H F. rewrite (E1 H), (E2 H F). reflexivity.
      * intros H. destruct (E3 H) as [-> ->]. reflexivity.
  - destruct u; try discriminate. reflexivity.
Qed.

Lemma next_failures_witness :
  Interval.next (Interval.mk Days 1) (mkdatetime 9999 12 31 0 0 0 0)
  = Raise OverflowError
  /\ Interval.next (Interval.mk Years 1) (mkdatetime 9999 12 31 0 0 0 0)
     = Raise ValueError
  /\ Interval.next (Interval.mk Years 2147483648) (january 1)
     = Raise OverflowError.
Proof.
  destruct (next_failures Days 1 (mkdatetime 9999 12 31 0 0 0 0) eq_refl)
    as (F & _).
  destruct (next_failures Years 1 (mkdatetime 9999 12 31 0 0 0 0) eq_refl)
    as (_ & Y & _).
  destruct (next_failures Years 2147483648 (january 1) eq_refl)
    as (_ & Y' & _).
  split; [|split].
  - rewrite (F US_PER_DAY eq_refl). vm_compute. reflexivity.
  - apply (proj1 (proj2 (Y (or_intror eq_refl)))).
    + cbn. lia.
    + unfold INT_MIN, INT_MAX. cbn. lia.
  - apply (proj2 (proj2 (Y' (or_intror eq_refl)))).
    unfold INT_MIN, INT_MAX. cbn. lia.
Defined.

(* ================================================================== *)
(** * Further properties of Calendar *)

Lemma generate_dates_ok (a b : datetime) (l : list datetime) :
  valid a = true -> valid b = true ->
  Calendar.generate_dates a b = Ok l ->
  l = daily_range a b
  /\ representable (to_us a + Z.of_nat (days_in_range a b) * US_PER_DAY)
     = true.
Proof.
  intros Va Vb G. rewrite (generate_dates_spec a b Va Vb) in G.
  destruct (representable _); [|discriminate].
  inversion G. auto.
Qed.

Lemma days_in_range_spec (a b : datetime) (i : nat) :
  valid a = true -> valid b = true ->
  ((i < days_in_range a b)%nat
   <-> to_us a + Z.of_nat i * US_PER_DAY <= to_us b).
Proof.
  intros Va Vb. unfold days_in_range.
  destruct (datetime_le a b) eqn:L.
  - apply (datetime_le_to_us _ _ Va Vb) in L.
    unfold US_PER_DAY, US_PER_SECOND in *. split; intros H; zdm.
  - assert (~ to_us a <= to_us b).
    { intros C. apply (datetime_le_to_us _ _ Va Vb) in C. congruence. }
    unfold US_PER_DAY, US_PER_SECOND in *. split; intros; lia.
Qed.

Lemma nth_error_daily_range (a b : datetime) (i : nat) :
  nth_error (daily_range a b) i =
    if (i <? days_in_range a b)%nat then Some (plus_days a i) else None.
Proof.
  unfold daily_range.
  destruct (i <? days_in_range a b)%nat eqn:C.
  - apply Nat.ltb_lt in C.
    rewrite nth_error_map, nth_error_seq.
    apply Nat.ltb_lt in C. rewrite C. reflexivity.
  - apply Nat.ltb_ge in C. apply nth_error_None.
    rewrite length_map, length_seq. exact C.
Qed.

(** An instant of a generated range. *)
Lemma range_instant (a b : datetime) (l : list datetime) (i : nat)
      (x : datetime) :
  valid a = true -> valid b = true ->
  Calendar.generate_dates a b = Ok l ->
  nth_error l i = Some x ->
  (i < days_in_range a b)%nat
  /\ x = plus_days a i
  /\ valid x = true
  /\ to_us x = to_us a + Z.of_nat i * US_PER_DAY.
Proof.
  intros Va Vb G N.
  destruct (generate_dates_ok a b l Va Vb G) as [-> R].
  rewrite nth_error_daily_range in N.
  destruct (i <? days_in_range a b)%nat eqn:C; [|discriminate].
  apply Nat.ltb_lt in C. inversion N. subst x.
  assert (Ri : representable (to_us a + Z.of_nat i * US_PER_DAY) = true).
  { apply representable_downward
      with (u' := to_us a + Z.of_nat (days_in_range a b) * US_PER_DAY).
    - pose proof (valid_to_us_ge a Va).
      unfold US_PER_DAY, US_PER_SECOND in *. lia.
    - unfold US_PER_DAY, US_PER_SECOND. lia.
    - exact R. }
  destruct (of_us_spec _ Ri) as [Vx Ex].
  unfold plus_days. auto.
Qed.

(** X9: what [generate_dates] returns.  The i-th date is the start
    moved by i whole days; the dates are exactly those instants that are
    not after the end, so the first is the start, consecutive dates are
    one day apart and the end is less than a day after the last one. *)
Theorem generate_dates_contents (a b : datetime) (l : list datetime) :
  valid a = true -> valid b = true ->
  Calendar.generate_dates a b = Ok l ->
  (forall (i : nat) (x : datetime),
     nth_error l i = Some x ->
     valid x = true
     /\ to_us x = to_us a + Z.of_nat i * US_PER_DAY
     /\ datetime_le x b = true)
  /\ (forall i : nat,
        to_us a + Z.of_nat i * US_PER_DAY <= to_us b ->
        nth_error l i = Some (plus_days a i))
  /\ (datetime_le a b = true -> hd_error l = Some a)
  /\ to_us b < to_us a + Z.of_nat (List.length l) * US_PER_DAY.
Proof.
  intros Va Vb G. split; [|split; [|split]].
  - intros i x N.
    destruct (range_instant a b l i x Va Vb G N) as (Hi & _ & Vx & Ex).
    repeat split; try assumption.
    apply (datetime_le_to_us _ _ Vx Vb). rewrite Ex.
    apply (days_in_range_spec a b i Va Vb). exact Hi.
  - intros i Hi. apply (days_in_range_spec a b i Va Vb) in Hi.
    destruct (generate_dates_ok a b l Va Vb G) as [-> _].
    rewrite nth_error_daily_range.
    apply Nat.ltb_lt in Hi. rewrite Hi. reflexivity.
  - intros L.
    destruct (generate_dates_ok a b l Va Vb G) as [-> _].
    unfold daily_range, days_in_range. rewrite L. cbn [seq map hd_error].
    unfold plus_days. rewrite Z.mul_0_l, Z.add_0_r.
    rewrite (of_us_to_us a Va). reflexivity.
  - destruct (generate_dates_ok a b l Va Vb G) as [-> _].
    unfold daily_range. rewrite length_map, length_seq.
    destruct (Z_lt_le_dec (to_us b)
                (to_us a + Z.of_nat (days_in_range a b) * US_PER_DAY))
      as [Lt | Le]; [exact Lt|].
    apply (days_in_range_spec a b _ Va Vb) in Le. lia.
Qed.

Lemma generate_dates_contents_witness :
  hd_error [january 1; january 2] = Some (january 1).
Proof.
  apply (generate_dates_contents (january 1) (january 2)
           [january 1; january 2]); vm_compute; reflexivity.
Defined.

(** X10: when the generation fails.  For valid instants it raises
    [OverflowError] exactly when the range is not empty, the end falls
    on 31 December 9999 and the time of day of the start is not after
    that of the end; otherwise it returns the range. *)
Theorem generate_dates_overflow (a b : datetime) :
  valid a = true -> valid b = true ->
  (Calendar.generate_dates a b = Raise OverflowError
   <-> datetime_le a b = true
       /\ toordinal b = MAXORDINAL
       /\ time_of_day a <= time_of_day b)
  /\ (Calendar.generate_dates a b <> Raise OverflowError ->
      Calendar.generate_dates a b = Ok (daily_range a b)).
Proof.
  intros Va Vb. rewrite (generate_dates_spec a b Va Vb).
  pose proof (toordinal_range a Va) as Oa.
  pose proof (toordinal_range b Vb) as Ob.
  pose proof Va as Ta. apply valid_iff in Ta. destruct Ta as [_ Ta].
  pose proof Vb as Tb. apply valid_iff in Tb. destruct Tb as [_ Tb].
  assert (Ea : to_us a = toordinal a * US_PER_DAY + time_of_day a)
    by (unfold to_us, time_of_day; lia).
  assert (Eb : to_us b = toordinal b * US_PER_DAY + time_of_day b)
    by (unfold to_us, time_of_day; lia).
  assert (Ha : 0 <= time_of_day a < US_PER_DAY)
    by (unfold time_of_day, US_PER_DAY, US_PER_SECOND; lia).
  assert (Hb : 0 <= time_of_day b < US_PER_DAY)
    by (unfold time_of_day, US_PER_DAY, US_PER_SECOND; lia).
  unfold days_in_range, representable.
  destruct (datetime_le a b) eqn:L.
  - apply (datetime_le_to_us _ _ Va Vb) in L.
    rewrite Ea, Eb in *.
    set (ta := time_of_day a) in *. set (tb := time_of_day b) in *.
    set (oa := toordinal a) in *. set (ob := toordinal b) in *.
    clearbody ta tb oa ob.
    unfold MAXORDINAL, US_PER_DAY, US_PER_SECOND in *.
    match goal with
    | |- context [if ?c then _ else _] => destruct c eqn:R
    end.
    + split; [|reflexivity].
      split; [discriminate|]. intros (_ & E & T).
      exfalso. bool_to_prop. zdm.
    + split; [|congruence].
      split; [|reflexivity]. intros _.
      split; [reflexivity|].
      apply andb_false_iff in R. rewrite Z.ltb_ge, Z.leb_gt in R. zdm.
  - replace (to_us a + Z.of_nat 0 * US_PER_DAY) with (to_us a) by lia.
    replace ((0 <? to_us a / US_PER_DAY) && (to_us a / US_PER_DAY <=? MAXORDINAL))
      with true by (symmetry; apply (valid_representable a Va)).
    split; [|reflexivity].
    split; [discriminate|]. intros (C & _). discriminate.
Qed.

Lemma generate_dates_overflow_witness :
  Calendar.generate_dates (mkdatetime 9999 12 30 0 0 0 0)
                          (mkdatetime 9999 12 31 0 0 0 0)
  = Raise OverflowError.
Proof.
  apply (proj1 (generate_dates_overflow (mkdatetime 9999 12 30 0 0 0 0)
                  (mkdatetime 9999 12 31 0 0 0 0) eq_refl eq_refl)).
  repeat split; vm_compute; congruence.
Defined.

(** X11: consecutive dates of a calendar are one step of the default
    interval of the accumulator apart. *)
Theorem calendar_steps_by_default_interval
    (a b : datetime) (l : list datetime) (i : nat) (x y : datetime) :
  valid a = true -> valid b = true ->
  Calendar.generate_dates a b = Ok l ->
  nth_error l i = Some x -> nth_error l (S i) = Some y ->
  Interval.next TemporalAccumulator.default_interval x = Ok y.
Proof.
  intros Va Vb G Nx Ny.
  destruct (range_instant a b l i x Va Vb G Nx) as (_ & _ & Vx & Ex).
  destruct (range_instant a b l (S i) y Va Vb G Ny) as (_ & _ & Vy & Ey).
  unfold TemporalAccumulator.default_interval.
  rewrite (next_fixed_duration Days US_PER_DAY 1 x eq_refl Vx).
  assert (E : to_us y = to_us x + 1 * US_PER_DAY) by lia.
  rewrite <- E.
  rewrite (valid_representable y Vy), (of_us_to_us y Vy). reflexivity.
Qed.

Lemma calendar_steps_by_default_interval_witness :
  Interval.next TemporalAccumulator.default_interval (january 1)
  = Ok (january 2).
Proof.
  apply (calendar_steps_by_default_interval (january 1) (january 2)
           [january 1; january 2] 0 (january 1) (january 2));
    vm_compute; reflexivity.
Defined.

(** X12: the date generation terminates for every pair of valid
    instants: the loop runs at most once per day between the ordinals of
    start and end and once more, and any larger amount of fuel gives the
    same result. *)
Theorem generate_dates_terminates_within_fuel (a b : datetime) (fuel : nat) :
  valid a = true -> valid b = true ->
  (Calendar.fuel_for a b <= fuel)%nat ->
  Calendar.generate_loop fuel a b [] = Calendar.generate_dates a b
  /\ Calendar.generate_dates a b <> OutOfFuel.
Proof.
  intros Va Vb F.
  pose proof (days_in_range_fuel a b Va Vb) as B.
  rewrite (generate_dates_spec a b Va Vb).
  rewrite (generate_loop_spec b (days_in_range a b) Vb fuel a [] Va eq_refl)
    by lia.
  split; [reflexivity|].
  destruct (representable _); discriminate.
Qed.

Lemma generate_dates_terminates_within_fuel_witness :
  Calendar.generate_loop 10 (january 1) (january 3) []
  = Calendar.generate_dates (january 1) (january 3).
Proof.
  apply (generate_dates_terminates_within_fuel (january 1) (january 3) 10);
    try reflexivity.
  vm_compute. lia.
Defined.

(* ================================================================== *)
(** * Further properties of Calendar.fromstr *)

Lemma in_form_shape (p : list atom) (s : string) :
  in_form p s = true -> match_prefix p s = Some EmptyString.
Proof.
  unfold in_form.
  destruct (match_prefix p s) as [[|c r]|]; try discriminate. reflexivity.
Qed.

(** X13: a string that the date-only pattern accepts is read as the same
    string followed by T00:00:00: the same instant at midnight, or the
    same failure. *)
Theorem fromstr_date_only_is_midnight (s : string) :
  re_match DATE_RE s = true ->
  Calendar.fromstr s = Calendar.fromstr (s ++ "T00:00:00")
  /\ forall d, Calendar.fromstr s = Ok d -> time_of_day d = 0.
Proof.
  intros R. rewrite !fromstr_denotation.
  unfold re_match in R.
  destruct (match_prefix DATE_RE s) as [r|] eqn:P; [|discriminate].
  apply at_dollar_cases in R.
  unfold DATE_RE in P. shape P.
  unfold denotation, in_form.
  destruct R as [-> | ->]; run.
  - split.
    + repeat match goal with
        | |- context [10 * (10 * 0 + digit_val ?a) + digit_val ?b] =>
            let v := eval vm_compute in
                       (10 * (10 * 0 + digit_val a) + digit_val b) in
            match v with
            | Z0 => change (10 * (10 * 0 + digit_val a) + digit_val b) with 0
            end
        end.
      change (check_time_fields 0 0 0 0) with true.
      rewrite andb_true_r. reflexivity.
    + intros d.
      destruct (check_date_fields _ _ _); [|discriminate].
      intros H. inversion H. reflexivity.
  - split; [reflexivity | discriminate].
Qed.

Lemma fromstr_date_only_is_midnight_witness :
  Calendar.fromstr "2025-03-05" = Calendar.fromstr "2025-03-05T00:00:00".
Proof.
  apply (fromstr_date_only_is_midnight "2025-03-05"). reflexivity.
Defined.

Lemma digit_char_spec (k : Z) :
  is_digit (digit_char k) = true /\ digit_val (digit_char k) = k mod 10.
Proof.
  unfold digit_char.
  assert (H : k mod 10 = 0 \/ k mod 10 = 1 \/ k mod 10 = 2 \/ k mod 10 = 3
              \/ k mod 10 = 4 \/ k mod 10 = 5 \/ k mod 10 = 6
              \/ k mod 10 = 7 \/ k mod 10 = 8 \/ k mod 10 = 9) by zdm.
  repeat (destruct H as [H | H]; [rewrite H; split; reflexivity|]).
  rewrite H. split; reflexivity.
Qed.

Ltac name_digits :=
  repeat match goal with
  | |- context [digit_char ?k] =>
      let c := fresh "c" in
      let M := fresh "M" in
      let D := fresh "D" in
      destruct (digit_char_spec k) as [M D];
      set (c := digit_char k) in *; clearbody c
  end.

(** X14: reading back what was written.  A valid datetime without
    microseconds written as YYYY-MM-DDTHH:MM:SS is read back by
    [fromstr] as the same datetime, and so is a midnight written as
    YYYY-MM-DD; written with a blank between date and time, as [str()]
    and [print] do, it is refused. *)
Theorem fromstr_reads_isoformat (d : datetime) :
  valid d = true -> microsecond d = 0 ->
  Calendar.fromstr (isoformat "T" d) = Ok d
  /\ (time_of_day d = 0 -> Calendar.fromstr (isoformat_date d) = Ok d)
  /\ Calendar.fromstr (isoformat " " d) = Raise ValueError.
Proof.
  intros V U.
  pose proof V as V'. apply valid_iff in V'.
  destruct V' as [(Hy & Hm & Hd) (Hh & Hmi & Hs & Hus)].
  pose proof (days_in_month_range (year d) (month d) Hm) as Hdim.
  assert (Y : forall c0 c1 c2 c3,
             digit_val c0 = (year d / 1000) mod 10 ->
             digit_val c1 = (year d / 100) mod 10 ->
             digit_val c2 = (year d / 10) mod 10 ->
             digit_val c3 = year d mod 10 ->
             10 * (10 * (10 * (10 * 0 + digit_val c0) + digit_val c1)
                   + digit_val c2) + digit_val c3 = year d).
  { intros c0 c1 c2 c3 -> -> -> ->.
    assert (E2 : year d / 100 = year d / 10 / 10)
      by (rewrite Z.div_div by lia; reflexivity).
    assert (E3 : year d / 1000 = year d / 10 / 10 / 10)
      by (rewrite !Z.div_div by lia; reflexivity).
    rewrite E2, E3. zdm. }
  assert (T : forall n c0 c1,
             digit_val c0 = (n / 10) mod 10 -> digit_val c1 = n mod 10 ->
             0 <= n <= 99 ->
             10 * (10 * 0 + digit_val c0) + digit_val c1 = n).
  { intros n c0 c1 -> -> Hn. zdm. }
  assert (Vd : check_date_fields (year d) (month d) (day d) = true)
    by (apply check_date_fields_iff; lia).
  assert (Vt : check_time_fields (hour d) (minute d) (second d) 0 = true)
    by (apply check_time_fields_iff; lia).
  rewrite !fromstr_denotation.
  unfold isoformat, isoformat_date, isoformat_time, four_digits, two_digits,
         denotation, in_form.
  cbn [String.append]. name_digits.
  split; [|split].
  - run.
    erewrite Y by eassumption.
    erewrite !T by (eassumption || lia).
    rewrite Vd, Vt. cbn [andb]. destruct d. cbn in *. subst. reflexivity.
  - intros Tod. run.
    erewrite Y by eassumption.
    erewrite !T by (eassumption || lia).
    rewrite Vd.
    assert (hour d = 0 /\ minute d = 0 /\ second d = 0)
      by (unfold time_of_day, US_PER_SECOND in Tod; lia).
    destruct d. cbn in *. intuition subst. reflexivity.
  - run. reflexivity.
Qed.

Lemma fromstr_reads_isoformat_witness :
  Calendar.fromstr "2025-01-31T23:59:58"
  = Ok (mkdatetime 2025 1 31 23 59 58 0).
Proof.
  apply (fromstr_reads_isoformat (mkdatetime 2025 1 31 23 59 58 0));
    reflexivity.
Defined.

(** X15: a line end is not tolerated.  The patterns of [fromstr] accept
    a string in either form followed by one newline, because [$] matches
    before a final newline, but the conversion then fails: [fromstr]
    raises [ValueError] on it. *)
Theorem fromstr_rejects_trailing_newline (p : list atom) (s : string) :
  p = DATE_RE \/ p = DATETIME_RE ->
  in_form p s = true ->
  re_match p (s ++ String newline EmptyString) = true
  /\ Calendar.fromstr (s ++ String newline EmptyString) = Raise ValueError.
Proof.
  intros Hp F. apply in_form_shape in F.
  rewrite fromstr_denotation. unfold denotation, in_form, re_match.
  destruct Hp as [-> | ->].
  - unfold DATE_RE in F. shape F. run. split; reflexivity.
  - unfold DATETIME_RE, DATE_RE in F. shape F. run. split; reflexivity.
Qed.

Lemma fromstr_rejects_trailing_newline_witness :
  Calendar.fromstr ("2025-03-05" ++ String newline EmptyString)
  = Raise ValueError.
Proof.
  apply (fromstr_rejects_trailing_newline DATE_RE "2025-03-05").
  - left. reflexivity.
  - reflexivity.
Defined.

(* ================================================================== *)
(** * Further properties of TemporalAccumulator.__init__ *)

Section InitFacts.

Variable V : Type.
Variable iterate : V -> list pyval.
Variable same_key : DataSeries.t + pyval -> DataSeries.t + pyval -> bool.
Variable unfinished_assignment :
  list ((DataSeries.t + pyval) * V) -> pyval ->
  outcome (list ((DataSeries.t + pyval) * V)).

Let init :=
  TemporalAccumulator.init V iterate same_key unfinished_assignment.

(** X16: an explicit calendar without dates is not used.  A calendar
    whose end precedes its start is built without error and is empty;
    passed to the constructor it counts as false, and the accumulator
    is built exactly as if no calendar had been given. *)
Theorem init_replaces_empty_calendar
    (td : DataSeries.t) (cats quants : TemporalAccumulator.series_arg)
    (sm : option (list StaticMap)) (iv : Interval.t)
    (start end_ : datetime) :
  datetime_lt end_ start = true ->
  exists c : Calendar.t,
    Calendar.init (VDate start) (VDate end_) = Ok c
    /\ Calendar.series c = []
    /\ init td cats quants sm (Some c) iv = init td cats quants sm None iv.
Proof.
  intros H. apply datetime_lt_not_le in H.
  exists (Calendar.mk start end_ [] Temporal).
  split; [|split; reflexivity].
  unfold Calendar.init. cbn [Calendar.instant bind].
  unfold Calendar.generate_dates, Calendar.fuel_for.
  cbn [Calendar.generate_loop]. rewrite H. reflexivity.
Qed.

(** X17: an empty temporal dimension.  Without a usable calendar the
    constructor fails with [IndexError] on [series[0]], before the
    categories are looked at; with an explicit calendar that has dates
    and no category dimension it succeeds. *)
Theorem init_empty_temporal_dimension
    (td : DataSeries.t) (cats quants : TemporalAccumulator.series_arg)
    (sm : option (list StaticMap)) (iv : Interval.t) :
  DataSeries.series td = [] ->
  init td cats quants sm None iv = Raise IndexError
  /\ (forall c : Calendar.t,
        Calendar.series c = [] ->
        init td cats quants sm (Some c) iv = Raise IndexError)
  /\ (forall c : Calendar.t,
        Calendar.series c <> [] ->
        TemporalAccumulator.as_list cats = [] ->
        exists acc, init td cats quants sm (Some c) iv = Ok acc
                    /\ TemporalAccumulator.calendar acc = c).
Proof.
  intros E. unfold init. rewrite !init_outcome.
  assert (D : TemporalAccumulator.default_calendar td = Raise IndexError).
  { unfold TemporalAccumulator.default_calendar. rewrite E. reflexivity. }
  split; [|split].
  - cbn [TemporalAccumulator.calendar_or_default]. rewrite D. reflexivity.
  - intros c Hc. rewrite init_outcome.
    unfold TemporalAccumulator.calendar_or_default, Calendar.truthy.
    rewrite Hc, D. reflexivity.
  - intros c Hc Hcats. rewrite init_outcome.
    unfold TemporalAccumulator.calendar_or_default, Calendar.truthy.
    destruct (Calendar.series c) as [|x l] eqn:S; [congruence|].
    cbn. rewrite Hcats. eexists. split; reflexivity.
Qed.

(** X18: a lone empty series given as categories counts as no category
    at all, because the series is tested for truth; the same series
    inside a list is a category dimension, and the construction then
    fails in [accumulate] with [KeyError]. *)
Theorem init_lone_empty_category
    (td c : DataSeries.t) (quants : TemporalAccumulator.series_arg)
    (sm : option (list StaticMap)) (cal : option Calendar.t)
    (iv : Interval.t) (k : Calendar.t) :
  DataSeries.series c = [] ->
  TemporalAccumulator.calendar_or_default td cal = Ok k ->
  init td (TemporalAccumulator.ArgOne c) quants sm cal iv
  = init td TemporalAccumulator.ArgNone quants sm cal iv
  /\ (exists acc,
        init td (TemporalAccumulator.ArgOne c) quants sm cal iv = Ok acc
        /\ TemporalAccumulator.catagories acc = [])
  /\ init td (TemporalAccumulator.ArgList [c]) quants sm cal iv
     = Raise KeyError.
Proof.
  intros E K. unfold init. rewrite !init_outcome, K. cbn [bind].
  unfold TemporalAccumulator.as_list, DataSeries.truthy, DataSeries.len.
  rewrite E. cbn.
  split; [reflexivity|]. split; [|reflexivity].
  eexists. split; reflexivity.
Qed.

End InitFacts.

Lemma init_replaces_empty_calendar_witness :
  exists c : Calendar.t,
    Calendar.init (VDate (january 3)) (VDate (january 1)) = Ok c
    /\ Calendar.series c = []
    /\ init_example (DataSeries.mk [VDate (january 1)] Temporal)
         TemporalAccumulator.ArgNone TemporalAccumulator.ArgNone None
         (Some c) TemporalAccumulator.default_interval
       = init_example (DataSeries.mk [VDate (january 1)] Temporal)
           TemporalAccumulator.ArgNone TemporalAccumulator.ArgNone None
           None TemporalAccumulator.default_interval.
Proof.
  apply (init_replaces_empty_calendar Datatypes.unit (fun _ => [])
           (fun _ _ => false) (fun m _ => Ok m)).
  reflexivity.
Defined.

Lemma init_empty_temporal_dimension_witness :
  init_example (DataSeries.mk [] Temporal)
    (TemporalAccumulator.ArgOne (DataSeries.mk [VStr "a"] Categorical))
    TemporalAccumulator.ArgNone None None
    TemporalAccumulator.default_interval
  = Raise IndexError.
Proof.
  apply (init_empty_temporal_dimension Datatypes.unit (fun _ => [])
           (fun _ _ => false) (fun m _ => Ok m)).
  reflexivity.
Defined.

Lemma init_lone_empty_category_witness :
  init_example (DataSeries.mk [VDate (january 1)] Temporal)
    (TemporalAccumulator.ArgList [DataSeries.mk [] Categorical])
    TemporalAccumulator.ArgNone None None
    TemporalAccumulator.default_interval
  = Raise KeyError.
Proof.
  apply (init_lone_empty_category Datatypes.unit (fun _ => [])
           (fun _ _ => false) (fun m _ => Ok m)
           (DataSeries.mk [VDate (january 1)] Temporal)
           (DataSeries.mk [] Categorical)
           TemporalAccumulator.ArgNone None None
           TemporalAccumulator.default_interval
           (Calendar.mk (january 1) (january 1) [january 1] Temporal)).
  - reflexivity.
  - vm_compute. reflexivity.
Defined.

(* ================================================================== *)
(** * Further properties of TemporalAccumulator.categorize *)

(** X19: when [categorize] fails.  With at least one dimension it
    raises [IndexError] exactly when some later dimension is shorter than
    the first; otherwise it returns the grouping of the rows of the first
    dimension, and the rows that a longer dimension has beyond them are
    ignored. *)
Theorem categorize_fails_on_short_dimension
    (td first : DataSeries.t) (others : list DataSeries.t) :
  (Exists (fun c => (DataSeries.len c < DataSeries.len first)%nat) others ->
   TemporalAccumulator.categorize td (first :: others) = Raise IndexError)
  /\ (Forall (fun c => (DataSeries.len first <= DataSeries.len c)%nat) others ->
      TemporalAccumulator.categorize td (first :: others)
      = Ok (group (List.length (first :: others)) (rows (first :: others)))
      /\ List.length (rows (first :: others)) = DataSeries.len first).
Proof.
  rewrite categorize_outcome. unfold long_enough. split.
  - intros E. apply Exists_exists in E. destruct E as (c & Hc & Hlt).
    destruct (forallb _ others) eqn:L; [|reflexivity].
    rewrite forallb_forall in L. specialize (L c Hc).
    apply Nat.leb_le in L. lia.
  - intros F. split.
    + replace (forallb _ others) with true; [reflexivity|].
      symmetry. apply forallb_forall. intros c Hc.
      rewrite Forall_forall in F. apply Nat.leb_le. exact (F c Hc).
    + unfold rows. rewrite length_map, length_seq. reflexivity.
Qed.

Lemma categorize_fails_on_short_dimension_witness :
  TemporalAccumulator.categorize (DataSeries.mk [] Temporal)
    [DataSeries.mk [VStr "a"; VStr "b"] Categorical;
     DataSeries.mk [VStr "x"] Categorical]
  = Raise IndexError.
Proof.
  apply (proj1 (categorize_fails_on_short_dimension
                  (DataSeries.mk [] Temporal)
                  (DataSeries.mk [VStr "a"; VStr "b"] Categorical)
                  [DataSeries.mk [VStr "x"] Categorical])).
  constructor. cbn. lia.
Defined.

Lemma deref_group_keys_unique (p : list pyval) :
  forall (n : nat) (rs : list (list pyval)) (sub : items_t),
    deref p (group n rs) = Some sub -> NoDup (dict_keys sub).
Proof.
  induction p as [|x p IH]; intros n rs sub H.
  - cbn in H. inversion H. subst sub.
    destruct n as [|n]; [constructor|].
    rewrite dict_keys_group. apply NoDup_first_seen.
  - destruct n as [|n]; [discriminate|].
    cbn [deref] in H. rewrite dict_get_group in H.
    destruct (existsb (pyval_eqb x) (heads rs)); [|discriminate].
    exact (IH _ _ _ H).
Qed.

(** X20: no key occurs twice.  In the grouping that [categorize]
    returns, the keys of every dict, at every level, are pairwise
    different. *)
Theorem categorize_keys_are_unique
    (td : DataSeries.t) (cats : list DataSeries.t) (root : items_t)
    (p : list pyval) (sub : items_t) :
  TemporalAccumulator.categorize td cats = Ok root ->
  deref p root = Some sub ->
  NoDup (dict_keys sub).
Proof.
  intros C D. destruct cats as [|first others].
  - cbn in C. inversion C. subst root.
    destruct p as [|x p].
    + cbn in D. inversion D. cbn. constructor; [intros []|constructor].
    + cbn [deref dict_get] in D.
      destruct (pyval_eqb (VStr "__all__") x); discriminate.
  - rewrite categorize_outcome in C.
    destruct (long_enough first others); [|discriminate].
    assert (E : root = group (List.length (first :: others))
                             (rows (first :: others))) by congruence.
    rewrite E in D.
    exact (deref_group_keys_unique p _ _ sub D).
Qed.

Lemma categorize_keys_are_unique_witness :
  NoDup [VStr "x"; VStr "y"].
Proof.
  apply (categorize_keys_are_unique (DataSeries.mk [] Temporal)
           example_dimensions
           [(VStr "a", Dict [(VStr "x", Dict []); (VStr "y", Dict [])]);
            (VStr "b", Dict [(VStr "x", Dict [])])]
           [VStr "a"] [(VStr "x", Dict []); (VStr "y", Dict [])]);
    reflexivity.
Defined.

(* ================================================================== *)
(** * Properties of the DataSeries container *)

Lemma in_range_iff (n i : Z) :
  0 <= n ->
  ((0 <=? position n i) && (position n i <? n) = true <-> - n <= i < n).
Proof.
  intros Hn. unfold position.
  rewrite andb_true_iff, Z.leb_le, Z.ltb_lt.
  destruct (i <? 0) eqn:E; bool_to_prop; lia.
Qed.

Lemma in_range_dec (n i : Z) :
  0 <= n ->
  {(0 <=? position n i) && (position n i <? n) = true /\ - n <= i < n}
  + {(0 <=? position n i) && (position n i <? n) = false
     /\ ~ - n <= i < n}.
Proof.
  intros Hn.
  destruct ((0 <=? position n i) && (position n i <? n)) eqn:E.
  - left. split; [reflexivity|]. apply in_range_iff; assumption.
  - right. split; [reflexivity|]. intros C.
    apply (in_range_iff n i Hn) in C. congruence.
Qed.

Lemma py_index_position {A : Type} (l : list A) (i : Z) :
  py_index l i =
    let n := Z.of_nat (List.length l) in
    if (0 <=? position n i) && (position n i <? n)
    then match nth_error l (Z.to_nat (position n i)) with
         | Some x => Ok x
         | None => Raise IndexError
         end
    else Raise IndexError.
Proof. reflexivity. Qed.

Lemma nth_error_in_range {A : Type} (l : list A) (j : Z) :
  0 <= j < Z.of_nat (List.length l) ->
  exists x, nth_error l (Z.to_nat j) = Some x.
Proof.
  intros H.
  destruct (nth_error l (Z.to_nat j)) as [x|] eqn:E; [eauto|].
  apply nth_error_None in E. lia.
Qed.

(** X21: the affinity of a series is fixed at construction: no sequence
    of calls of the methods that change the series changes it, and a
    slice has the affinity of the series it is taken from. *)
Theorem affinity_is_never_changed
    (self self' : DataSeries.t) (calls : list DataSeries.call) :
  DataSeries.perform_all calls self = Ok self' ->
  DataSeries.affinity self' = DataSeries.affinity self
  /\ forall start stop,
       DataSeries.affinity (DataSeries.getslice self' start stop)
       = DataSeries.affinity self.
Proof.
  intros H.
  assert (A : DataSeries.affinity self' = DataSeries.affinity self).
  { revert self H. induction calls as [|c calls IH]; intros self H.
    - cbn in H. inversion H. reflexivity.
    - cbn [DataSeries.perform_all] in H.
      destruct (DataSeries.perform c self) as [s1| |] eqn:P;
        cbn [bind] in H; try discriminate.
      rewrite (IH s1 H).
      destruct c; cbn [DataSeries.perform] in P.
      + unfold DataSeries.setitem in P.
        destruct (list_setitem _ _ _); cbn [bind] in P; inversion P.
        reflexivity.
      + unfold DataSeries.delitem in P.
        destruct (list_delitem _ _); cbn [bind] in P; inversion P.
        reflexivity.
      + inversion P. reflexivity.
      + inversion P. reflexivity.
      + unfold DataSeries.insert in P.
        destruct (list_insert _ _ _); cbn [bind] in P; inversion P.
        reflexivity.
      + unfold DataSeries.pop in P.
        destruct (list_pop _ _); cbn [bind] in P; inversion P.
        reflexivity.
      + inversion P. reflexivity. }
  split; [exact A|]. intros start stop. exact A.
Qed.

Lemma affinity_is_never_changed_witness :
  DataSeries.affinity (DataSeries.mk [VInt 7] Numerical) = Numerical.
Proof.
  apply (affinity_is_never_changed
           (DataSeries.mk [VInt 1] Numerical)
           (DataSeries.mk [VInt 7] Numerical)
           [DataSeries.Append (VInt 2); DataSeries.Pop 0;
            DataSeries.SetItem (-1) (VInt 7)]).
  reflexivity.
Defined.

Lemma fits_ssize_t_iff (z : Z) :
  fits_ssize_t z = true <-> PY_SSIZE_T_MIN <= z <= PY_SSIZE_T_MAX.
Proof.
  unfold fits_ssize_t. rewrite andb_true_iff, !Z.leb_le. tauto.
Qed.

(** An index of a list that CPython holds, or one past its end, fits a
    [Py_ssize_t]. *)
Lemma index_fits (self : DataSeries.t) (i : Z) :
  storable self ->
  - Z.of_nat (DataSeries.len self) <= i <= Z.of_nat (DataSeries.len self) ->
  fits_ssize_t i = true.
Proof.
  unfold storable. intros St H. apply fits_ssize_t_iff.
  unfold PY_SSIZE_T_MIN, PY_SSIZE_T_MAX in *. lia.
Qed.

(** X22: index bounds.  Reading, writing and deleting at an integer
    index succeed exactly for the indices from -len to len - 1 and raise
    [IndexError] for every other index; so does [pop], except that an
    index that does not fit a [Py_ssize_t] raises [OverflowError]
    instead.  In particular every one of them fails on an empty
    series. *)
Theorem index_bounds (self : DataSeries.t) (index : Z) (value : pyval) :
  let n := Z.of_nat (DataSeries.len self) in
  (- n <= index < n ->
   (exists x, DataSeries.getitem self index = Ok x)
   /\ (exists s, DataSeries.setitem self index value = Ok s)
   /\ (exists s, DataSeries.delitem self index = Ok s)
   /\ (storable self -> exists r, DataSeries.pop self index = Ok r))
  /\ (~ - n <= index < n ->
      DataSeries.getitem self index = Raise IndexError
      /\ DataSeries.setitem self index value = Raise IndexError
      /\ DataSeries.delitem self index = Raise IndexError
      /\ DataSeries.pop self index
         = Raise (if fits_ssize_t index then IndexError else OverflowError)).
Proof.
  intros n. split.
  - intros H.
    assert (F : storable self -> fits_ssize_t index = true).
    { intros St. apply (index_fits self index St). fold n. lia. }
    unfold DataSeries.getitem, DataSeries.setitem, DataSeries.delitem,
           DataSeries.pop, list_setitem, list_delitem, list_pop.
    rewrite py_index_position. cbv zeta.
    unfold DataSeries.len in n. fold n.
    destruct (in_range_dec n index ltac:(lia)) as [[E _] | [_ C]];
      [|contradiction].
    rewrite E; cbn [bind].
    destruct (nth_error_in_range (DataSeries.series self)
                                 (position n index)) as [x Hx].
    { unfold position. destruct (index <? 0) eqn:S; bool_to_prop; lia. }
    rewrite Hx. cbn [bind].
    repeat split; try (eexists; reflexivity).
    intros St. rewrite (F St). cbn [bind]. eexists. reflexivity.
  - intros H.
    unfold DataSeries.getitem, DataSeries.setitem, DataSeries.delitem,
           DataSeries.pop, list_setitem, list_delitem, list_pop.
    rewrite py_index_position. cbv zeta.
    unfold DataSeries.len in n. fold n.
    destruct (in_range_dec n index ltac:(lia)) as [[_ C] | [E _]];
      [contradiction|].
    rewrite E; cbn [bind].
    repeat split. destruct (fits_ssize_t index); reflexivity.
Qed.

Lemma index_bounds_witness :
  DataSeries.pop (DataSeries.mk [] Numerical) (-1) = Raise IndexError
  /\ DataSeries.pop (DataSeries.mk [VInt 1] Numerical) 18446744073709551616
     = Raise OverflowError.
Proof.
  split.
  - apply (proj2 (index_bounds (DataSeries.mk [] Numerical) (-1) (VInt 0))).
    cbn. lia.
  - apply (proj2 (index_bounds (DataSeries.mk [VInt 1] Numerical)
                               18446744073709551616 (VInt 0))).
    cbn. lia.
Defined.

(** X23: what is put in can be taken out.  [pop()] after [append(v)]
    returns [v] and leaves the series as it was; [insert(i, v)] with
    0 <= i <= len succeeds, and afterwards the value at [i] is [v], and
    deleting or popping at [i] restores the series. *)
Theorem append_insert_round_trip
    (self : DataSeries.t) (i : Z) (v : pyval) :
  DataSeries.pop (DataSeries.append self v) (-1) = Ok (v, self)
  /\ (storable self ->
      0 <= i <= Z.of_nat (DataSeries.len self) ->
      exists inserted : DataSeries.t,
        DataSeries.insert self i v = Ok inserted
        /\ DataSeries.getitem inserted i = Ok v
        /\ DataSeries.delitem inserted i = Ok self
        /\ DataSeries.pop inserted i = Ok (v, self)).
Proof.
  split.
  - destruct self as [l a]. unfold DataSeries.len. cbn [DataSeries.series].
    unfold DataSeries.pop, DataSeries.append, list_pop, position.
    cbn [DataSeries.series DataSeries.affinity].
    replace (fits_ssize_t (-1)) with true by reflexivity.
    rewrite length_app. cbn [List.length].
    replace (-1 <? 0) with true by reflexivity.
    replace (-1 + Z.of_nat (List.length l + 1)) with (Z.of_nat (List.length l))
      by lia.
    replace ((0 <=? Z.of_nat (List.length l))
             && (Z.of_nat (List.length l) <? Z.of_nat (List.length l + 1)))
      with true
      by (symmetry; apply andb_true_iff; rewrite Z.leb_le, Z.ltb_lt; lia).
    rewrite Nat2Z.id.
    rewrite nth_error_app2 by lia. rewrite Nat.sub_diag. cbn [nth_error bind].
    rewrite firstn_app, Nat.sub_diag, firstn_all. cbn [firstn].
    rewrite skipn_all2 by (rewrite length_app; cbn; lia).
    rewrite !app_nil_r. reflexivity.
  - intros St Hi.
    assert (F : fits_ssize_t i = true) by (apply (index_fits self i St); lia).
    destruct self as [l a]. unfold DataSeries.len in Hi.
    cbn [DataSeries.series] in Hi.
    unfold DataSeries.insert, list_insert.
    cbn [DataSeries.series DataSeries.affinity]. rewrite F. cbn [bind].
    eexists. split; [reflexivity|].
    unfold DataSeries.getitem, DataSeries.delitem, DataSeries.pop,
           list_delitem, list_pop.
    rewrite py_index_position. cbv zeta.
    cbn [DataSeries.series DataSeries.affinity]. rewrite F.
    replace (i <? 0) with false by (symmetry; apply Z.ltb_ge; lia).
    rewrite Z.min_l by lia.
    set (k := Z.to_nat i).
    assert (Hk : (k <= List.length l)%nat) by lia.
    assert (Hlen : List.length (firstn k l) = k)
      by (rewrite length_firstn; lia).
    rewrite length_app. cbn [List.length]. rewrite Hlen, length_skipn.
    unfold position.
    replace (i <? 0) with false by (symmetry; apply Z.ltb_ge; lia).
    replace ((0 <=? i) && (i <? Z.of_nat (k + S (List.length l - k))))
      with true
      by (symmetry; apply andb_true_iff; rewrite Z.leb_le, Z.ltb_lt; lia).
    fold k.
    rewrite nth_error_app2 by lia. rewrite Hlen, Nat.sub_diag.
    cbn [nth_error bind].
    rewrite firstn_app, Hlen, Nat.sub_diag. cbn [firstn].
    rewrite app_nil_r.
    rewrite (firstn_all2 (n := k) (firstn k l)) by lia.
    rewrite skipn_app, Hlen.
    rewrite (skipn_all2 (n := S k) (firstn k l)) by lia.
    replace (S k - k)%nat with 1%nat by lia. cbn [skipn app].
    rewrite firstn_skipn. repeat split; reflexivity.
Qed.

Lemma append_insert_round_trip_witness :
  exists inserted : DataSeries.t,
    DataSeries.insert (DataSeries.mk [VInt 1; VInt 3] Numerical) 1 (VInt 2)
    = Ok inserted
    /\ DataSeries.getitem inserted 1 = Ok (VInt 2)
    /\ DataSeries.delitem inserted 1
       = Ok (DataSeries.mk [VInt 1; VInt 3] Numerical)
    /\ DataSeries.pop inserted 1
       = Ok (VInt 2, DataSeries.mk [VInt 1; VInt 3] Numerical).
Proof.
  apply (proj2 (append_insert_round_trip
                  (DataSeries.mk [VInt 1; VInt 3] Numerical) 1 (VInt 2))).
  - unfold storable, PY_SSIZE_T_MAX. cbn. lia.
  - cbn. lia.
Defined.

(** X24: reading after writing.  After a successful [series[i] = v],
    position [i] holds [v], every other position holds what it held, and
    the length is unchanged. *)
Theorem setitem_then_getitem
    (self self' : DataSeries.t) (i : Z) (v : pyval) :
  DataSeries.setitem self i v = Ok self' ->
  let n := Z.of_nat (DataSeries.len self) in
  DataSeries.getitem self' i = Ok v
  /\ DataSeries.len self' = DataSeries.len self
  /\ forall j : Z,
       position n j <> position n i ->
       DataSeries.getitem self' j = DataSeries.getitem self j.
Proof.
  destruct self as [l a].
  unfold DataSeries.setitem, DataSeries.getitem, DataSeries.len, list_setitem.
  cbn [DataSeries.series DataSeries.affinity]. cbv zeta.
  remember (Z.of_nat (List.length l)) as n eqn:Hn.
  destruct (in_range_dec n i ltac:(lia)) as [[E H] | [E H]]; rewrite E;
    cbn [bind]; [|discriminate].
  assert (Hpos : 0 <= position n i < n).
  { unfold position. destruct (i <? 0) eqn:C; bool_to_prop; lia. }
  remember (Z.to_nat (position n i)) as k eqn:Hk'.
  intros S. inversion S. subst self'. clear S.
  cbn [DataSeries.series].
  change (match l with [] => [] | _ :: l0 => skipn k l0 end)
    with (skipn (S k) l).
  assert (Hk : (k < List.length l)%nat) by lia.
  assert (Hf : List.length (firstn k l) = k) by (rewrite length_firstn; lia).
  assert (Hlen : List.length (firstn k l ++ v :: skipn (S k) l)
                 = List.length l).
  { rewrite length_app. cbn [List.length]. rewrite Hf, length_skipn. lia. }
  split; [|split].
  - rewrite py_index_position. cbv zeta. rewrite Hlen, <- Hn, E, <- Hk'.
    rewrite nth_error_app2 by lia. rewrite Hf, Nat.sub_diag.
    reflexivity.
  - exact Hlen.
  - intros j Hj. rewrite !py_index_position. cbv zeta. rewrite Hlen, <- Hn.
    destruct (in_range_dec n j ltac:(lia)) as [[Ej Hjr] | [Ej Hjr]];
      rewrite Ej; [|reflexivity].
    assert (Hposj : 0 <= position n j < n).
    { unfold position. destruct (j <? 0) eqn:C; bool_to_prop; lia. }
    remember (Z.to_nat (position n j)) as m eqn:Hm'.
    assert (Hm : m <> k) by lia.
    replace (nth_error (firstn k l ++ v :: skipn (S k) l) m)
      with (nth_error l m); [reflexivity|].
    destruct (Nat.lt_ge_cases m k) as [Lt | Ge].
    + rewrite nth_error_app1 by lia.
      rewrite nth_error_firstn.
      apply Nat.ltb_lt in Lt. rewrite Lt. reflexivity.
    + rewrite nth_error_app2 by lia. rewrite Hf.
      destruct (m - k)%nat as [|d] eqn:D; [lia|].
      cbn [nth_error]. rewrite nth_error_skipn. f_equal. lia.
Qed.

Lemma setitem_then_getitem_witness :
  DataSeries.getitem (DataSeries.mk [VInt 1; VInt 9] Numerical) (-1)
  = Ok (VInt 9).
Proof.
  apply (setitem_then_getitem (DataSeries.mk [VInt 1; VInt 2] Numerical)
           (DataSeries.mk [VInt 1; VInt 9] Numerical) (-1) (VInt 9)).
  reflexivity.
Defined.

(** X25: how the length changes.  [append] adds one element, [extend]
    adds as many as it is given, [clear] leaves none; [insert] succeeds
    exactly when its index fits a [Py_ssize_t], and then adds one
    element, and raises [OverflowError] otherwise; a successful [pop] or
    [del] removes exactly one. *)
Theorem length_bookkeeping
    (self : DataSeries.t) (i : Z) (v : pyval) (values : list pyval) :
  DataSeries.len (DataSeries.append self v) = S (DataSeries.len self)
  /\ (fits_ssize_t i = true ->
      exists self', DataSeries.insert self i v = Ok self'
                    /\ DataSeries.len self' = S (DataSeries.len self))
  /\ (fits_ssize_t i = false ->
      DataSeries.insert self i v = Raise OverflowError)
  /\ DataSeries.len (DataSeries.extend self values)
     = (DataSeries.len self + List.length values)%nat
  /\ DataSeries.len (DataSeries.clear self) = 0%nat
  /\ (forall x self', DataSeries.pop self i = Ok (x, self') ->
        S (DataSeries.len self') = DataSeries.len self)
  /\ (forall self', DataSeries.delitem self i = Ok self' ->
        S (DataSeries.len self') = DataSeries.len self).
Proof.
  destruct self as [l a].
  unfold DataSeries.len, DataSeries.append, DataSeries.insert,
         DataSeries.extend, DataSeries.clear, DataSeries.pop,
         DataSeries.delitem, list_insert, list_pop, list_delitem.
  cbn [DataSeries.series DataSeries.affinity]. cbv zeta.
  set (n := Z.of_nat (List.length l)).
  assert (Removed : forall k : nat,
            (k < List.length l)%nat ->
            S (List.length (firstn k l ++ skipn (S k) l)) = List.length l).
  { intros k Hk. rewrite length_app, length_firstn, length_skipn. lia. }
  split; [|split; [|split; [|split; [|split; [|split]]]]].
  - rewrite length_app. cbn. lia.
  - intros F. rewrite F. cbn [bind]. eexists. split; [reflexivity|].
    cbn [DataSeries.series].
    rewrite length_app. cbn [List.length].
    rewrite length_firstn, length_skipn. lia.
  - intros F. rewrite F. reflexivity.
  - apply length_app.
  - reflexivity.
  - intros x self'.
    destruct (fits_ssize_t i); cbn [bind]; [|discriminate].
    destruct (in_range_dec n i ltac:(lia)) as [[E H] | [E H]]; rewrite E;
      cbn [bind]; [|discriminate].
    destruct (nth_error l (Z.to_nat (position n i))) as [y|] eqn:N;
      cbn [bind]; [|discriminate].
    intros P. inversion P. cbn [DataSeries.series].
    apply Removed. apply nth_error_Some. congruence.
  - intros self'.
    destruct (in_range_dec n i ltac:(lia)) as [[E H] | [E H]]; rewrite E;
      cbn [bind]; [|discriminate].
    intros P. inversion P. cbn [DataSeries.series].
    apply Removed.
    assert (0 <= position n i < n).
    { unfold position. destruct (i <? 0) eqn:C; bool_to_prop; lia. }
    lia.
Qed.

Lemma length_bookkeeping_witness :
  S (DataSeries.len (DataSeries.mk [VInt 2] Numerical))
  = DataSeries.len (DataSeries.mk [VInt 1; VInt 2] Numerical)
  /\ DataSeries.insert (DataSeries.mk [VInt 1; VInt 2] Numerical)
                       18446744073709551616 (VInt 0)
     = Raise OverflowError.
Proof.
  split.
  - destruct (length_bookkeeping (DataSeries.mk [VInt 1; VInt 2] Numerical)
                0 (VInt 0) []) as (_ & _ & _ & _ & _ & P & _).
    apply (P (VInt 1) (DataSeries.mk [VInt 2] Numerical)). reflexivity.
  - destruct (length_bookkeeping (DataSeries.mk [VInt 1; VInt 2] Numerical)
                18446744073709551616 (VInt 0) []) as (_ & _ & O & _).
    apply O. reflexivity.
Defined.

(** X26: membership.  [item in series] holds exactly for the values
    that occur in the series; it holds for a value just appended and for
    every value that an index reads, and for nothing after [clear]. *)
Theorem contains_is_membership (self : DataSeries.t) (item : pyval) :
  (DataSeries.contains self item = true <-> In item (DataSeries.series self))
  /\ DataSeries.contains (DataSeries.append self item) item = true
  /\ DataSeries.contains (DataSeries.clear self) item = false
  /\ (forall i, DataSeries.getitem self i = Ok item ->
        DataSeries.contains self item = true).
Proof.
  assert (M : forall s, DataSeries.contains s item = true
                        <-> In item (DataSeries.series s)).
  { intros s. unfold DataSeries.contains. apply existsb_eqb_In. }
  split; [apply M|]. split; [|split].
  - apply M. cbn. apply in_or_app. right. left. reflexivity.
  - reflexivity.
  - intros i G. apply M.
    unfold DataSeries.getitem in G. rewrite py_index_position in G.
    cbv zeta in G.
    destruct ((0 <=? _) && _); [|discriminate].
    destruct (nth_error _ _) as [x|] eqn:N; [|discriminate].
    inversion G. subst x. exact (nth_error_In _ _ N).
Qed.

Lemma contains_is_membership_witness :
  DataSeries.contains (DataSeries.mk [VStr "a"; VStr "b"] Categorical)
                      (VStr "b") = true.
Proof.
  apply (proj2 (proj2 (proj2 (contains_is_membership
           (DataSeries.mk [VStr "a"; VStr "b"] Categorical) (VStr "b"))))
         (-1)).
  reflexivity.
Defined.

(** X27: a slice [start:stop] with non-negative bounds is a new series
    that holds the elements at the positions from [start] up to, not
    including, [stop], as far as they exist. *)
Theorem getslice_elements (self : DataSeries.t) (start stop : nat) :
  let slice := DataSeries.getslice self start stop in
  DataSeries.len slice
  = (Nat.min stop (DataSeries.len self) - start)%nat
  /\ forall i : nat,
       (i < DataSeries.len slice)%nat ->
       DataSeries.getitem slice (Z.of_nat i)
       = DataSeries.getitem self (Z.of_nat (start + i)).
Proof.
  destruct self as [l a]. cbv zeta.
  unfold DataSeries.getslice, DataSeries.init, DataSeries.len,
         DataSeries.getitem.
  cbn [DataSeries.series DataSeries.affinity].
  assert (L : List.length (firstn (stop - start) (skipn start l))
              = (Nat.min stop (List.length l) - start)%nat).
  { rewrite length_firstn, length_skipn. lia. }
  split; [exact L|].
  intros i Hi. rewrite L in Hi.
  rewrite (py_index_nat _ i (VInt 0)) by lia.
  rewrite (py_index_nat _ (start + i) (VInt 0)) by lia.
  f_equal.
  apply nth_error_nth.
  rewrite nth_error_firstn.
  replace (i <? stop - start)%nat with true
    by (symmetry; apply Nat.ltb_lt; lia).
  rewrite nth_error_skipn.
  apply nth_error_nth'. lia.
Qed.

Lemma getslice_elements_witness :
  DataSeries.getitem
    (DataSeries.getslice (DataSeries.mk [VInt 1; VInt 2; VInt 3] Numerical) 1 9)
    (Z.of_nat 1)
  = DataSeries.getitem (DataSeries.mk [VInt 1; VInt 2; VInt 3] Numerical)
                       (Z.of_nat (1 + 1)).
Proof.
  apply (proj2 (getslice_elements
                  (DataSeries.mk [VInt 1; VInt 2; VInt 3] Numerical) 1 9)).
  cbn. lia.
Defined.
